(** * Orchestration and resilience core of the WebScribe document pipeline

    A shallow embedding of the error/retry engine
    ([src/utils/error_handler.py]), the parallel action executor
    ([src/utils/parallel_action_executor.py]), the cycle controller
    ([src/controller/main_controller.py]) and the scheduler
    ([src/scheduler/job_scheduler.py]), followed by the properties the
    specification states about them.

    Conventions of the embedding.
    - Python [int] is [Z]; loop indices produced by [range] are [nat].
    - Python [float] (delays, durations) is idealised by exact rationals [Q].
    - a [datetime] is [Z]: the microseconds since [datetime.min], the first
      instant of the year 1; a [timedelta] is [Z] microseconds.  Both are
      bounded in Python, and the arithmetic that the retention uses raises
      [OverflowError] outside the bounds.
    - [str] is [string]; [str.lower] acts on the ASCII letters.
    - an exception is its class name and its [str()] message; all
      exceptions are instances of [Exception].
    - library calls (clock, sleep, random, traceback, JSON) and the external
      collaborators are fields of an interface, over an abstract
      environment [E]; the error log files are a concrete finite map.
    - the effects of the program are threaded explicitly: a computation
      takes a [World] and gives a value or an exception, the new world and
      the events it emitted.  Events mark the points where the source calls
      [time.sleep], the wrapped operation, [executor.submit], and so on.
    - the actions of a thread pool run one at a time, each in one step, in
      an order that a schedule chooses; the properties hold for every
      schedule.
    - [logger] output is not part of the model. *)

From Stdlib Require Import ZArith QArith Qminmax Lqa String Ascii BinaryString Bool.
From Stdlib Require Import Lia Permutation.
From Stdlib Require Import Qround DecimalString Sorted.
From stdpp Require Import base option list gmap strings.

Open Scope string_scope.
Open Scope list_scope.
Open Scope Z_scope.

(** ** Python values shared by all components *)

(** An exception object: [type(e).__name__] and [str(e)]. *)
Record Exn := mkExn { exn_type : string; exn_msg : string }.

(** A value stored in a free-form context dictionary. *)
Inductive PyVal :=
| PStr (s : string)
| PNum (q : Q).

Module Str.

(** [c.lower()] for one character. *)
Definition lower_char (c : ascii) : ascii :=
  let n := nat_of_ascii c in
  if ((65 <=? n) && (n <=? 90))%nat then ascii_of_nat (n + 32) else c.

(** [s.lower()] *)
Fixpoint lower (s : string) : string :=
  match s with
  | EmptyString => EmptyString
  | String c s' => String (lower_char c) (lower s')
  end.

(** [p in s] for two strings. *)
Fixpoint str_in (p s : string) : bool :=
  String.prefix p s ||
  match s with
  | EmptyString => false
  | String _ s' => str_in p s'
  end.

(** [x in l] for a string and a list of strings. *)
Definition mem (x : string) (l : list string) : bool :=
  existsb (String.eqb x) l.

(** [str(x)] of an optional string ([None] prints as its name). *)
Definition of_option (o : option string) : string :=
  match o with Some s => s | None => "None" end.

(** [os.path.basename] *)
Fixpoint basename_from (s acc : string) : string :=
  match s with
  | EmptyString => acc
  | String c s' =>
      if Ascii.eqb c "/" then basename_from s' EmptyString
      else basename_from s' (acc +:+ String c EmptyString)
  end.
Definition basename (s : string) : string := basename_from s EmptyString.

(** [s.replace('-', '')] *)
Fixpoint remove_dashes (s : string) : string :=
  match s with
  | EmptyString => EmptyString
  | String c s' =>
      if Ascii.eqb c "-" then remove_dashes s' else String c (remove_dashes s')
  end.

(** [s.endswith(suffix)] *)
Definition ends_with (suffix s : string) : bool :=
  (String.length suffix <=? String.length s)%nat
  && String.eqb
       (substring (String.length s - String.length suffix)
          (String.length suffix) s)
       suffix.

(** [s.replace('//', '/')] *)
Fixpoint collapse_slashes (s : string) : string :=
  match s with
  | EmptyString => EmptyString
  | String c s' =>
      match s' with
      | String c' s'' =>
          if Ascii.eqb c "/" && Ascii.eqb c' "/"
          then String "/" (collapse_slashes s'')
          else String c (collapse_slashes s')
      | EmptyString => String c EmptyString
      end
  end.

End Str.

(** ** config/models.py *)

Record RetentionConfig := mkRetentionConfig {
  csv_retention_days : Z;
  log_retention_days : Z;
  error_log_retention_days : Z;
  processing_records_retention_days : Z;
  zip_backup_retention_days : Z
}.

Definition RetentionConfig_default : RetentionConfig :=
  mkRetentionConfig 0 0 0 0 0.

Record ScheduleConfig := mkScheduleConfig {
  poll_interval_seconds : Z;
  poll_cron : option string;
  timezone : string
}.

Record DownloadResult := mkDownloadResult {
  dr_type_folder : string;
  dr_filename : string;
  dr_size : Z;
  dr_success : bool;
  dr_error_message : option string
}.

Record ActionResult := mkActionResult {
  action_name : string;
  success : bool;
  duration : Q;
  ar_error_message : option string
}.

Record ProcessingStats := mkProcessingStats {
  date_folder : string;
  start_time : Z;
  end_time : Z;
  type_folders_scanned : list (string * Z);
  files_downloaded : list DownloadResult;
  documents_processed : Z;
  records_extracted : Z;
  csv_filename : string;
  csv_size : Z;
  upload_status : string;
  log_filename : string;
  email_sent : bool;
  errors : list string
}.

Definition set_upload_status (v : string) (s : ProcessingStats) : ProcessingStats :=
  mkProcessingStats (date_folder s) (start_time s) (end_time s)
    (type_folders_scanned s) (files_downloaded s) (documents_processed s)
    (records_extracted s) (csv_filename s) (csv_size s) v (log_filename s)
    (email_sent s) (errors s).

Definition set_log_filename (v : string) (s : ProcessingStats) : ProcessingStats :=
  mkProcessingStats (date_folder s) (start_time s) (end_time s)
    (type_folders_scanned s) (files_downloaded s) (documents_processed s)
    (records_extracted s) (csv_filename s) (csv_size s) (upload_status s) v
    (email_sent s) (errors s).

Definition set_email_sent (v : bool) (s : ProcessingStats) : ProcessingStats :=
  mkProcessingStats (date_folder s) (start_time s) (end_time s)
    (type_folders_scanned s) (files_downloaded s) (documents_processed s)
    (records_extracted s) (csv_filename s) (csv_size s) (upload_status s)
    (log_filename s) v (errors s).

Definition set_end_time (v : Z) (s : ProcessingStats) : ProcessingStats :=
  mkProcessingStats (date_folder s) (start_time s) v
    (type_folders_scanned s) (files_downloaded s) (documents_processed s)
    (records_extracted s) (csv_filename s) (csv_size s) (upload_status s)
    (log_filename s) (email_sent s) (errors s).

(** ** utils/error_handler.py: the data *)

Inductive ErrorCategory :=
| CONFIGURATION
| SFTP_CONNECTION
| SFTP_FILE_OPERATION
| FILE_PROCESSING
| DOCUMENT_PARSING
| EMAIL_NOTIFICATION
| DATABASE_OPERATION
| SYSTEM_RESOURCE
| VALIDATION
| UNKNOWN.

Inductive ErrorSeverity := CRITICAL | HIGH | MEDIUM | LOW.

#[global] Instance ErrorCategory_eq_dec : EqDecision ErrorCategory.
Proof. solve_decision. Defined.

#[global] Instance ErrorSeverity_eq_dec : EqDecision ErrorSeverity.
Proof. solve_decision. Defined.

(** [category.value] *)
Definition category_value (c : ErrorCategory) : string :=
  match c with
  | CONFIGURATION => "configuration"
  | SFTP_CONNECTION => "sftp_connection"
  | SFTP_FILE_OPERATION => "sftp_file_operation"
  | FILE_PROCESSING => "file_processing"
  | DOCUMENT_PARSING => "document_parsing"
  | EMAIL_NOTIFICATION => "email_notification"
  | DATABASE_OPERATION => "database_operation"
  | SYSTEM_RESOURCE => "system_resource"
  | VALIDATION => "validation"
  | UNKNOWN => "unknown"
  end.

Record ErrorContext := mkErrorContext {
  timestamp : Z;
  category : ErrorCategory;
  severity : ErrorSeverity;
  component : string;
  operation : string;
  error_message : string;
  exception_type : string;
  stack_trace : string;
  additional_data : list (string * PyVal);
  retry_count : Z;
  max_retries : Z;
  is_recoverable : bool
}.

Record RetryConfig := mkRetryConfig {
  max_attempts : Z;
  base_delay : Q;
  max_delay : Q;
  exponential_backoff : bool;
  jitter : bool
}.

(** [RetryConfig(max_attempts=n, base_delay=b)]: the other fields keep the
    defaults of the dataclass. *)
Definition RetryConfig_with (n : Z) (b : Q) : RetryConfig :=
  mkRetryConfig n b 60 true true.

(** [RetryConfig()] *)
Definition RetryConfig_default : RetryConfig := RetryConfig_with 3 1.

(** The state of the [ErrorHandler] instance. *)
Record ErrorHandler := mkErrorHandler {
  storage_path : string;
  retention_config : RetentionConfig;
  error_history : list ErrorContext;
  error_counts : gmap string Z;
  last_error_times : gmap string Z
}.

(** ** Events *)

(** An operation on a file of the error log directory. *)
Inductive FileOp :=
| OpenWrite (path : string)        (* open(path, 'w'): created or emptied *)
| WriteLine (path line : string)   (* outfile.write(line) *)
| Replace (src dst : string).      (* src.replace(dst) *)

Inductive Event :=
| EvSleep (delay : Q)                 (* time.sleep(delay) returned *)
| EvInvoke (attempt : nat) (raised : option Exn)
                                      (* operation() was called, and raised *)
| EvHandled (ctx : ErrorContext)      (* handle_error built a record *)
| EvSubmit (name : string)            (* executor.submit(...) *)
| EvCollect (r : ActionResult)        (* results.append(...) of a future *)
| EvUpload (csv_path : string)        (* upload_csv_action entered *)
| EvCreateLog (stats : ProcessingStats)  (* create_log_action entered *)
| EvNotify (stats : ProcessingStats)     (* send_email_action entered *)
| EvDownload
| EvProcess
| EvBackup
| EvFile (op : FileOp).               (* a file operation of the cleanup *)

(** ** The interface to the libraries *)

(** What decoding one line of the persistent error log gives:
    [json.loads(line.strip())], then [error_data['timestamp']], then
    [datetime.fromisoformat]. *)
Inductive LineDecode :=
| Decoded (error_time : Z)
| Malformed                 (* JSONDecodeError, KeyError or ValueError *)
| DecodeRaises (e : Exn).   (* any other exception *)

Class Runtime (E : Type) := {
  (** [datetime.now()] *)
  now : E -> Z;
  (** [time.time()] *)
  time : E -> Q;
  (** the effect of a successful [time.sleep(d)] *)
  sleep : Q -> E -> E;
  (** [random.random()] and its range *)
  random : E -> Q * E;
  random_range : forall e, (0 <= fst (random e))%Q /\ (fst (random e) < 1)%Q;
  (** [traceback.format_exc()] while [e] is being handled *)
  format_exc : Exn -> string;
  (** [json.dumps(error_data)] of an error record *)
  json_dumps : ErrorContext -> string;
  (** decoding of one stored line *)
  decode_line : string -> LineDecode;
  (** a line that [json.dumps] wrote decodes to the instant of its record *)
  decode_json_dumps : forall c, decode_line (json_dumps c) = Decoded (timestamp c)
}.

(** ** Worlds and computations *)

Section Computations.
Context {E : Type}.

(** Everything the program can read or change. *)
Record World := mkWorld {
  (** the environment of the process: clock, generator, network, disk *)
  env : E;
  (** the error log directory: path to lines of the file *)
  files : gmap string (list string);
  (** the process-wide [ErrorHandler] instance *)
  handler : ErrorHandler;
  (** the [ProcessingStats] objects; a reference is an index *)
  heap : list ProcessingStats
}.

Definition set_env (e : E) (w : World) : World :=
  mkWorld e (files w) (handler w) (heap w).
Definition set_files (f : gmap string (list string)) (w : World) : World :=
  mkWorld (env w) f (handler w) (heap w).
Definition set_handler (h : ErrorHandler) (w : World) : World :=
  mkWorld (env w) (files w) h (heap w).
Definition set_heap (hp : list ProcessingStats) (w : World) : World :=
  mkWorld (env w) (files w) (handler w) hp.

Record Outcome (A : Type) := mkOutcome {
  value : A + Exn;
  world : World;
  events : list Event
}.
Arguments mkOutcome {A} _ _ _.
Arguments value {A} _.
Arguments world {A} _.
Arguments events {A} _.

Definition M (A : Type) : Type := World -> Outcome A.

Definition ret {A} (a : A) : M A :=
  fun w => mkOutcome (inl a) w [].

Definition raise {A} (e : Exn) : M A :=
  fun w => mkOutcome (inr e) w [].

Definition bind {A B} (m : M A) (k : A -> M B) : M B :=
  fun w =>
    let o := m w in
    match value o with
    | inl a =>
        let o' := k a (world o) in
        mkOutcome (value o') (world o') (events o ++ events o')%list
    | inr e => mkOutcome (inr e) (world o) (events o)
    end.

(** [try: m  except Exception as e: ...]: the exception becomes a value. *)
Definition try {A} (m : M A) : M (A + Exn) :=
  fun w => let o := m w in mkOutcome (inl (value o)) (world o) (events o).

Definition emit (ev : Event) : M unit :=
  fun w => mkOutcome (inl tt) w [ev].

Definition gets {A} (f : World -> A) : M A :=
  fun w => mkOutcome (inl (f w)) w [].

Definition modify (f : World -> World) : M unit :=
  fun w => mkOutcome (inl tt) (f w) [].

(** A state transformer of the environment alone. *)
Definition lift_env {A} (f : E -> A * E) : M A :=
  fun w => let '(a, e) := f (env w) in mkOutcome (inl a) (set_env e w) [].

(** Building an object that is shared by reference. *)
Definition alloc (s : ProcessingStats) : M nat :=
  fun w => mkOutcome (inl (length (heap w))) (set_heap (heap w ++ [s])%list w) [].

(** Reading the object behind a reference. *)
Definition load (r : nat) : M ProcessingStats :=
  fun w =>
    match heap w !! r with
    | Some s => mkOutcome (inl s) w []
    | None => mkOutcome (inr (mkExn "ReferenceError" "no such object")) w []
    end.

(** Assigning to attributes of the object behind a reference. *)
Definition update (r : nat) (f : ProcessingStats -> ProcessingStats) : M unit :=
  modify (fun w => set_heap (alter f r (heap w)) w).

End Computations.

Arguments World : clear implicits.
Arguments Outcome : clear implicits.
Arguments M : clear implicits.
Arguments mkOutcome {E A} _ _ _.
Arguments value {E A} _.
Arguments world {E A} _.
Arguments events {E A} _.

Declare Scope comp_scope.
Delimit Scope comp_scope with comp.
Notation "x <- m ;; k" := (bind m (fun x => k))
  (at level 100, m at next level, right associativity) : comp_scope.
Notation "m ;;; k" := (bind m (fun _ => k))
  (at level 100, right associativity) : comp_scope.
Open Scope comp_scope.

(** ** utils/error_handler.py *)

Module ErrorHandler.
Section Defs.
Context {E : Type} `{Runtime E}.

(** [self.retry_configs], as [__init__] fills it. *)
Definition retry_configs (c : ErrorCategory) : option RetryConfig :=
  match c with
  | SFTP_CONNECTION => Some (RetryConfig_with 5 2)
  | SFTP_FILE_OPERATION => Some (RetryConfig_with 3 1)
  | EMAIL_NOTIFICATION => Some (RetryConfig_with 3 2)
  | DATABASE_OPERATION => Some (RetryConfig_with 3 (1 # 2))
  | FILE_PROCESSING => Some (RetryConfig_with 2 1)
  | DOCUMENT_PARSING => Some (RetryConfig_with 1 0)
  | CONFIGURATION => Some (RetryConfig_with 1 0)
  | VALIDATION => Some (RetryConfig_with 1 0)
  | SYSTEM_RESOURCE | UNKNOWN => None
  end.

(** [self.retry_configs.get(category, RetryConfig())] *)
Definition retry_config_for (category : ErrorCategory) : RetryConfig :=
  default RetryConfig_default (retry_configs category).

(** [self.error_log_file] *)
Definition error_log_file (h : ErrorHandler) : string :=
  storage_path h +:+ "/error_context.jsonl".

(** [self.error_log_file.with_suffix('.tmp')] *)
Definition temp_file (h : ErrorHandler) : string :=
  storage_path h +:+ "/error_context.tmp".

Definition non_recoverable_types : list string :=
  [ "FileNotFoundError"; "PermissionError"; "AuthenticationError";
    "SMTPAuthenticationError"; "SMTPRecipientsRefused"; "ValueError";
    "TypeError"; "AttributeError" ].

Definition non_recoverable_patterns : list string :=
  [ "authentication failed"; "invalid credentials"; "permission denied";
    "file not found"; "invalid format"; "malformed"; "corrupt" ].

Definition _is_recoverable_error (error : Exn) (category : ErrorCategory) : bool :=
  if bool_decide (category = CONFIGURATION) || bool_decide (category = VALIDATION)
  then false
  else
    let error_type := exn_type error in
    if Str.mem error_type non_recoverable_types then false
    else
      let error_message := Str.lower (exn_msg error) in
      if existsb (fun pattern => Str.str_in pattern error_message)
           non_recoverable_patterns
      then false
      else true.

Definition _determine_error_severity (error : Exn) (category : ErrorCategory)
  : ErrorSeverity :=
  let error_type := exn_type error in
  let error_message := Str.lower (exn_msg error) in
  if bool_decide (category = CONFIGURATION) then CRITICAL
  else if Str.mem error_type ["SystemExit"; "KeyboardInterrupt"; "MemoryError"]
  then CRITICAL
  else if bool_decide (category = SFTP_CONNECTION)
          || bool_decide (category = DATABASE_OPERATION)
  then HIGH
  else if Str.str_in "authentication" error_message
          || Str.str_in "permission" error_message
  then HIGH
  else if bool_decide (category = FILE_PROCESSING)
          || bool_decide (category = EMAIL_NOTIFICATION)
  then MEDIUM
  else if bool_decide (category = DOCUMENT_PARSING)
          || bool_decide (category = VALIDATION)
  then LOW
  else MEDIUM.

(** The delay before the jitter is applied. *)
Definition backoff_delay (attempt : nat) (config : RetryConfig) : Q :=
  if exponential_backoff config
  then Qmin (base_delay config * inject_Z (2 ^ Z.of_nat attempt)) (max_delay config)
  else base_delay config.

Definition _calculate_retry_delay (attempt : nat) (config : RetryConfig)
  : M E Q :=
  let delay := backoff_delay attempt config in
  if jitter config
  then r <- lift_env random ;;
       ret (delay * ((1 # 2) + r * (1 # 2)))%Q
  else ret delay.

Definition _track_error_statistics (context : ErrorContext) : M E unit :=
  let error_key :=
    category_value (category context) +:+ ":" +:+ component context
      +:+ ":" +:+ operation context in
  modify (fun w =>
    let h := handler w in
    set_handler
      (mkErrorHandler (storage_path h) (retention_config h) (error_history h)
         (<[error_key := default 0 (error_counts h !! error_key) + 1]>
            (error_counts h))
         (<[error_key := timestamp context]> (last_error_times h)))
      w).

(** Appends one line to the JSONL file (mode ['a'] creates the file). *)
Definition _store_error_context (context : ErrorContext) : M E unit :=
  modify (fun w =>
    let f := error_log_file (handler w) in
    set_files
      (<[f := (default [] (files w !! f) ++ [json_dumps context])%list]> (files w))
      w).

(** [self.error_history.append(context)], then the cap of 1000. *)
Definition append_history (context : ErrorContext) : M E unit :=
  modify (fun w =>
    let h := handler w in
    let hist := (error_history h ++ [context])%list in
    let hist' := if (1000 <? length hist)%nat then tail hist else hist in
    set_handler
      (mkErrorHandler (storage_path h) (retention_config h) hist'
         (error_counts h) (last_error_times h))
      w).

Definition handle_error (error : Exn) (category : ErrorCategory)
    (severity : ErrorSeverity) (component operation : string)
    (additional_data : option (list (string * PyVal)))
    (retry_count max_retries : Z) : M E ErrorContext :=
  t <- gets (fun w => now (env w)) ;;
  let context :=
    mkErrorContext t category severity component operation
      (exn_msg error) (exn_type error) (format_exc error)
      (default [] additional_data) retry_count max_retries
      (_is_recoverable_error error category) in
  emit (EvHandled context) ;;;
  _track_error_statistics context ;;;
  _store_error_context context ;;;
  append_history context ;;;
  ret context.

(** A wrapped operation: any function of the world that returns or raises. *)
Definition Op (T : Type) : Type := World E -> (T + Exn) * World E.

(** The exception of a result, if it is one. *)
Definition raised_of {T} (r : T + Exn) : option Exn :=
  match r with
  | inl _ => None
  | inr e => Some e
  end.

(** [operation()] in attempt [attempt] *)
Definition call {T} (operation : Op T) (attempt : nat) : M E T :=
  fun w =>
    let r := operation w in
    mkOutcome (fst r) (snd r) [EvInvoke attempt (raised_of (fst r))].

(** [time.sleep(delay)]; a negative length raises [ValueError]. *)
Definition time_sleep (delay : Q) : M E unit :=
  if Qle_bool 0 delay
  then modify (fun w => set_env (sleep delay (env w)) w) ;;; emit (EvSleep delay)
  else raise (mkExn "ValueError" "sleep length must be non-negative").

(** The statements after the [for] loop. *)
Definition after_loop {T} (last_error : option Exn) : M E (option T) :=
  match last_error with
  | Some e => raise e
  | None => ret None
  end.

Section Retry.
Context {T : Type} (operation : Op T) (category : ErrorCategory)
  (component operation_name : string)
  (additional_data : option (list (string * PyVal)))
  (retry_config : RetryConfig).

(** The [try] block of one iteration. *)
Definition attempt_body (attempt : nat) : M E T :=
  (if (0 <? attempt)%nat
   then delay <- _calculate_retry_delay attempt retry_config ;;
        time_sleep delay
   else ret tt) ;;;
  call operation attempt.

(** [for attempt in <attempts>: ...] and what follows the loop;
    [last_error] is the variable of that name. *)
Fixpoint retry_loop (attempts : list nat) (last_error : option Exn)
  : M E (option T) :=
  match attempts with
  | [] => after_loop last_error
  | attempt :: rest =>
      r <- try (attempt_body attempt) ;;
      match r with
      | inl result => ret (Some result)
      | inr e =>
          let severity :=
            if Z.of_nat attempt =? max_attempts retry_config - 1
            then _determine_error_severity e category
            else LOW in
          context <- handle_error e category severity component
                       operation_name additional_data (Z.of_nat attempt)
                       (max_attempts retry_config - 1) ;;
          if negb (is_recoverable context)
          then after_loop (Some e)
          else retry_loop rest (Some e)
      end
  end.
End Retry.

(** [range(n)] *)
Definition range (n : Z) : list nat := seq 0 (Z.to_nat n).

(** The value is [Some result] when the operation returned [result], and
    [None] when the function falls off its end. *)
Definition execute_with_retry {T} (operation : Op T) (category : ErrorCategory)
    (component operation_name : string)
    (additional_data : option (list (string * PyVal))) : M E (option T) :=
  let retry_config := retry_config_for category in
  retry_loop operation category component operation_name additional_data
    retry_config (range (max_attempts retry_config)) None.

(** [src.replace(dst)]: the file [src] takes the place of [dst]. *)
Definition replace_file (src dst : string) (fs : gmap string (list string))
  : gmap string (list string) :=
  match fs !! src with
  | Some content => <[dst := content]> (delete src fs)
  | None => fs
  end.

(** What a file operation does to the directory. *)
Definition apply_op (op : FileOp) (fs : gmap string (list string))
  : gmap string (list string) :=
  match op with
  | OpenWrite path => <[path := []]> fs
  | WriteLine path line => <[path := default [] (fs !! path) ++ [line]]> fs
  | Replace src dst => replace_file src dst fs
  end.

(** A file operation of the cleanup: it changes the directory and is
    entered in the trace. *)
Definition perform (op : FileOp) : M E unit :=
  modify (fun w => set_files (apply_op op (files w)) w) ;;; emit (EvFile op).

(** The length of [d] days in microseconds. *)
Definition days (d : Z) : Z := d * 86400000000.

(** [timedelta(days=d)]: the number of days of a [timedelta] has a
    magnitude of at most 999999999. *)
Definition timedelta_days (d : Z) : Z + Exn :=
  if Z.abs d <=? 999999999 then inl (days d)
  else inr (mkExn "OverflowError"
              ("days=" +:+ NilZero.string_of_int (Z.to_int d)
               +:+ "; must have magnitude <= 999999999")).

(** [datetime.max], the last microsecond of the year 9999. *)
Definition datetime_max : Z := days 3652059 - 1.

(** [t - delta] for a [datetime] and a [timedelta]: the result is a
    [datetime], between [datetime.min] and [datetime.max]. *)
Definition datetime_sub (t delta : Z) : Z + Exn :=
  let r := t - delta in
  if (0 <=? r) && (r <=? datetime_max) then inl r
  else inr (mkExn "OverflowError" "date value out of range").

(** [t - timedelta(days=retention_days)], with [t] the value of
    [datetime.now()]. *)
Definition cutoff_before (t retention_days : Z) : Z + Exn :=
  match timedelta_days retention_days with
  | inl delta => datetime_sub t delta
  | inr e => inr e
  end.

(** The [for line in infile] loop: a line of a record at or after the
    cutoff is written to the temporary file; a line that is malformed is
    skipped; any other exception leaves the loop. *)
Fixpoint copy_recent (cutoff_time : Z) (temp_file : string)
    (lines : list string) : M E unit :=
  match lines with
  | [] => ret tt
  | line :: rest =>
      match decode_line line with
      | Decoded error_time =>
          (if bool_decide (cutoff_time <= error_time)
           then perform (WriteLine temp_file line)
           else ret tt) ;;;
          copy_recent cutoff_time temp_file rest
      | Malformed => copy_recent cutoff_time temp_file rest
      | DecodeRaises e => raise e
      end
  end.

Definition cleanup_old_error_logs (days_to_keep : option Z) : M E unit :=
  r <- try (
    h <- gets handler ;;
    let retention_days :=
      match days_to_keep with
      | Some d => d
      | None => error_log_retention_days (retention_config h)
      end in
    if retention_days <=? 0 then ret tt
    else
      cutoff_time <- (fun w =>
                        mkOutcome (cutoff_before (now (env w)) retention_days)
                          w []) ;;
      modify (fun w =>
        let h := handler w in
        set_handler
          (mkErrorHandler (storage_path h) (retention_config h)
             (filter (fun e => cutoff_time <= timestamp e) (error_history h))
             (error_counts h) (last_error_times h))
          w) ;;;
      fs <- gets files ;;
      match fs !! error_log_file h with
      | Some lines =>
          perform (OpenWrite (temp_file h)) ;;;
          copy_recent cutoff_time (temp_file h) lines ;;;
          perform (Replace (temp_file h) (error_log_file h))
      | None => ret tt
      end) ;;
  ret tt.

End Defs.
End ErrorHandler.

(** ** The external collaborators *)

Record FileInfo := mkFileInfo {
  fi_filename : string;
  fi_full_path : string;
  fi_size : Z;
  fi_mtime : Z
}.

Record MedicalRecord := mkMedicalRecord {
  source_file : string;
  first_name : string;
  last_name : string;
  date_of_birth : string;
  record_number : string;
  case_number : string;
  accident_date : string;
  provider_first : string;
  provider_last : string;
  exam_date : string;
  exam_place : string;
  transcriptionist : string;
  dd_date : string;
  transcription_date : string;
  job_number : string;
  case_code : string
}.

(** The transfer clients, the document parser, the notifier and the local
    disk, at their interface: each call reads and changes the environment
    and returns or raises. *)
Class Collaborators (E : Type) := {
  (** [DateFolderManager.create_date_folder()] *)
  create_date_folder : E -> (string + Exn) * E;
  (** [DateFolderManager.organize_by_type(date_folder, type_folder)] *)
  organize_by_type : string -> string -> E -> (string + Exn) * E;
  (** entering and leaving [with ftps_manager.connect_ftps(config)] *)
  connect_ftps : E -> (unit + Exn) * E;
  disconnect_ftps : E -> E;
  (** [FTPSManager.list_files_in_folder(client, folder_path)] *)
  list_files_in_folder : string -> E -> (list FileInfo + Exn) * E;
  (** [FTPSManager.download_file(client, remote_path, local_path)] *)
  download_file : string -> string -> E -> (unit + Exn) * E;
  (** the [.doc]/[.docx] files below the type subfolders of a date folder *)
  list_document_files : string -> E -> (list string + Exn) * E;
  (** [extract_text_from_document] then [parse_medical_fields] *)
  parse_document : string -> E -> (MedicalRecord + Exn) * E;
  (** writing the CSV (header and one row per record) at a path *)
  write_csv : string -> list MedicalRecord -> E -> (unit + Exn) * E;
  (** [os.path.getsize(p) if os.path.exists(p) else 0] *)
  csv_size_on_disk : string -> E -> Z;
  (** connect to the destination and [upload_file(client, local, remote)] *)
  upload_file : string -> string -> E -> (unit + Exn) * E;
  (** [ProcessingLogCreator.create_log(date_folder, stats)] *)
  create_log : string -> ProcessingStats -> E -> (string + Exn) * E;
  (** [EmailNotifier.send_webscribe_notification(stats)] *)
  send_webscribe_notification : ProcessingStats -> E -> (unit + Exn) * E;
  (** [EmailNotifier.send_failure_notification(zip_filename, error_message)] *)
  send_failure_notification : string -> string -> E -> (unit + Exn) * E;
  (** the names of [date_folder.glob("processing_log_*.txt")] *)
  glob_processing_logs : string -> E -> list string;
  (** [rmtree] of an old backup, then [copytree] *)
  copy_to_backup : string -> E -> (unit + Exn) * E;
  (** [datetime.strptime(s, '%Y-%m-%d').date()], [None] on [ValueError] *)
  parse_folder_date : string -> option Z;
  (** [d.date()] of an instant *)
  date_of : Z -> Z;
  (** [pytz.timezone(name)] *)
  pytz_timezone : string -> string + Exn;
  (** [croniter(expr, now).get_next(datetime)] *)
  croniter_get_next : string -> string -> Z -> Z + Exn
}.

(** A call to a collaborator, as a computation. *)
Definition extern {E A} (f : E -> (A + Exn) * E) : M E A :=
  fun w => let '(r, e) := f (env w) in mkOutcome r (set_env e w) [].

(** ** utils/parallel_action_executor.py *)

Module ParallelActionExecutor.
Section Defs.
Context {E : Type} `{Runtime E} `{Collaborators E}.

(** A callable taking no argument; its return value is not used. *)
Definition Action : Type := M E unit.

(** An action dictionary: the keys ['name'] and ['function'] may be absent. *)
Record ActionDict := mkAction {
  name : option string;
  function : option Action
}.

Definition _execute_action (action_name : string) (action_func : Action)
  : M E ActionResult :=
  start_time <- gets (fun w => time (env w)) ;;
  r <- try action_func ;;
  match r with
  | inl _ =>
      t <- gets (fun w => time (env w)) ;;
      let duration := (t - start_time)%Q in
      ret (mkActionResult action_name true duration None)
  | inr e =>
      t <- gets (fun w => time (env w)) ;;
      let duration := (t - start_time)%Q in
      let error_msg := exn_msg e in
      ErrorHandler.handle_error e SYSTEM_RESOURCE MEDIUM
        "ParallelActionExecutor" ("execute_" +:+ action_name)
        (Some [("action_name", PStr action_name); ("duration", PNum duration)])
        0 0 ;;;
      ret (mkActionResult action_name false duration (Some error_msg))
  end.

(** The loop that submits the actions: the results of the actions without
    a function, and the submitted futures in submission order. *)
Fixpoint submit_all (actions : list ActionDict) (results : list ActionResult)
    (future_to_action : list (string * Action))
  : M E (list ActionResult * list (string * Action)) :=
  match actions with
  | [] => ret (results, future_to_action)
  | action :: rest =>
      let action_name := default "unknown" (name action) in
      match function action with
      | None =>
          submit_all rest
            (results ++ [mkActionResult action_name false 0
                           (Some "No function provided")])%list
            future_to_action
      | Some action_func =>
          emit (EvSubmit action_name) ;;;
          submit_all rest results
            (future_to_action ++ [(action_name, action_func)])%list
      end
  end.

(** [as_completed]: the futures in the order in which they finish.  The
    pool is free to finish them in any order; [sched] resolves the choice:
    its next number, modulo the number of running futures, picks the one
    that finishes next.  [n] bounds the number of futures. *)
Fixpoint as_completed {A} (sched : list nat) (n : nat) (running : list A)
  : list A :=
  match n with
  | O => []
  | S n' =>
      let i := (hd O sched mod length running)%nat in
      match running !! i with
      | Some fut => fut :: as_completed (tl sched) n' (delete i running)
      | None => []
      end
  end.

(** The loop that collects the results; a future runs its action as one
    step, when it is picked. *)
Fixpoint collect (completed : list (string * Action))
    (results : list ActionResult) : M E (list ActionResult) :=
  match completed with
  | [] => ret results
  | (action_name, action_func) :: rest =>
      r <- try (_execute_action action_name action_func) ;;
      let result :=
        match r with
        | inl result => result
        | inr e => mkActionResult action_name false 0 (Some (exn_msg e))
        end in
      emit (EvCollect result) ;;;
      collect rest (results ++ [result])%list
  end.

Definition execute_parallel (sched : list nat) (actions : list ActionDict)
  : M E (list ActionResult) :=
  match actions with
  | [] => ret []
  | _ =>
      submitted <- submit_all actions [] [] ;;
      let '(results, future_to_action) := submitted in
      collect
        (as_completed sched (length future_to_action) future_to_action)
        results
  end.

Definition upload_csv_action (csv_path remote_dir : string) : Action :=
  emit (EvUpload csv_path) ;;;
  let csv_filename := Str.basename csv_path in
  let remote_path := Str.collapse_slashes (remote_dir +:+ "/" +:+ csv_filename) in
  extern (upload_file csv_path remote_path).

Definition create_log_action (date_folder : string) (stats : ProcessingStats)
  : Action :=
  emit (EvCreateLog stats) ;;;
  log_path <- extern (create_log date_folder stats) ;;
  ret tt.

Definition send_email_action (stats : ProcessingStats) : Action :=
  emit (EvNotify stats) ;;;
  extern (send_webscribe_notification stats).

End Defs.

Arguments Action : clear implicits.
Arguments ActionDict : clear implicits.

End ParallelActionExecutor.

(** ** utils/type_folder_scanner.py *)

(** A [dict] from folder names to file lists, in insertion order. *)
Definition ScanResults : Type := list (string * list FileInfo).

Fixpoint dict_set {V} (k : string) (v : V) (d : list (string * V))
  : list (string * V) :=
  match d with
  | [] => [(k, v)]
  | (k', v') :: d' =>
      if String.eqb k k' then (k, v) :: d' else (k', v') :: dict_set k v d'
  end.

Module TypeFolderScanner.
Section Defs.
Context {E : Type} `{Runtime E} `{Collaborators E}.

Fixpoint scan_folders (type_folders : list string) (base_path : string)
    (scan_results : ScanResults) : M E ScanResults :=
  match type_folders with
  | [] => ret scan_results
  | type_folder :: rest =>
      let folder_path :=
        Str.collapse_slashes (base_path +:+ "/" +:+ type_folder) in
      r <- try (extern (list_files_in_folder folder_path)) ;;
      match r with
      | inl files =>
          scan_folders rest base_path (dict_set type_folder files scan_results)
      | inr e =>
          ErrorHandler.handle_error e SFTP_FILE_OPERATION MEDIUM
            "TypeFolderScanner" "scan_folder"
            (Some [("type_folder", PStr type_folder);
                   ("folder_path", PStr folder_path);
                   ("base_path", PStr base_path)]) 0 0 ;;;
          scan_folders rest base_path (dict_set type_folder [] scan_results)
      end
  end.

Definition filter_document_files (files : list FileInfo) : list FileInfo :=
  List.filter
    (fun file_info =>
       let filename := Str.lower (fi_filename file_info) in
       Str.ends_with ".doc" filename || Str.ends_with ".docx" filename)
    files.

End Defs.
End TypeFolderScanner.

(** ** controller/main_controller.py *)

Record ControllerConfig := mkControllerConfig {
  (** [type_folder_config.folders] *)
  type_folders : list string;
  (** [source_ftps_config.remote_path] *)
  source_remote_path : string;
  (** [dest_sftp_config.remote_path] *)
  dest_remote_path : string
}.

Module MainController.
Section Defs.
Context {E : Type} `{Runtime E} `{Collaborators E}.
Variable self : ControllerConfig.

Import ParallelActionExecutor.

(** [with self.ftps_manager.connect_ftps(config) as ftps_client: body] *)
Definition with_ftps {A} (body : M E A) : M E A :=
  extern connect_ftps ;;;
  r <- try body ;;
  modify (fun w => set_env (disconnect_ftps (env w)) w) ;;;
  match r with
  | inl a => ret a
  | inr e => raise e
  end.

Definition _create_date_folder : M E string :=
  r <- try (extern create_date_folder) ;;
  match r with
  | inl date_folder => ret date_folder
  | inr e =>
      ErrorHandler.handle_error e SYSTEM_RESOURCE CRITICAL "MainController"
        "create_date_folder" None 0 0 ;;;
      raise e
  end.

Definition _scan_type_folders : M E ScanResults :=
  r <- try (with_ftps (
         scan_results <- TypeFolderScanner.scan_folders (type_folders self)
                           (source_remote_path self) [] ;;
         ret (map (fun '(type_folder, files) =>
                     (type_folder, TypeFolderScanner.filter_document_files files))
                scan_results))) ;;
  match r with
  | inl filtered_results => ret filtered_results
  | inr e =>
      ErrorHandler.handle_error e SFTP_CONNECTION CRITICAL "MainController"
        "scan_type_folders" None 0 0 ;;;
      raise e
  end.

(** [sum(len(files) for files in scan_results.values())] *)
Definition total_files (scan_results : ScanResults) : Z :=
  fold_right (fun '(_, files) n => Z.of_nat (length files) + n) 0 scan_results.

(** The inner [for file_info in files] loop of the download phase. *)
Fixpoint download_files (type_folder type_subfolder : string)
    (files : list FileInfo) (download_results : list DownloadResult)
  : M E (list DownloadResult) :=
  match files with
  | [] => ret download_results
  | file_info :: rest =>
      let local_path := type_subfolder +:+ "/" +:+ fi_filename file_info in
      r <- try (extern (download_file (fi_full_path file_info) local_path)) ;;
      match r with
      | inl _ =>
          download_files type_folder type_subfolder rest
            (download_results ++
               [mkDownloadResult type_folder (fi_filename file_info)
                  (fi_size file_info) true None])%list
      | inr e =>
          ErrorHandler.handle_error e SFTP_FILE_OPERATION MEDIUM
            "MainController" "download_file"
            (Some [("type_folder", PStr type_folder);
                   ("filename", PStr (fi_filename file_info))]) 0 0 ;;;
          download_files type_folder type_subfolder rest
            (download_results ++
               [mkDownloadResult type_folder (fi_filename file_info)
                  (fi_size file_info) false (Some (exn_msg e))])%list
      end
  end.

(** The outer [for type_folder, files in scan_results.items()] loop. *)
Fixpoint download_folders (items : ScanResults) (target_date : option Z)
    (date_folder : string) (download_results : list DownloadResult)
  : M E (list DownloadResult) :=
  match items with
  | [] => ret download_results
  | (type_folder, files) :: rest =>
      let files :=
        match files, target_date with
        | _ :: _, Some d =>
            List.filter (fun file_info => date_of (fi_mtime file_info) =? d) files
        | _, _ => files
        end in
      match files with
      | [] => download_folders rest target_date date_folder download_results
      | _ =>
          type_subfolder <- extern (organize_by_type date_folder type_folder) ;;
          download_results' <- download_files type_folder type_subfolder files
                                 download_results ;;
          download_folders rest target_date date_folder download_results'
      end
  end.

Definition _download_files_to_date_folder (scan_results : ScanResults)
    (date_folder : string) : M E (list DownloadResult) :=
  emit EvDownload ;;;
  let folder_name := Str.basename date_folder in
  let target_date := parse_folder_date folder_name in
  r <- try (with_ftps (download_folders scan_results target_date date_folder [])) ;;
  match r with
  | inl download_results => ret download_results
  | inr e =>
      ErrorHandler.handle_error e SFTP_CONNECTION HIGH "MainController"
        "download_files_to_date_folder" None 0 0 ;;;
      raise e
  end.

(** The loop over the document files of the date folder. *)
Fixpoint parse_documents (doc_files : list string)
    (medical_records : list MedicalRecord) : M E (list MedicalRecord) :=
  match doc_files with
  | [] => ret medical_records
  | doc_file :: rest =>
      r <- try (extern (parse_document doc_file)) ;;
      match r with
      | inl record => parse_documents rest (medical_records ++ [record])%list
      | inr e =>
          ErrorHandler.handle_error e DOCUMENT_PARSING MEDIUM "MainController"
            "process_document"
            (Some [("filename", PStr (Str.basename doc_file))]) 0 0 ;;;
          parse_documents rest medical_records
      end
  end.

(** Both branches of [if medical_records] write the file
    [<date>_output.csv] (the rows after the header, or the header alone)
    and return the records and the path. *)
Definition _process_documents_and_generate_csv (date_folder : string)
  : M E (list MedicalRecord * string) :=
  emit EvProcess ;;;
  r <- try (
    doc_files <- extern (list_document_files date_folder) ;;
    medical_records <- parse_documents doc_files [] ;;
    let csv_filename :=
      Str.remove_dashes (Str.basename date_folder) +:+ "_output.csv" in
    let csv_path := date_folder +:+ "/" +:+ csv_filename in
    extern (write_csv csv_path medical_records) ;;;
    ret (medical_records, csv_path)) ;;
  match r with
  | inl res => ret res
  | inr e =>
      ErrorHandler.handle_error e FILE_PROCESSING HIGH "MainController"
        "process_documents_and_generate_csv" None 0 0 ;;;
      raise e
  end.

Fixpoint _get_upload_status (action_results : list ActionResult) : string :=
  match action_results with
  | [] => "UNKNOWN"
  | result :: rest =>
      if String.eqb (action_name result) "upload_csv"
      then if success result then "SUCCESS"
           else "FAILED: " +:+ Str.of_option (ar_error_message result)
      else _get_upload_status rest
  end.

Fixpoint _get_email_status (action_results : list ActionResult) : bool :=
  match action_results with
  | [] => false
  | result :: rest =>
      if String.eqb (action_name result) "send_email"
      then success result
      else _get_email_status rest
  end.

(** [logs] is [date_folder.glob("processing_log_*.txt")] at the call. *)
Fixpoint log_filename_among (action_results : list ActionResult)
    (logs : list string) : string :=
  match action_results with
  | [] => ""
  | result :: rest =>
      if String.eqb (action_name result) "create_log" && success result
      then match logs with
           | file :: _ => file
           | [] => log_filename_among rest logs
           end
      else log_filename_among rest logs
  end.

Definition _get_log_filename (action_results : list ActionResult)
    (date_folder : string) : M E string :=
  gets (fun w =>
    log_filename_among action_results
      (glob_processing_logs date_folder (env w))).

(** The two actions of the first wave.  [stats] is a reference: the closure
    reads the object when it runs. *)
Definition initial_actions (date_folder csv_path : string) (stats : nat)
  : list (ActionDict E) :=
  [ mkAction (Some "upload_csv")
      (Some (upload_csv_action csv_path (dest_remote_path self)));
    mkAction (Some "create_log")
      (Some (s <- load stats ;; create_log_action date_folder s)) ].

(** The action of the second wave. *)
Definition email_action (stats : nat) : ActionDict E :=
  mkAction (Some "send_email")
    (Some (s <- load stats ;; send_email_action s)).

(** The two schedules are the completion orders of the two pools. *)
Definition _execute_parallel_actions (sched1 sched2 : list nat)
    (date_folder csv_path : string) (stats : nat) : M E (list ActionResult) :=
  initial_results <- execute_parallel sched1
                       (initial_actions date_folder csv_path stats) ;;
  update stats (set_upload_status (_get_upload_status initial_results)) ;;;
  log_name <- _get_log_filename initial_results date_folder ;;
  update stats (set_log_filename log_name) ;;;
  email_result <- execute_parallel sched2 [email_action stats] ;;
  let results := initial_results ++ email_result in
  ret results.

Definition _build_processing_stats (date_folder : string) (start_time : Z)
    (scan_results : ScanResults) (download_results : list DownloadResult)
    (medical_records : list MedicalRecord) (csv_path : string)
  : M E ProcessingStats :=
  let type_folders_scanned :=
    map (fun '(folder, files) => (folder, Z.of_nat (length files)))
      scan_results in
  csv_size <- gets (fun w => csv_size_on_disk csv_path (env w)) ;;
  let errors :=
    flat_map
      (fun download =>
         match dr_success download, dr_error_message download with
         | false, Some msg =>
             if String.eqb msg "" then []
             else ["Download failed: " +:+ dr_type_folder download +:+ "/"
                     +:+ dr_filename download +:+ " - " +:+ msg]
         | _, _ => []
         end)
      download_results in
  t <- gets (fun w => now (env w)) ;;
  ret (mkProcessingStats (Str.basename date_folder) start_time t
         type_folders_scanned download_results
         (Z.of_nat (length download_results))
         (Z.of_nat (length medical_records))
         (Str.basename csv_path) csv_size "Pending" "" false errors).

Definition _build_empty_stats (date_folder : string) (start_time : Z)
  : M E ProcessingStats :=
  t <- gets (fun w => now (env w)) ;;
  ret (mkProcessingStats (Str.basename date_folder) start_time t
         [] [] 0 0 "" 0 "N/A - No files" "" false []).

Definition _backup_date_folder (date_folder : string) : M E unit :=
  emit EvBackup ;;;
  r <- try (extern (copy_to_backup date_folder)) ;;
  match r with
  | inl _ => ret tt
  | inr e =>
      ErrorHandler.handle_error e SYSTEM_RESOURCE LOW "MainController"
        "backup_date_folder" (Some [("date_folder", PStr date_folder)]) 0 0 ;;;
      ret tt
  end.

(** [(a - b).total_seconds()] *)
Definition total_seconds (a b : Z) : Q := (a - b) # 1000000.

(** The body of the [try] of [run_processing_cycle]. *)
Definition cycle_body (sched1 sched2 : list nat) (cycle_start_time : Z)
  : M E ProcessingStats :=
  date_folder <- _create_date_folder ;;
  scan_results <- _scan_type_folders ;;
  if total_files scan_results =? 0
  then _build_empty_stats date_folder cycle_start_time
  else
    download_results <- _download_files_to_date_folder scan_results date_folder ;;
    let successful_downloads :=
      length (List.filter dr_success download_results) in
    if (successful_downloads =? 0)%nat
    then _build_empty_stats date_folder cycle_start_time
    else
      processed <- _process_documents_and_generate_csv date_folder ;;
      let '(medical_records, csv_path) := processed in
      built <- _build_processing_stats date_folder cycle_start_time
                 scan_results download_results medical_records csv_path ;;
      stats <- alloc built ;;
      action_results <- _execute_parallel_actions sched1 sched2 date_folder
                          csv_path stats ;;
      update stats (set_upload_status (_get_upload_status action_results)) ;;;
      update stats (set_email_sent (_get_email_status action_results)) ;;;
      log_name <- _get_log_filename action_results date_folder ;;
      update stats (set_log_filename log_name) ;;;
      t <- gets (fun w => now (env w)) ;;
      update stats (set_end_time t) ;;;
      _backup_date_folder date_folder ;;;
      load stats.

Definition run_processing_cycle (sched1 sched2 : list nat)
  : M E ProcessingStats :=
  cycle_start_time <- gets (fun w => now (env w)) ;;
  r <- try (cycle_body sched1 sched2 cycle_start_time) ;;
  match r with
  | inl stats => ret stats
  | inr e =>
      t <- gets (fun w => now (env w)) ;;
      ErrorHandler.handle_error e SYSTEM_RESOURCE CRITICAL "MainController"
        "run_processing_cycle"
        (Some [("cycle_duration", PNum (total_seconds t cycle_start_time))])
        0 0 ;;;
      try (extern (send_failure_notification "WebScribe Processing Cycle"
                     ("Critical error: " +:+ exn_msg e))) ;;;
      raise (mkExn "ProcessingError" ("Processing cycle failed: " +:+ exn_msg e))
  end.

End Defs.
End MainController.

(** ** scheduler/job_scheduler.py *)

Module Scheduler.
Section Defs.
Context {E : Type} `{Runtime E} `{Collaborators E}.

(** The truth value of an optional string: [None] and [''] are false. *)
Definition truthy (s : option string) : bool :=
  match s with
  | Some (String _ _) => true
  | _ => false
  end.

(** The result is [None] also when the computation of the instant raises. *)
Definition get_next_run_time (config : ScheduleConfig) (e : E) : option Z :=
  if truthy (poll_cron config)
  then
    match pytz_timezone (timezone config) with
    | inl tz =>
        let now_tz := now e in
        match croniter_get_next (default "" (poll_cron config)) tz now_tz with
        | inl next_run => Some next_run
        | inr _ => None
        end
    | inr _ => None
    end
  else None.

End Defs.
End Scheduler.

(** ** A small concrete runtime

    The environment is a clock that counts seconds; every call to the
    generator gives one half. *)

Module Demo.

(** A stored line is the instant of its record, in binary; a line that
    starts with [#] is not JSON, and decoding one that starts with [!]
    raises [TypeError]. *)
Definition demo_dumps (c : ErrorContext) : string :=
  BinaryString.of_Z (timestamp c).

Definition demo_decode (line : string) : LineDecode :=
  match line with
  | EmptyString => Malformed
  | String "#" _ => Malformed
  | String "!" rest => DecodeRaises (mkExn "TypeError" rest)
  | _ => Decoded (BinaryString.to_Z line)
  end.

Lemma demo_random_range (e : Z) :
  (0 <= fst ((1 # 2)%Q, e))%Q /\ (fst ((1 # 2)%Q, e) < 1)%Q.
Proof. split; [discriminate | reflexivity]. Qed.

Lemma demo_decode_dumps (c : ErrorContext) :
  demo_decode (demo_dumps c) = Decoded (timestamp c).
Proof.
  unfold demo_dumps. rewrite <- (BinaryString.Z_of_of_Z (timestamp c)) at 2.
  destruct (timestamp c); reflexivity.
Qed.

#[global] Instance demo_runtime : Runtime Z := {|
  now := fun e => e * 1000000;
  time := fun e => inject_Z e;
  sleep := fun d e => e + 1;
  random := fun e => (1 # 2, e);
  random_range := demo_random_range;
  format_exc := fun e => "Traceback: " +:+ exn_type e;
  json_dumps := demo_dumps;
  decode_line := demo_decode;
  decode_json_dumps := demo_decode_dumps
|}.

(** Every transfer works, the source folders are empty. *)
#[global] Instance demo_collaborators : Collaborators Z := {|
  create_date_folder := fun e => (inl "/data/2025-11-24", e);
  organize_by_type := fun d t e => (inl (d +:+ "/" +:+ t), e);
  connect_ftps := fun e => (inl tt, e);
  disconnect_ftps := fun e => e;
  list_files_in_folder := fun p e => (inl [], e);
  download_file := fun r l e => (inl tt, e);
  list_document_files := fun d e => (inl [], e);
  parse_document := fun p e => (inr (mkExn "IOError" "unreadable"), e);
  write_csv := fun p rs e => (inl tt, e);
  csv_size_on_disk := fun p e => 0;
  upload_file := fun l r e => (inl tt, e);
  create_log := fun d s e => (inl (d +:+ "/processing_log_1.txt"), e + 1);
  send_webscribe_notification := fun s e => (inl tt, e);
  send_failure_notification := fun z m e => (inl tt, e);
  glob_processing_logs := fun d e => if e =? 0 then [] else ["processing_log_1.txt"];
  copy_to_backup := fun d e => (inl tt, e);
  parse_folder_date := fun s => None;
  date_of := fun t => t / 86400000000;
  pytz_timezone := fun n => inl n;
  croniter_get_next := fun c tz t => inl (t + 60000000)
|}.

Definition demo_handler : ErrorHandler :=
  mkErrorHandler "data/errors" RetentionConfig_default [] ∅ ∅.

Definition demo_world (e : Z) : World Z :=
  mkWorld e ∅ demo_handler [].

End Demo.

(** ** utils/error_handler.py: the statistics of the recorded errors *)

(** A [dict] from names to counts, in insertion order. *)
Definition Counter : Type := list (string * Z).

(** [d[k] = d.get(k, 0) + 1] *)
Fixpoint count_up (k : string) (d : Counter) : Counter :=
  match d with
  | [] => [(k, 1)]
  | (k', n) :: d' =>
      if String.eqb k k' then (k', n + 1) :: d' else (k', n) :: count_up k d'
  end.

(** [d.get(k, 0)] *)
Fixpoint count_of (k : string) (d : Counter) : Z :=
  match d with
  | [] => 0
  | (k', n) :: d' => if String.eqb k k' then n else count_of k d'
  end.

(** [sum(d.values())] *)
Definition sum_values (d : Counter) : Z :=
  fold_right (fun '(_, n) total => n + total) 0 d.

(** One step of [sorted(items, key=lambda x: x[1], reverse=True)]: the
    sort is stable, so an item goes before the first item that does not
    have a larger count. *)
Fixpoint insert_by_count (x : string * Z) (l : Counter) : Counter :=
  match l with
  | [] => [x]
  | y :: l' => if snd x <? snd y then y :: insert_by_count x l' else x :: l
  end.

Definition sorted_by_count (d : Counter) : Counter :=
  fold_right insert_by_count [] d.

Module ErrorReport.
Section Defs.
Context {E : Type} `{Runtime E}.

(** [severity.value] *)
Definition severity_value (s : ErrorSeverity) : string :=
  match s with
  | CRITICAL => "critical"
  | HIGH => "high"
  | MEDIUM => "medium"
  | LOW => "low"
  end.

(** An entry of ["recent_critical_errors"]; the text of
    [timestamp.isoformat()] is kept as the instant it writes. *)
Record CriticalError := mkCriticalError {
  ce_timestamp : Z;
  ce_component : string;
  ce_operation : string;
  ce_message : string
}.

(** The dictionary that [get_error_statistics] returns. *)
Record Statistics := mkStatistics {
  total_errors : Z;
  time_period_hours : Z;
  errors_by_category : Counter;
  errors_by_severity : Counter;
  errors_by_component : Counter;
  most_frequent_errors : Counter;
  recent_critical_errors : list CriticalError
}.

(** [timedelta(hours=h)] in microseconds; the whole days of a
    [timedelta] have a magnitude of at most 999999999. *)
Definition timedelta_hours (h : Z) : Z + Exn :=
  if (-999999999 <=? h / 24) && (h / 24 <=? 999999999)
  then inl (h * 3600000000)
  else inr (mkExn "OverflowError"
              ("days=" +:+ NilZero.string_of_int (Z.to_int (h / 24))
               +:+ "; must have magnitude <= 999999999")).

(** [t - timedelta(hours=h)], with [t] the value of [datetime.now()]. *)
Definition hours_before (t h : Z) : Z + Exn :=
  match timedelta_hours h with
  | inl delta => ErrorHandler.datetime_sub t delta
  | inr e => inr e
  end.

(** [e for e in self.error_history if e.timestamp >= cutoff_time] *)
Definition recent_errors_of (cutoff_time : Z) (history : list ErrorContext)
  : list ErrorContext :=
  filter (fun e => cutoff_time <= timestamp e) history.

(** The body of the first [for error in recent_errors] loop. *)
Definition tally (stats : Statistics) (error : ErrorContext) : Statistics :=
  mkStatistics (total_errors stats) (time_period_hours stats)
    (count_up (category_value (category error)) (errors_by_category stats))
    (count_up (severity_value (severity error)) (errors_by_severity stats))
    (count_up (component error) (errors_by_component stats))
    (most_frequent_errors stats)
    (if bool_decide (severity error = CRITICAL)
     then recent_critical_errors stats
            ++ [mkCriticalError (timestamp error) (component error)
                  (operation error) (error_message error)]
     else recent_critical_errors stats).

(** The key of the second loop: [f"{category.value}:{exception_type}"]. *)
Definition error_key (error : ErrorContext) : string :=
  category_value (category error) +:+ ":" +:+ exception_type error.

(** The function has no [try]: an [OverflowError] of the computation of
    the cutoff goes to the caller. *)
Definition get_error_statistics (hours : Z) : M E Statistics :=
  cutoff_time <- (fun w =>
                    mkOutcome (hours_before (now (env w)) hours) w []) ;;
  gets (fun w =>
    let recent_errors := recent_errors_of cutoff_time (error_history (handler w)) in
    let stats :=
      mkStatistics (Z.of_nat (length recent_errors)) hours [] [] [] [] [] in
    let stats := fold_left tally recent_errors stats in
    let error_type_counts :=
      fold_left (fun d error => count_up (error_key error) d) recent_errors [] in
    mkStatistics (total_errors stats) (time_period_hours stats)
      (errors_by_category stats) (errors_by_severity stats)
      (errors_by_component stats)
      (take 10 (sorted_by_count error_type_counts))
      (recent_critical_errors stats)).

End Defs.
End ErrorReport.

(** ** utils/parallel_action_executor.py: the summary of the results *)

Module ExecutionSummary.

(** The dictionary that [get_execution_summary] returns. *)
Record Summary := mkSummary {
  total_actions : Z;
  successful : Z;
  failed : Z;
  success_rate : Q;
  total_duration : Q;
  average_duration : Q;
  (** the key ['actions'] is absent from the summary of an empty list *)
  actions : option (list (string * bool))
}.

(** [sum(r.duration for r in results)] *)
Definition sum_durations (results : list ActionResult) : Q :=
  fold_left (fun total r => (total + duration r)%Q) results 0%Q.

Definition get_execution_summary (results : list ActionResult) : Summary :=
  match results with
  | [] => mkSummary 0 0 0 0 0 0 None
  | _ =>
      let successful := Z.of_nat (length (List.filter success results)) in
      let failed := Z.of_nat (length results) - successful in
      let total_duration := sum_durations results in
      let average_duration :=
        (total_duration / inject_Z (Z.of_nat (length results)))%Q in
      let success_rate :=
        (inject_Z successful / inject_Z (Z.of_nat (length results)) * 100)%Q in
      mkSummary (Z.of_nat (length results)) successful failed success_rate
        total_duration average_duration
        (Some (fold_left (fun d r => dict_set (action_name r) (success r) d)
                 results []))
  end.

Definition all_actions_successful (results : list ActionResult) : bool :=
  forallb success results.

Definition get_failed_actions (results : list ActionResult) : list ActionResult :=
  List.filter (fun r => negb (success r)) results.

Definition get_successful_actions (results : list ActionResult)
  : list ActionResult :=
  List.filter success results.

End ExecutionSummary.

(** ** utils/type_folder_scanner.py: the reports on a scan *)

Module ScanReport.

Definition get_all_files (scan_results : ScanResults)
  : list (string * FileInfo) :=
  fold_left
    (fun all_files '(type_folder, files) =>
       fold_left
         (fun all_files file_info => all_files ++ [(type_folder, file_info)])
         files all_files)
    scan_results [].

(** The dictionary that [get_scan_statistics] returns. *)
Record ScanStatistics := mkScanStatistics {
  total_folders_scanned : Z;
  total_files_found : Z;
  folders_with_files : Z;
  empty_folders : Z;
  total_size_bytes : Z;
  total_size_mb : Q;
  folder_with_most_files : option string;
  max_files_in_folder : Z;
  files_per_folder : list (string * Z)
}.

(** Rounding to the nearest integer, a half going to the even one. *)
Definition round_half_even (q : Q) : Z :=
  let f := Qfloor q in
  match ((q - inject_Z f) ?= (1 # 2))%Q with
  | Lt => f
  | Gt => f + 1
  | Eq => if Z.even f then f else f + 1
  end.

(** [round(x, 2)] *)
Definition round2 (q : Q) : Q := Qmake (round_half_even (q * 100)) 100.

(** The loop that looks for the folder with the most files. *)
Definition most_files (scan_results : ScanResults) : option string * Z :=
  fold_left
    (fun '(max_files_folder, max_files_count) '(folder, files) =>
       if max_files_count <? Z.of_nat (length files)
       then (Some folder, Z.of_nat (length files))
       else (max_files_folder, max_files_count))
    scan_results (None, 0).

Definition get_scan_statistics (scan_results : ScanResults) : ScanStatistics :=
  let total_files :=
    fold_right (fun '(_, files) n => Z.of_nat (length files) + n) 0 scan_results in
  let folders_with_files :=
    Z.of_nat (length (List.filter (fun '(_, files) => (0 <? length files)%nat)
                        scan_results)) in
  let empty_folders := Z.of_nat (length scan_results) - folders_with_files in
  let total_size :=
    fold_left
      (fun total_size '(_, files) =>
         fold_left (fun total_size file_info => total_size + fi_size file_info)
           files total_size)
      scan_results 0 in
  let '(max_files_folder, max_files_count) := most_files scan_results in
  mkScanStatistics (Z.of_nat (length scan_results)) total_files
    folders_with_files empty_folders total_size
    (round2 (inject_Z total_size / inject_Z (1024 * 1024)))
    max_files_folder max_files_count
    (map (fun '(folder, files) => (folder, Z.of_nat (length files))) scan_results).

(** The key under which [get_files_by_type] files a name. *)
Definition extension_group (filename : string) : string :=
  let filename := Str.lower filename in
  if Str.ends_with ".doc" filename then ".doc"
  else if Str.ends_with ".docx" filename then ".docx"
  else "other".

(** [if ext not in d: d[ext] = []], then [d[ext].append(item)] *)
Fixpoint group_append (ext : string) (item : string * FileInfo)
    (d : list (string * list (string * FileInfo)))
  : list (string * list (string * FileInfo)) :=
  match d with
  | [] => [(ext, [item])]
  | (k, items) :: d' =>
      if String.eqb ext k then (k, items ++ [item]) :: d'
      else (k, items) :: group_append ext item d'
  end.

Definition get_files_by_type (scan_results : ScanResults)
  : list (string * list (string * FileInfo)) :=
  fold_left
    (fun files_by_type '(type_folder, files) =>
       fold_left
         (fun files_by_type file_info =>
            group_append (extension_group (fi_filename file_info))
              (type_folder, file_info) files_by_type)
         files files_by_type)
    scan_results [].

(** [folder in scan_results] *)
Definition scanned (folder : string) (scan_results : ScanResults) : bool :=
  existsb (fun '(k, _) => String.eqb folder k) scan_results.

(** [self.type_folders] is the first argument. *)
Definition validate_scan_results (type_folders : list string)
    (scan_results : ScanResults) : bool :=
  if negb (length scan_results =? length type_folders)%nat then false
  else forallb (fun folder => scanned folder scan_results) type_folders.

End ScanReport.

(** ** config/settings.py *)

Module Text.

(** [str(n)] of an integer *)
Definition of_Z (n : Z) : string := NilZero.string_of_int (Z.to_int n).

(** [c.isspace()] for an ASCII character *)
Definition is_space (c : ascii) : bool :=
  let n := nat_of_ascii c in
  ((9 <=? n) && (n <=? 13) || (28 <=? n) && (n <=? 32))%nat.

(** [s.lstrip()] *)
Fixpoint lstrip (s : string) : string :=
  match s with
  | EmptyString => EmptyString
  | String c s' => if is_space c then lstrip s' else s
  end.

(** [s.rstrip()] *)
Fixpoint rstrip (s : string) : string :=
  match s with
  | EmptyString => EmptyString
  | String c s' =>
      match rstrip s' with
      | EmptyString => if is_space c then EmptyString else String c EmptyString
      | rest => String c rest
      end
  end.

(** [s.strip()] *)
Definition strip (s : string) : string := rstrip (lstrip s).

(** [s.split(sep)] for a separator of one character; [piece] is the part
    read since the last separator. *)
Fixpoint split_from (sep : ascii) (s piece : string) : list string :=
  match s with
  | EmptyString => [piece]
  | String c s' =>
      if Ascii.eqb c sep then piece :: split_from sep s' EmptyString
      else split_from sep s' (piece +:+ String c EmptyString)
  end.

Definition split (sep : ascii) (s : string) : list string :=
  split_from sep s EmptyString.

(** The truth value of a string. *)
Definition nonempty (s : string) : bool :=
  match s with
  | EmptyString => false
  | String _ _ => true
  end.

End Text.

Module ConfigManager.

(** [self._config], as [_load_config] builds it: a variable read with
    [os.getenv(name)] is [None] when it is not set, one read with a default
    is a string, and the numbers went through [int]. *)
Record Config := mkConfig {
  SOURCE_FTPS_HOST : option string;
  SOURCE_FTPS_PORT : Z;
  SOURCE_FTPS_USERNAME : option string;
  SOURCE_FTPS_PASSWORD : option string;
  SOURCE_FTPS_PATH : string;
  SOURCE_FTPS_USE_TLS : bool;
  SOURCE_FTPS_PASSIVE_MODE : bool;
  DEST_SFTP_HOST : option string;
  DEST_SFTP_PORT : Z;
  DEST_SFTP_USERNAME : option string;
  DEST_SFTP_PASSWORD : option string;
  DEST_SFTP_PATH : string;
  SMTP_HOST : option string;
  SMTP_PORT : Z;
  SMTP_USERNAME : option string;
  SMTP_PASSWORD : option string;
  SMTP_FROM : option string;
  ADMIN_EMAIL : option string;
  POLL_INTERVAL_SECONDS : Z;
  POLL_CRON : option string;
  TZ : string;
  LOCAL_STORAGE_PATH : string;
  TEMP_PATH : string;
  ZIP_BACKUP_PATH : string;
  CSV_RETENTION_DAYS : Z;
  LOG_RETENTION_DAYS : Z;
  ERROR_LOG_RETENTION_DAYS : Z;
  PROCESSING_RECORDS_RETENTION_DAYS : Z;
  ZIP_BACKUP_RETENTION_DAYS : Z;
  TYPE_FOLDERS : string;
  USE_YESTERDAY_DATE : bool;
  DATE_FOLDER_BASE_PATH : string
}.

Definition ConfigurationError (msg : string) : Exn :=
  mkExn "ConfigurationError" msg.

(** The names of [required_fields], each with [self._config.get(name)]. *)
Definition required_fields : list (string * (Config -> option string)) :=
  [ ("SOURCE_FTPS_HOST", SOURCE_FTPS_HOST);
    ("SOURCE_FTPS_USERNAME", SOURCE_FTPS_USERNAME);
    ("SOURCE_FTPS_PASSWORD", SOURCE_FTPS_PASSWORD);
    ("DEST_SFTP_HOST", DEST_SFTP_HOST);
    ("DEST_SFTP_USERNAME", DEST_SFTP_USERNAME);
    ("DEST_SFTP_PASSWORD", DEST_SFTP_PASSWORD);
    ("SMTP_HOST", SMTP_HOST);
    ("SMTP_USERNAME", SMTP_USERNAME);
    ("SMTP_PASSWORD", SMTP_PASSWORD);
    ("ADMIN_EMAIL", ADMIN_EMAIL) ].

(** [1 <= port <= 65535] *)
Definition port_in_range (port : Z) : bool := (1 <=? port) && (port <=? 65535).

Definition _validate_required_config (c : Config) : unit + Exn :=
  let missing_fields :=
    map fst
      (List.filter (fun field => negb (Scheduler.truthy (snd field c)))
         required_fields) in
  match missing_fields with
  | _ :: _ =>
      inr (ConfigurationError
             ("Missing required environment variables: "
              +:+ String.concat ", " missing_fields))
  | [] =>
      if negb (port_in_range (SOURCE_FTPS_PORT c))
      then inr (ConfigurationError "SOURCE_FTPS_PORT must be between 1 and 65535")
      else if negb (port_in_range (DEST_SFTP_PORT c))
      then inr (ConfigurationError "DEST_SFTP_PORT must be between 1 and 65535")
      else if negb (port_in_range (SMTP_PORT c))
      then inr (ConfigurationError "SMTP_PORT must be between 1 and 65535")
      else if POLL_INTERVAL_SECONDS c <? 1
      then inr (ConfigurationError "POLL_INTERVAL_SECONDS must be at least 1")
      else inl tt
  end.

Definition get_schedule_config (c : Config) : ScheduleConfig :=
  mkScheduleConfig (POLL_INTERVAL_SECONDS c) (POLL_CRON c) (TZ c).

Definition get_retention_config (c : Config) : RetentionConfig :=
  mkRetentionConfig (CSV_RETENTION_DAYS c) (LOG_RETENTION_DAYS c)
    (ERROR_LOG_RETENTION_DAYS c) (PROCESSING_RECORDS_RETENTION_DAYS c)
    (ZIP_BACKUP_RETENTION_DAYS c).

(** [TypeFolderConfig] *)
Record TypeFolderConfig := mkTypeFolderConfig {
  folders : list string;
  base_path : string
}.

(** [[f.strip() for f in s.split(',') if f.strip()]] *)
Definition stripped_pieces (s : string) : list string :=
  map Text.strip
    (List.filter (fun f => Text.nonempty (Text.strip f)) (Text.split "," s)).

Definition get_type_folder_config (c : Config) : TypeFolderConfig :=
  let type_folders_str := TYPE_FOLDERS c in
  let folders := stripped_pieces type_folders_str in
  mkTypeFolderConfig folders (SOURCE_FTPS_PATH c).

(** [EmailConfig] *)
Record EmailConfig := mkEmailConfig {
  smtp_host : option string;
  smtp_port : Z;
  smtp_username : option string;
  smtp_password : option string;
  admin_email : string;
  admin_emails : option (list string);
  smtp_from : option string
}.

(** [',' in admin_email] raises [TypeError] when the variable is not set;
    [self._config.get('SMTP_FROM', ...)] finds the key, whatever its value. *)
Definition get_email_config (c : Config) : EmailConfig + Exn :=
  match ADMIN_EMAIL c with
  | None => inr (mkExn "TypeError" "argument of type 'NoneType' is not iterable")
  | Some admin_email =>
      let '(admin_email, admin_emails) :=
        if Str.str_in "," admin_email
        then
          let admin_emails := stripped_pieces admin_email in
          (match admin_emails with
           | first :: _ => first
           | [] => admin_email
           end, Some admin_emails)
        else (admin_email, None) in
      inl (mkEmailConfig (SMTP_HOST c) (SMTP_PORT c) (SMTP_USERNAME c)
             (SMTP_PASSWORD c) admin_email admin_emails (SMTP_FROM c))
  end.

End ConfigManager.

(** ** scheduler/job_scheduler.py: the validation of the configuration *)

(** What [croniter(expr)] followed by [get_next(datetime)] does: it
    returns, raises [ValueError] or [TypeError] (or one of their
    subclasses), or raises something else. *)
Inductive CronCheck :=
| CronValid
| CronInvalid (e : Exn)
| CronRaises (e : Exn).

(** What [pytz.timezone(name)] does: it returns, raises
    [UnknownTimeZoneError], or raises something else. *)
Inductive ZoneCheck :=
| ZoneKnown
| ZoneUnknown (e : Exn)
| ZoneRaises (e : Exn).

Module SchedulerInit.
Section Defs.
Variable croniter_check : string -> CronCheck.
Variable timezone_check : string -> ZoneCheck.

Definition _validate_config (config : ScheduleConfig) : unit + Exn :=
  if Scheduler.truthy (poll_cron config)
  then
    let expr := default "" (poll_cron config) in
    match croniter_check expr with
    | CronInvalid e =>
        inr (mkExn "ValueError"
               ("Invalid cron expression '" +:+ expr +:+ "': " +:+ exn_msg e))
    | CronRaises e => inr e
    | CronValid =>
        match timezone_check (timezone config) with
        | ZoneUnknown e =>
            inr (mkExn "ValueError"
                   ("Invalid timezone '" +:+ timezone config +:+ "': "
                    +:+ exn_msg e))
        | ZoneRaises e => inr e
        | ZoneKnown => inl tt
        end
    end
  else
    if poll_interval_seconds config <=? 0
    then inr (mkExn "ValueError"
                ("Poll interval must be positive, got: "
                 +:+ Text.of_Z (poll_interval_seconds config)))
    else inl tt.

End Defs.
End SchedulerInit.

(** * Properties *)

(** ** Computations *)

Section ComputationFacts.
Context {E : Type}.

Lemma bind_inl {A B} (m : M E A) (k : A -> M E B) (w w' : World E) (a : A)
    (evs : list Event) :
  m w = mkOutcome (inl a) w' evs ->
  bind m k w
  = mkOutcome (value (k a w')) (world (k a w')) (evs ++ events (k a w')).
Proof. intros Hm. unfold bind. now rewrite Hm. Qed.

Lemma bind_inr {A B} (m : M E A) (k : A -> M E B) (w w' : World E) (e : Exn)
    (evs : list Event) :
  m w = mkOutcome (inr e) w' evs ->
  bind m k w = mkOutcome (inr e) w' evs.
Proof. intros Hm. unfold bind. now rewrite Hm. Qed.

Lemma try_run {A} (m : M E A) (w : World E) :
  try m w = mkOutcome (inl (value (m w))) (world (m w)) (events (m w)).
Proof. reflexivity. Qed.

Lemma events_bind {A B} (m : M E A) (k : A -> M E B) (w : World E) :
  events (bind m k w)
  = events (m w) ++ match value (m w) with
                    | inl a => events (k a (world (m w)))
                    | inr _ => []
                    end.
Proof.
  unfold bind. destruct (value (m w)); cbn [events];
    [reflexivity | now rewrite app_nil_r].
Qed.

(** A property of all the events of [m] and of all the events of what
    follows it holds of all the events of their sequence. *)
Lemma Forall_events_bind {A B} (P : Event -> Prop) (m : M E A) (k : A -> M E B)
    (w : World E) :
  Forall P (events (m w)) ->
  (forall a, value (m w) = inl a -> Forall P (events (k a (world (m w))))) ->
  Forall P (events (bind m k w)).
Proof.
  intros Hm Hk. rewrite events_bind. apply Forall_app. split; [exact Hm |].
  destruct (value (m w)) as [a | e]; [now apply Hk | constructor].
Qed.

Lemma Forall_events_extern {A} (P : Event -> Prop) (f : E -> (A + Exn) * E)
    (w : World E) :
  Forall P (events (extern f w)).
Proof. unfold extern. destruct (f (env w)). constructor. Qed.

Lemma outcome_eta {A} (o : Outcome E A) :
  o = mkOutcome (value o) (world o) (events o).
Proof. now destruct o. Qed.

End ComputationFacts.

(** ** Strings *)

Section StringFacts.

Lemma prefix_app (p s : string) :
  String.prefix p s = true <-> exists post, s = p +:+ post.
Proof.
  revert s. induction p as [|c p IH]; intros s.
  - destruct s; simpl; (split; [intros _; eexists; reflexivity | reflexivity]).
  - destruct s as [|c' s]; simpl.
    + split; [discriminate | intros [post Hp]; discriminate].
    + destruct (ascii_dec c c') as [->|Hne].
      * rewrite IH. split; intros [post Hp]; exists post.
        -- now rewrite Hp.
        -- now inversion Hp.
      * split; [discriminate | intros [post Hp]; inversion Hp; congruence].
Qed.

(** [str_in] decides the occurrence of a substring. *)
Lemma str_in_spec (p s : string) :
  Str.str_in p s = true <-> exists pre post, s = pre +:+ p +:+ post.
Proof.
  induction s as [|c s IH]; cbn [Str.str_in].
  - rewrite orb_false_r, prefix_app. split.
    + intros [post Hp]. exists EmptyString, post. exact Hp.
    + intros (pre & post & Hp). destruct pre; simpl in Hp.
      * exists post. exact Hp.
      * discriminate.
  - rewrite orb_true_iff, prefix_app, IH. split.
    + intros [[post Hp] | (pre & post & Hp)].
      * exists EmptyString, post. exact Hp.
      * exists (String c pre), post. simpl. now rewrite Hp.
    + intros (pre & post & Hp). destruct pre as [|c' pre]; simpl in Hp.
      * left. exists post. exact Hp.
      * right. exists pre, post. now inversion Hp.
Qed.

Lemma mem_In (x : string) (l : list string) :
  Str.mem x l = true <-> In x l.
Proof.
  unfold Str.mem. rewrite existsb_exists. split.
  - intros (y & Hy & Heq). apply String.eqb_eq in Heq. now subst.
  - intros Hin. exists x. split; [exact Hin | apply String.eqb_refl].
Qed.

End StringFacts.

(** ** Error records *)

Section HandleError.
Context {E : Type} `{Runtime E}.

(** The record that [handle_error] builds, and the only event it emits. *)
Lemma handle_error_run (error : Exn) (cat : ErrorCategory) (sev : ErrorSeverity)
    (comp oper : string) (data : option (list (string * PyVal)))
    (rc mr : Z) (w : World E) :
  exists ctx w',
    ErrorHandler.handle_error error cat sev comp oper data rc mr w
      = mkOutcome (inl ctx) w' [EvHandled ctx]
    /\ retry_count ctx = rc /\ max_retries ctx = mr
    /\ exception_type ctx = exn_type error
    /\ error_message ctx = exn_msg error
    /\ is_recoverable ctx = ErrorHandler._is_recoverable_error error cat
    /\ env w' = env w /\ heap w' = heap w.
Proof.
  eexists. eexists. split; [reflexivity |].
  cbn [retry_count max_retries exception_type error_message is_recoverable].
  repeat split; reflexivity.
Qed.

(** An event recorded by [handle_error]. *)
Definition is_handled (ev : Event) : Prop := exists ctx, ev = EvHandled ctx.

Lemma handle_error_handled (error : Exn) (cat : ErrorCategory)
    (sev : ErrorSeverity) (comp oper : string)
    (data : option (list (string * PyVal))) (rc mr : Z) (w : World E) :
  Forall is_handled
    (events (ErrorHandler.handle_error error cat sev comp oper data rc mr w)).
Proof.
  destruct (handle_error_run error cat sev comp oper data rc mr w)
    as (ctx & w' & -> & _).
  constructor; [eexists; reflexivity | constructor].
Qed.

End HandleError.

(** ** Recoverability and the retry delay *)

Section Recoverability.
Context {E : Type} `{Runtime E}.

(** [p] occurs in [s]. *)
Definition occurs_in (p s : string) : Prop :=
  exists pre post, s = pre +:+ p +:+ post.


Example recoverable_timeout :
  ErrorHandler._is_recoverable_error
    (mkExn "TimeoutError" "Connection timed out") SFTP_CONNECTION = true.
Proof. reflexivity. Qed.

Example not_recoverable_message :
  ErrorHandler._is_recoverable_error
    (mkExn "SFTPError" "Server said: Permission DENIED for user")
    SFTP_CONNECTION = false.
Proof. reflexivity. Qed.

Example not_recoverable_kind :
  ErrorHandler._is_recoverable_error
    (mkExn "FileNotFoundError" "no such file") FILE_PROCESSING = false.
Proof. reflexivity. Qed.

End Recoverability.

Section RetryDelay.
Context {E : Type} `{Runtime E}.

Lemma jitter_factor_range (r : Q) :
  (0 <= r)%Q -> (r < 1)%Q ->
  ((1 # 2) <= (1 # 2) + r * (1 # 2))%Q /\ ((1 # 2) + r * (1 # 2) <= 1)%Q.
Proof. intros H0 H1. split; lra. Qed.

(** The delay that [_calculate_retry_delay] returns for attempt [k]. *)
Lemma backoff_then_jitter
    (k : nat) (config : RetryConfig) (w : World E) :
  exponential_backoff config = true ->
  let pre :=
    Qmin (base_delay config * inject_Z (2 ^ Z.of_nat k)) (max_delay config) in
  ErrorHandler.backoff_delay k config = pre
  /\ if jitter config
     then exists factor,
            ((1 # 2) <= factor)%Q /\ (factor <= 1)%Q
            /\ value (ErrorHandler._calculate_retry_delay k config w)
               = inl (pre * factor)%Q
     else value (ErrorHandler._calculate_retry_delay k config w) = inl pre.
Proof.
  intros Hexp pre.
  assert (Hpre : ErrorHandler.backoff_delay k config = pre).
  { unfold ErrorHandler.backoff_delay. now rewrite Hexp. }
  split; [exact Hpre |].
  unfold ErrorHandler._calculate_retry_delay. rewrite Hpre.
  destruct (jitter config); [| reflexivity].
  destruct (random_range (env w)) as [H0 H1].
  exists ((1 # 2) + fst (random (env w)) * (1 # 2))%Q.
  destruct (jitter_factor_range _ H0 H1) as [Hlo Hhi].
  split; [exact Hlo |]. split; [exact Hhi |].
  unfold bind, lift_env, ret. destruct (random (env w)); reflexivity.
Qed.

End RetryDelay.

Example delay_third_retry :
  value (ErrorHandler._calculate_retry_delay 3 (RetryConfig_with 5 2)
           (Demo.demo_world 0)) = inl (Qmin (2 * inject_Z 8) 60 * ((1 # 2) + (1 # 2) * (1 # 2)))%Q.
Proof. reflexivity. Qed.

Example delay_is_capped :
  (ErrorHandler.backoff_delay 6 (RetryConfig_with 5 2) == 60)%Q.
Proof. reflexivity. Qed.

(** ** The retry loop *)

Section RetryLoop.
Context {E : Type} `{Runtime E}.
Context {T : Type} (op : ErrorHandler.Op (E := E) T) (category : ErrorCategory)
  (component operation_name : string)
  (additional_data : option (list (string * PyVal))).

(** A policy whose delays are lengths of time. *)
Definition nonneg_delays (cfg : RetryConfig) : Prop :=
  (0 <= base_delay cfg)%Q /\ (0 <= max_delay cfg)%Q.

Lemma backoff_delay_nonneg (k : nat) (cfg : RetryConfig) :
  nonneg_delays cfg -> (0 <= ErrorHandler.backoff_delay k cfg)%Q.
Proof.
  intros [Hb Hm]. unfold ErrorHandler.backoff_delay.
  destruct (exponential_backoff cfg); [| exact Hb].
  apply Q.min_glb; [| exact Hm].
  apply Qmult_le_0_compat; [exact Hb |].
  unfold Qle; simpl. pose proof (Z.pow_nonneg 2 (Z.of_nat k)). lia.
Qed.

(** [d] is the delay of attempt [a] under the policy: the backoff delay,
    scaled by a factor between 1/2 and 1 when the policy has jitter. *)
Definition jittered (cfg : RetryConfig) (a : nat) (d : Q) : Prop :=
  if jitter cfg
  then exists factor,
         ((1 # 2) <= factor)%Q /\ (factor <= 1)%Q
         /\ d = (ErrorHandler.backoff_delay a cfg * factor)%Q
  else d = ErrorHandler.backoff_delay a cfg.

(** What precedes the call of the operation in attempt [a]. *)
Definition pre_sleep (cfg : RetryConfig) (a : nat) (pre : list Event) : Prop :=
  (a = O /\ pre = [])
  \/ ((0 < a)%nat /\ exists d, pre = [EvSleep d] /\ jittered cfg a d).

Lemma attempt_body_run (cfg : RetryConfig) (a : nat) (w : World E) :
  nonneg_delays cfg ->
  exists pre w1,
    pre_sleep cfg a pre
    /\ ErrorHandler.attempt_body op cfg a w
       = mkOutcome (fst (op w1)) (snd (op w1))
           (pre ++ [EvInvoke a (ErrorHandler.raised_of (fst (op w1)))]).
Proof.
  intros Hnn. unfold ErrorHandler.attempt_body. destruct a as [|a].
  - exists [], w. split; [left; split; reflexivity | reflexivity].
  - cbn [Nat.ltb Nat.leb].
    pose proof (backoff_delay_nonneg (S a) cfg Hnn) as Hd.
    unfold ErrorHandler._calculate_retry_delay.
    set (d := ErrorHandler.backoff_delay (S a) cfg) in *.
    destruct (jitter cfg) eqn:Hj.
    + destruct (random_range (env w)) as [H0 H1].
      unfold bind, lift_env, ret, ErrorHandler.time_sleep.
      destruct (random (env w)) as [r e'] eqn:Hr. cbn [fst] in H0, H1.
      cbn [value world events].
      set (d' := (d * ((1 # 2) + r * (1 # 2)))%Q).
      assert (Hd' : Qle_bool 0 d' = true).
      { apply Qle_bool_iff. apply Qmult_le_0_compat; [exact Hd | lra]. }
      rewrite Hd'. cbn [value world events].
      eexists [EvSleep d'], _. split.
      * right. split; [lia |]. exists d'. split; [reflexivity |].
        unfold jittered. rewrite Hj.
        exists ((1 # 2) + r * (1 # 2))%Q. repeat split; [lra | lra].
      * reflexivity.
    + assert (Hd' : Qle_bool 0 d = true) by (now apply Qle_bool_iff).
      eexists [EvSleep d], _. split.
      * right. split; [lia |]. exists d. split; [reflexivity |].
        unfold jittered. now rewrite Hj.
      * unfold bind, ret, ErrorHandler.time_sleep.
        cbn [value world events]. rewrite Hd'. reflexivity.
Qed.

(** The record [ctx] is the one built for the error [e] of attempt [a]. *)
Definition describes (cfg : RetryConfig) (ctx : ErrorContext) (e : Exn) (a : nat)
  : Prop :=
  retry_count ctx = Z.of_nat a
  /\ max_retries ctx = max_attempts cfg - 1
  /\ exception_type ctx = exn_type e
  /\ error_message ctx = exn_msg e
  /\ is_recoverable ctx = ErrorHandler._is_recoverable_error e category.

(** How the function ends when the loop is left with [last_error]. *)
Definition ending (last_error : option Exn) : option T + Exn :=
  match last_error with
  | Some e => inr e
  | None => inl None
  end.

(** The runs of the loop over the remaining attempts: the events and the
    way the function ends. *)
Inductive retry_run (cfg : RetryConfig)
  : list nat -> option Exn -> list Event -> option T + Exn -> Prop :=
| run_exhausted last_error :
    retry_run cfg [] last_error [] (ending last_error)
| run_success a rest last_error pre result :
    pre_sleep cfg a pre ->
    (exists w1, fst (op w1) = inl result) ->
    retry_run cfg (a :: rest) last_error
      (pre ++ [EvInvoke a None]) (inl (Some result))
| run_break a rest last_error pre e ctx :
    pre_sleep cfg a pre ->
    (exists w1, fst (op w1) = inr e) ->
    describes cfg ctx e a ->
    is_recoverable ctx = false ->
    retry_run cfg (a :: rest) last_error
      (pre ++ [EvInvoke a (Some e); EvHandled ctx]) (inr e)
| run_continue a rest last_error pre e ctx evs v :
    pre_sleep cfg a pre ->
    (exists w1, fst (op w1) = inr e) ->
    describes cfg ctx e a ->
    is_recoverable ctx = true ->
    retry_run cfg rest (Some e) evs v ->
    retry_run cfg (a :: rest) last_error
      (pre ++ EvInvoke a (Some e) :: EvHandled ctx :: evs) v.

Lemma retry_loop_run (cfg : RetryConfig) (attempts : list nat)
    (last_error : option Exn) (w : World E) :
  nonneg_delays cfg ->
  let o := ErrorHandler.retry_loop op category component operation_name
             additional_data cfg attempts last_error w in
  retry_run cfg attempts last_error (events o) (value o).
Proof.
  intros Hnn. revert last_error w.
  induction attempts as [|a rest IH]; intros last_error w.
  - destruct last_error as [e |];
      [exact (run_exhausted cfg (Some e)) | exact (run_exhausted cfg None)].
  - cbn zeta. cbn [ErrorHandler.retry_loop].
    destruct (attempt_body_run cfg a w Hnn) as (pre & w1 & Hpre & Hbody).
    erewrite bind_inl; [| rewrite try_run, Hbody; reflexivity].
    cbn [value world events].
    destruct (op w1) as [[result | e] w2] eqn:Hop;
      cbn [fst snd ErrorHandler.raised_of].
    + cbn [ret value events]. rewrite app_nil_r.
      apply run_success; [exact Hpre | exists w1; now rewrite Hop].
    + match goal with
      | |- context [ErrorHandler.handle_error e category ?sev component
                      operation_name additional_data ?rc ?mr] =>
          destruct (handle_error_run e category sev component operation_name
                      additional_data rc mr w2)
            as (ctx & w3 & Hrun & Hrc & Hmr & Hty & Hmsg & Hrec & _)
      end.
      erewrite bind_inl; [| exact Hrun].
      cbn [value world events].
      assert (Hdesc : describes cfg ctx e a) by (repeat split; assumption).
      assert (Hraise : exists w1, fst (op w1) = inr e)
        by (exists w1; now rewrite Hop).
      destruct (is_recoverable ctx) eqn:Hr; cbn [negb].
      * specialize (IH (Some e) w3). cbn zeta in IH.
        rewrite <- app_assoc. cbn [app].
        now apply run_continue.
      * cbn [ErrorHandler.after_loop raise value events].
        rewrite <- app_assoc. cbn [app]. now apply run_break.
Qed.

(** The number of times the operation was called. *)
Definition invocations (evs : list Event) : nat :=
  length (List.filter (fun ev => match ev with EvInvoke _ _ => true | _ => false end) evs).

(** Every sleep is followed at once by the call of a later attempt than
    the first, one of the [n] attempts, and its length is the delay of that
    attempt. *)
Fixpoint sleeps_precede_retries (cfg : RetryConfig) (n : nat)
    (evs : list Event) : Prop :=
  match evs with
  | [] => True
  | EvSleep d :: rest =>
      match rest with
      | EvInvoke (S k) _ :: _ => (S k < n)%nat /\ jittered cfg (S k) d
      | _ => False
      end /\ sleeps_precede_retries cfg n rest
  | _ :: rest => sleeps_precede_retries cfg n rest
  end.

Lemma invocations_app (evs1 evs2 : list Event) :
  invocations (evs1 ++ evs2) = (invocations evs1 + invocations evs2)%nat.
Proof. unfold invocations. now rewrite List.filter_app, length_app. Qed.

Lemma pre_sleep_invocations (cfg : RetryConfig) (a : nat) (pre : list Event) :
  pre_sleep cfg a pre -> invocations pre = O.
Proof. intros [[_ ->] | [_ (d & -> & _)]]; reflexivity. Qed.

Lemma run_invocations cfg attempts last_error evs v :
  retry_run cfg attempts last_error evs v ->
  (invocations evs <= length attempts)%nat.
Proof.
  induction 1 as [le | a rest le pre result Hpre _
                 | a rest le pre e ctx Hpre _ _ _
                 | a rest le pre e ctx evs v Hpre _ _ _ _ IH];
    rewrite ?invocations_app, ?(pre_sleep_invocations _ _ _ Hpre);
    cbn [length]; try (cbn; lia).
  change (EvInvoke a (Some e) :: EvHandled ctx :: evs)
    with ([EvInvoke a (Some e); EvHandled ctx] ++ evs).
  rewrite invocations_app. cbn. cbn in IH. lia.
Qed.

Lemma run_sleeps cfg (n : nat) attempts last_error evs v :
  retry_run cfg attempts last_error evs v ->
  Forall (fun a => (a < n)%nat) attempts ->
  sleeps_precede_retries cfg n evs.
Proof.
  induction 1 as [le | a rest le pre result Hpre _
                 | a rest le pre e ctx Hpre _ _ _
                 | a rest le pre e ctx evs v Hpre _ _ _ _ IH];
    intros Hall; [exact I | | |];
    inversion Hall as [| ? ? Ha Hrest]; subst;
    destruct Hpre as [[-> ->] | [Hpos (d & -> & Hj)]]; cbn;
    try (destruct a as [|a]; [lia |]); auto.
Qed.

Lemma sleeps_precede_split cfg (n : nat) (pre post : list Event) (d : Q) :
  sleeps_precede_retries cfg n (pre ++ EvSleep d :: post) ->
  exists k r post',
    post = EvInvoke (S k) r :: post' /\ (S k < n)%nat /\ jittered cfg (S k) d.
Proof.
  induction pre as [|ev pre IH]; cbn.
  - intros [Hnext _]. destruct post as [|[] post']; try contradiction.
    destruct attempt as [|k]; [contradiction |]. destruct Hnext. eauto 6.
  - destruct ev; try exact IH. intros [_ Hrest]. now apply IH.
Qed.

Lemma run_handled cfg (n : nat) attempts last_error evs v :
  retry_run cfg attempts last_error evs v ->
  Forall (fun a => (a < n)%nat) attempts ->
  forall ctx, In (EvHandled ctx) evs ->
    0 <= retry_count ctx /\ retry_count ctx < Z.of_nat n
    /\ max_retries ctx = max_attempts cfg - 1.
Proof.
  induction 1 as [le | a rest le pre result Hpre _
                 | a rest le pre e ctx0 Hpre _ Hdesc _
                 | a rest le pre e ctx0 evs v Hpre _ Hdesc _ _ IH];
    intros Hall ctx Hin;
    try (inversion Hall as [| ? ? Ha Hrest]; subst).
  - destruct Hin.
  - apply in_app_or in Hin. destruct Hin as [Hin | Hin].
    + destruct Hpre as [[_ ->] | [_ (d & -> & _)]]; cbn in Hin; intuition discriminate.
    + cbn in Hin. intuition discriminate.
  - destruct Hdesc as (Hrc & Hmr & _).
    apply in_app_or in Hin. destruct Hin as [Hin | Hin].
    + destruct Hpre as [[_ ->] | [_ (d & -> & _)]]; cbn in Hin; intuition discriminate.
    + cbn in Hin. destruct Hin as [Hin | [Hin | []]]; [discriminate |].
      injection Hin as <-. rewrite Hrc, Hmr. lia.
  - destruct Hdesc as (Hrc & Hmr & _).
    apply in_app_or in Hin. destruct Hin as [Hin | Hin].
    + destruct Hpre as [[_ ->] | [_ (d & -> & _)]]; cbn in Hin; intuition discriminate.
    + cbn in Hin. destruct Hin as [Hin | [Hin | Hin]]; [discriminate | |].
      * injection Hin as <-. rewrite Hrc, Hmr. lia.
      * now apply IH.
Qed.

(** No call of the operation returned: every call of the run raised. *)
Definition every_call_raised (evs : list Event) : Prop :=
  Forall (fun ev => forall k, ev <> EvInvoke k None) evs.

Lemma pre_sleep_every_call_raised (cfg : RetryConfig) (a : nat)
    (pre : list Event) :
  pre_sleep cfg a pre -> every_call_raised pre.
Proof.
  intros [[_ ->] | [_ (d & -> & _)]]; [constructor |].
  constructor; [intros k [=] | constructor].
Qed.

(** A run in which every call raised ends with the record of the error of
    its last call, which is raised; if that record is recoverable the call
    was the last attempt and every attempt was made. *)
Lemma run_every_call_raised cfg attempts last_error evs v :
  retry_run cfg attempts last_error evs v ->
  attempts <> [] ->
  every_call_raised evs ->
  exists e ctx pre k,
    v = inr e
    /\ evs = pre ++ [EvInvoke k (Some e); EvHandled ctx]
    /\ describes cfg ctx e k
    /\ (is_recoverable ctx = true ->
        last attempts = Some k /\ invocations evs = length attempts).
Proof.
  induction 1 as [le | a rest le pre result Hpre _
                 | a rest le pre e ctx Hpre _ Hdesc Hrec
                 | a rest le pre e ctx evs v Hpre _ Hdesc Hrec Hrun IH];
    intros Hne Hall.
  - contradiction.
  - apply Forall_app in Hall. destruct Hall as [_ Hcall].
    inversion Hcall as [| ? ? Hev _]; subst. now destruct (Hev a).
  - exists e, ctx, pre, a.
    split; [reflexivity |]. split; [reflexivity |]. split; [exact Hdesc |].
    intros Htrue. congruence.
  - destruct rest as [|b rest].
    + inversion Hrun; subst. exists e, ctx, pre, a.
      split; [reflexivity |]. split; [reflexivity |]. split; [exact Hdesc |].
      intros _. split; [reflexivity |].
      rewrite invocations_app, (pre_sleep_invocations _ _ _ Hpre). reflexivity.
    + apply Forall_app in Hall. destruct Hall as [_ Hall].
      inversion Hall as [| ? ? _ Hall1]; subst.
      inversion Hall1 as [| ? ? _ Hall2]; subst.
      destruct (IH ltac:(discriminate) Hall2)
        as (e' & ctx' & pre' & k & -> & Hevs & Hdesc' & Hlast).
      exists e', ctx', (pre ++ EvInvoke a (Some e) :: EvHandled ctx :: pre'), k.
      split; [reflexivity |].
      split; [rewrite Hevs, <- app_assoc; reflexivity |].
      split; [exact Hdesc' |].
      intros Htrue. destruct (Hlast Htrue) as [Hk Hinv].
      split; [exact Hk |].
      change (EvInvoke a (Some e) :: EvHandled ctx :: evs)
        with ([EvInvoke a (Some e); EvHandled ctx] ++ evs).
      rewrite !invocations_app, (pre_sleep_invocations _ _ _ Hpre), Hinv.
      reflexivity.
Qed.

Lemma run_nonrecoverable_last cfg attempts last_error evs v :
  retry_run cfg attempts last_error evs v ->
  forall ctx, In (EvHandled ctx) evs -> is_recoverable ctx = false ->
    exists pre,
      evs = pre ++ [EvHandled ctx]
      /\ v = inr (mkExn (exception_type ctx) (error_message ctx)).
Proof.
  induction 1 as [le | a rest le pre result Hpre _
                 | a rest le pre e ctx0 Hpre _ Hdesc Hrec0
                 | a rest le pre e ctx0 evs v Hpre _ Hdesc Hrec0 _ IH];
    intros ctx Hin Hrec.
  - destruct Hin.
  - apply in_app_or in Hin. destruct Hin as [Hin | Hin].
    + destruct Hpre as [[_ ->] | [_ (d & -> & _)]]; cbn in Hin; intuition discriminate.
    + cbn in Hin. intuition discriminate.
  - apply in_app_or in Hin. destruct Hin as [Hin | Hin].
    + destruct Hpre as [[_ ->] | [_ (d & -> & _)]]; cbn in Hin; intuition discriminate.
    + cbn in Hin. destruct Hin as [Hin | [Hin | []]]; [discriminate |].
      injection Hin as <-. destruct Hdesc as (_ & _ & Hty & Hmsg & _).
      exists (pre ++ [EvInvoke a (Some e)]). split.
      * now rewrite <- app_assoc.
      * rewrite Hty, Hmsg. now destruct e.
  - apply in_app_or in Hin. destruct Hin as [Hin | Hin].
    + destruct Hpre as [[_ ->] | [_ (d & -> & _)]]; cbn in Hin; intuition discriminate.
    + cbn in Hin. destruct Hin as [Hin | [Hin | Hin]]; [discriminate | |].
      * injection Hin as <-. congruence.
      * destruct (IH ctx Hin Hrec) as (pre' & -> & ->).
        exists (pre ++ EvInvoke a (Some e) :: EvHandled ctx0 :: pre').
        split; [| reflexivity]. now rewrite <- app_assoc.
Qed.

End RetryLoop.

(** ** [execute_with_retry] *)

Section ExecuteWithRetry.
Context {E : Type} `{Runtime E} {T : Type}.

Lemma builtin_policy_nonneg (category : ErrorCategory) :
  nonneg_delays (ErrorHandler.retry_config_for category).
Proof. destruct category; split; discriminate. Qed.

Lemma builtin_policy_attempts (category : ErrorCategory) :
  1 <= max_attempts (ErrorHandler.retry_config_for category).
Proof. destruct category; cbn; lia. Qed.

Lemma range_below (n : Z) :
  Forall (fun a => (a < Z.to_nat n)%nat) (ErrorHandler.range n).
Proof.
  unfold ErrorHandler.range. apply List.Forall_forall. intros a Ha.
  apply in_seq in Ha. lia.
Qed.

Lemma last_range (n : Z) (k : nat) :
  last (ErrorHandler.range n) = Some k -> Z.of_nat k = n - 1.
Proof.
  unfold ErrorHandler.range. destruct (Z.to_nat n) as [|m] eqn:Hn.
  - discriminate.
  - rewrite seq_S, last_snoc. intros [= <-]. lia.
Qed.

(** The run of [execute_with_retry] is a run of the loop over
    [range(max_attempts)] under the policy of the category. *)
Lemma execute_with_retry_run (op : ErrorHandler.Op T) (category : ErrorCategory)
    (component operation_name : string)
    (additional_data : option (list (string * PyVal))) (w : World E) :
  let o := ErrorHandler.execute_with_retry op category component
             operation_name additional_data w in
  let cfg := ErrorHandler.retry_config_for category in
  retry_run op category cfg (ErrorHandler.range (max_attempts cfg)) None
    (events o) (value o).
Proof.
  cbn zeta. unfold ErrorHandler.execute_with_retry.
  apply (retry_loop_run op category component operation_name additional_data).
  apply builtin_policy_nonneg.
Qed.

(** C2: with [N] the maximal number of attempts of the policy of the
    category, [execute_with_retry] calls the operation at most [N] times,
    and every sleep is followed at once by a call of the operation, in one
    of the attempts 2..N; so no sleep follows the last call. *)
Theorem execute_with_retry_bounded (op : ErrorHandler.Op T)
    (category : ErrorCategory) (component operation_name : string)
    (additional_data : option (list (string * PyVal))) (w : World E) :
  let o := ErrorHandler.execute_with_retry op category component
             operation_name additional_data w in
  let N := max_attempts (ErrorHandler.retry_config_for category) in
  Z.of_nat (invocations (events o)) <= N
  /\ forall pre d post,
       events o = pre ++ EvSleep d :: post ->
       exists k r post',
         post = EvInvoke (S k) r :: post' /\ Z.of_nat (S k) < N.
Proof.
  intros o N.
  pose proof (execute_with_retry_run op category component operation_name
                additional_data w) as Hrun.
  cbn zeta in Hrun. fold o N in Hrun.
  pose proof (builtin_policy_attempts category) as HN. fold N in HN.
  split.
  - apply (run_invocations op category) in Hrun.
    unfold ErrorHandler.range in Hrun. rewrite length_seq in Hrun. lia.
  - intros pre d post Hev.
    apply (run_sleeps op category _ (Z.to_nat N)) in Hrun;
      [| apply range_below].
    rewrite Hev in Hrun.
    destruct (sleeps_precede_split _ _ _ _ _ Hrun)
      as (k & r & post' & -> & Hk & _).
    exists k, r, post'. split; [reflexivity | lia].
Qed.

(** C4: when every call of the operation in the run raises (no call
    returns), [execute_with_retry] raises the error of the last call,
    recorded by the last error record, and if that record is recoverable
    the call was the last of the [N] attempts and the operation was called
    [N] times: the attempts are exhausted; and whenever an error record of
    the run is not recoverable, it is the last event of the run (no sleep
    and no call follow) and its error is raised. *)
Theorem execute_with_retry_reraises (op : ErrorHandler.Op T)
    (category : ErrorCategory) (component operation_name : string)
    (additional_data : option (list (string * PyVal))) (w : World E) :
  let o := ErrorHandler.execute_with_retry op category component
             operation_name additional_data w in
  let cfg := ErrorHandler.retry_config_for category in
  (every_call_raised (events o) ->
   exists e ctx pre k,
     value o = inr e
     /\ events o = pre ++ [EvInvoke k (Some e); EvHandled ctx]
     /\ describes category cfg ctx e k
     /\ (is_recoverable ctx = true ->
         Z.of_nat k = max_attempts cfg - 1
         /\ Z.of_nat (invocations (events o)) = max_attempts cfg))
  /\ (forall ctx,
        In (EvHandled ctx) (events o) -> is_recoverable ctx = false ->
        exists pre,
          events o = pre ++ [EvHandled ctx]
          /\ value o = inr (mkExn (exception_type ctx) (error_message ctx))).
Proof.
  intros o cfg.
  pose proof (execute_with_retry_run op category component operation_name
                additional_data w) as Hrun.
  cbn zeta in Hrun. fold o cfg in Hrun.
  pose proof (builtin_policy_attempts category) as HN. fold cfg in HN.
  split.
  - intros Hfail.
    destruct (run_every_call_raised op category _ _ _ _ _ Hrun)
      as (e & ctx & pre & k & Hv & Hev & Hdesc & Hlast).
    + unfold ErrorHandler.range. destruct (Z.to_nat (max_attempts cfg)) eqn:Hn;
        [lia | discriminate].
    + exact Hfail.
    + exists e, ctx, pre, k. repeat (split; [assumption |]).
      intros Hrec. destruct (Hlast Hrec) as [Hk Hinv]. split.
      * now apply last_range.
      * rewrite Hinv. unfold ErrorHandler.range. rewrite length_seq. lia.
  - intros ctx Hin Hrec.
    exact (run_nonrecoverable_last op category _ _ _ _ _ Hrun ctx Hin Hrec).
Qed.

(** C9: every error record created by [execute_with_retry] has a retry
    count between 0 and the maximal number of attempts of the policy of
    its category minus one, which is the record's [max_retries]. *)
Theorem retry_count_bounded (op : ErrorHandler.Op T)
    (category : ErrorCategory) (component operation_name : string)
    (additional_data : option (list (string * PyVal))) (w : World E)
    (ctx : ErrorContext) :
  let o := ErrorHandler.execute_with_retry op category component
             operation_name additional_data w in
  let N := max_attempts (ErrorHandler.retry_config_for category) in
  In (EvHandled ctx) (events o) ->
  0 <= retry_count ctx
  /\ retry_count ctx <= N - 1
  /\ max_retries ctx = N - 1.
Proof.
  intros o N Hin.
  pose proof (execute_with_retry_run op category component operation_name
                additional_data w) as Hrun.
  cbn zeta in Hrun. fold o N in Hrun.
  pose proof (builtin_policy_attempts category) as HN. fold N in HN.
  destruct (run_handled op category _ (Z.to_nat N) _ _ _ _ Hrun
              (range_below N) ctx Hin) as (H0 & Hlt & Hmr).
  repeat split; [exact H0 | lia | exact Hmr].
Qed.

Lemma builtin_policy_flags (category : ErrorCategory) :
  exponential_backoff (ErrorHandler.retry_config_for category) = true
  /\ jitter (ErrorHandler.retry_config_for category) = true.
Proof. destruct category; split; reflexivity. Qed.

(** C3: under exponential backoff with base delay [b] and cap [m], the
    delay of attempt [k] before jitter is [min (b * 2^k) m]; with jitter
    [_calculate_retry_delay] returns that delay multiplied by a factor
    between 1/2 and 1, and without jitter it returns that delay.  In
    [execute_with_retry] the sleep before the call of attempt [k] lasts
    [min (b * 2^k) m] times such a factor, with [b] and [m] of the policy
    of the category. *)
Theorem calculate_retry_delay_exponential :
  (forall (k : nat) (config : RetryConfig) (w : World E),
     exponential_backoff config = true ->
     let pre :=
       Qmin (base_delay config * inject_Z (2 ^ Z.of_nat k)) (max_delay config) in
     ErrorHandler.backoff_delay k config = pre
     /\ if jitter config
        then exists factor,
               ((1 # 2) <= factor)%Q /\ (factor <= 1)%Q
               /\ value (ErrorHandler._calculate_retry_delay k config w)
                  = inl (pre * factor)%Q
        else value (ErrorHandler._calculate_retry_delay k config w) = inl pre)
  /\ (forall (op : ErrorHandler.Op T) (category : ErrorCategory)
        (component operation_name : string)
        (additional_data : option (list (string * PyVal))) (w : World E)
        (before after : list Event) (d : Q) (k : nat) (r : option Exn),
        let cfg := ErrorHandler.retry_config_for category in
        events (ErrorHandler.execute_with_retry op category component
                  operation_name additional_data w)
        = before ++ EvSleep d :: EvInvoke k r :: after ->
        exists factor,
          ((1 # 2) <= factor)%Q /\ (factor <= 1)%Q
          /\ d = (Qmin (base_delay cfg * inject_Z (2 ^ Z.of_nat k))
                    (max_delay cfg) * factor)%Q).
Proof.
  split; [exact backoff_then_jitter |].
  intros op category component operation_name additional_data w before after
    d k r cfg Hev.
  pose proof (execute_with_retry_run op category component operation_name
                additional_data w) as Hrun.
  cbn zeta in Hrun. fold cfg in Hrun.
  apply (run_sleeps op category _ (Z.to_nat (max_attempts cfg))) in Hrun;
    [| apply range_below].
  rewrite Hev in Hrun.
  destruct (sleeps_precede_split _ _ _ _ _ Hrun)
    as (k' & r' & post' & Hpost & _ & Hj).
  injection Hpost as -> _ _.
  destruct (builtin_policy_flags category) as [Hexp Hjit]. fold cfg in Hexp, Hjit.
  unfold jittered, ErrorHandler.backoff_delay in Hj.
  rewrite Hjit, Hexp in Hj. exact Hj.
Qed.

End ExecuteWithRetry.

(** Two operations for the examples: one times out at every call, one is
    refused at every call. *)
Definition timeout_op : ErrorHandler.Op (E := Z) unit :=
  fun w => (inr (mkExn "TimeoutError" "timed out"), w).

Definition denied_op : ErrorHandler.Op (E := Z) unit :=
  fun w => (inr (mkExn "PermissionError" "Permission denied"), w).

(** The record of the refused connection. *)
Definition denied_ctx : ErrorContext :=
  mkErrorContext 0 SFTP_CONNECTION LOW "SFTPManager" "connect"
    "Permission denied" "PermissionError" "Traceback: PermissionError" []
    0 4 false.

Example retry_refused_stops_at_once :
  events (ErrorHandler.execute_with_retry denied_op SFTP_CONNECTION
            "SFTPManager" "connect" None (Demo.demo_world 0))
  = [EvInvoke 0 (Some (mkExn "PermissionError" "Permission denied"));
     EvHandled denied_ctx].
Proof. reflexivity. Qed.

Example retry_timeout_twice :
  map (fun ev =>
         match ev with
         | EvSleep d => "sleep"
         | EvInvoke _ _ => "call"
         | _ => "record"
         end)
    (events (ErrorHandler.execute_with_retry timeout_op FILE_PROCESSING
               "CSVGenerator" "write" None (Demo.demo_world 0)))
  = ["call"; "record"; "sleep"; "call"; "record"].
Proof. reflexivity. Qed.

Example retry_timeout_five_calls :
  invocations
    (events (ErrorHandler.execute_with_retry timeout_op SFTP_CONNECTION
               "SFTPManager" "connect" None (Demo.demo_world 0))) = 5%nat.
Proof. reflexivity. Qed.

Lemma execute_with_retry_bounded_witness :
  Z.of_nat
    (invocations
       (events (ErrorHandler.execute_with_retry timeout_op SFTP_CONNECTION
                  "SFTPManager" "connect" None (Demo.demo_world 0)))) <= 5.
Proof.
  exact (proj1 (execute_with_retry_bounded timeout_op SFTP_CONNECTION
                  "SFTPManager" "connect" None (Demo.demo_world 0))).
Defined.

(** An operation that depends on the state: the connection is refused
    with a timeout until the clock shows 10; every sleep of the demo
    advances the clock by one. *)
Definition flaky_op : ErrorHandler.Op (E := Z) unit :=
  fun w =>
    if env w <? 10 then (inr (mkExn "TimeoutError" "timed out"), w)
    else (inl tt, w).

(** The events of the five attempts to connect from the instant 0. *)
Definition flaky_events : list Event :=
  events (ErrorHandler.execute_with_retry flaky_op SFTP_CONNECTION
            "SFTPManager" "connect" None (Demo.demo_world 0)).

Lemma flaky_every_call_raised : every_call_raised flaky_events.
Proof. vm_compute. repeat constructor; intros k [=]. Qed.

Example flaky_connects_later :
  value (ErrorHandler.execute_with_retry flaky_op SFTP_CONNECTION
           "SFTPManager" "connect" None (Demo.demo_world 8))
  = inl (Some tt)
  /\ invocations
       (events (ErrorHandler.execute_with_retry flaky_op SFTP_CONNECTION
                  "SFTPManager" "connect" None (Demo.demo_world 8))) = 3%nat.
Proof. split; reflexivity. Qed.

Lemma execute_with_retry_reraises_witness :
  every_call_raised flaky_events
  /\ exists e ctx pre k,
       value (ErrorHandler.execute_with_retry flaky_op SFTP_CONNECTION
                "SFTPManager" "connect" None (Demo.demo_world 0)) = inr e
       /\ flaky_events = pre ++ [EvInvoke k (Some e); EvHandled ctx]
       /\ describes SFTP_CONNECTION
            (ErrorHandler.retry_config_for SFTP_CONNECTION) ctx e k
       /\ (is_recoverable ctx = true ->
           Z.of_nat k = 5 - 1 /\ Z.of_nat (invocations flaky_events) = 5).
Proof.
  split; [exact flaky_every_call_raised |].
  exact (proj1 (execute_with_retry_reraises flaky_op SFTP_CONNECTION
                  "SFTPManager" "connect" None (Demo.demo_world 0))
           flaky_every_call_raised).
Defined.

Lemma retry_count_bounded_witness :
  In (EvHandled denied_ctx)
    (events (ErrorHandler.execute_with_retry denied_op SFTP_CONNECTION
               "SFTPManager" "connect" None (Demo.demo_world 0)))
  /\ retry_count denied_ctx <= 5 - 1.
Proof.
  assert (Hin : In (EvHandled denied_ctx)
                  (events (ErrorHandler.execute_with_retry denied_op
                             SFTP_CONNECTION "SFTPManager" "connect" None
                             (Demo.demo_world 0))))
    by (right; left; reflexivity).
  split; [exact Hin |].
  exact (proj1 (proj2 (retry_count_bounded denied_op SFTP_CONNECTION
                         "SFTPManager" "connect" None (Demo.demo_world 0)
                         denied_ctx Hin))).
Defined.

(** The events of two attempts to write that time out. *)
Definition timeout_events : list Event :=
  events (ErrorHandler.execute_with_retry timeout_op FILE_PROCESSING
            "CSVGenerator" "write" None (Demo.demo_world 0)).

Lemma timeout_events_sleep :
  timeout_events
  = firstn 2 timeout_events
    ++ EvSleep (12 # 8)
       :: EvInvoke 1 (Some (mkExn "TimeoutError" "timed out"))
       :: skipn 4 timeout_events.
Proof. vm_compute. reflexivity. Qed.

Lemma calculate_retry_delay_exponential_witness :
  exponential_backoff (RetryConfig_with 5 2) = true
  /\ ErrorHandler.backoff_delay 3 (RetryConfig_with 5 2)
     = Qmin (2 * inject_Z (2 ^ 3)) 60
  /\ exists factor,
       ((1 # 2) <= factor)%Q /\ (factor <= 1)%Q
       /\ 12 # 8 = (Qmin (1 * inject_Z (2 ^ 1)) 60 * factor)%Q.
Proof.
  split; [reflexivity |]. split.
  - exact (proj1 (proj1 (calculate_retry_delay_exponential (T := unit)) 3%nat
                    (RetryConfig_with 5 2) (Demo.demo_world 0) eq_refl)).
  - exact (proj2 (calculate_retry_delay_exponential (T := unit)) timeout_op
             FILE_PROCESSING "CSVGenerator" "write" None (Demo.demo_world 0)
             (firstn 2 timeout_events) (skipn 4 timeout_events) (12 # 8) 1%nat
             (Some (mkExn "TimeoutError" "timed out")) timeout_events_sleep).
Defined.

(** ** Retention of the error records *)

Section Cleanup.
Context {E : Type} `{Runtime E}.

(** The lines of the store that decode to an instant not before the cutoff. *)
Definition recent_lines (cutoff_time : Z) (lines : list string) : list string :=
  List.filter
    (fun line =>
       match decode_line line with
       | Decoded error_time => bool_decide (cutoff_time <= error_time)
       | _ => false
       end)
    lines.

(** No line of the store makes the decoding raise an exception that the
    loop does not catch. *)
Definition decodable (lines : list string) : Prop :=
  Forall (fun line => forall e, decode_line line <> DecodeRaises e) lines.

(** The file operations among the events, in their order. *)
Definition file_ops (evs : list Event) : list FileOp :=
  flat_map (fun ev => match ev with EvFile op => [op] | _ => [] end) evs.

(** The directory after a sequence of file operations. *)
Definition apply_ops (ops : list FileOp) (fs : gmap string (list string))
  : gmap string (list string) :=
  fold_left (fun fs op => ErrorHandler.apply_op op fs) ops fs.


Lemma apply_ops_app (ops1 ops2 : list FileOp) (fs : gmap string (list string)) :
  apply_ops (ops1 ++ ops2) fs = apply_ops ops2 (apply_ops ops1 fs).
Proof. apply fold_left_app. Qed.


Lemma file_ops_files (ops : list FileOp) : file_ops (map EvFile ops) = ops.
Proof.
  induction ops as [|op ops IH]; [reflexivity |].
  unfold file_ops in *. cbn [map flat_map app]. now rewrite IH.
Qed.


(** Writing lines to a file appends them to it. *)
Lemma apply_ops_lines (path : string) (lines : list string)
    (fs : gmap string (list string)) :
  apply_ops (map (WriteLine path) lines) fs !! path
  = match lines with
    | [] => fs !! path
    | _ => Some (default [] (fs !! path) ++ lines)
    end.
Proof.
  revert fs. induction lines as [|line rest IH]; intros fs; [reflexivity |].
  cbn [map apply_ops fold_left].
  fold (apply_ops (map (WriteLine path) rest)
          (ErrorHandler.apply_op (WriteLine path line) fs)).
  rewrite IH. cbn [ErrorHandler.apply_op]. rewrite lookup_insert_eq.
  destruct rest; cbn [default from_option id];
    [reflexivity | now rewrite <- app_assoc].
Qed.

Lemma set_files_same (w : World E) : set_files (files w) w = w.
Proof. now destruct w. Qed.

(** ** Computations that change the world through file operations only *)






(** The three steps on the store: open the temporary file, copy, replace. *)
Definition rewrite_store (cutoff_time : Z) (tmp log : string)
    (lines : list string) : M E unit :=
  ErrorHandler.perform (OpenWrite tmp) ;;;
  ErrorHandler.copy_recent cutoff_time tmp lines ;;;
  ErrorHandler.perform (Replace tmp log).


(** When every line can be decoded the loop writes the recent lines, in
    their order, and returns. *)
Lemma copy_recent_decodable (cutoff_time : Z) (tmp : string)
    (lines : list string) (w : World E) :
  decodable lines ->
  let writes := map (WriteLine tmp) (recent_lines cutoff_time lines) in
  ErrorHandler.copy_recent cutoff_time tmp lines w
  = mkOutcome (inl tt) (set_files (apply_ops writes (files w)) w)
      (map EvFile writes).
Proof.
  intros Hdec. revert w.
  induction Hdec as [|line rest Hline _ IH]; intros w; cbn zeta.
  - cbn. now rewrite set_files_same.
  - cbn [ErrorHandler.copy_recent recent_lines List.filter].
    destruct (decode_line line) as [t | | e] eqn:Hd.
    + destruct (bool_decide (cutoff_time <= t)).
      * erewrite bind_inl; [| reflexivity].
        cbn [value world events]. rewrite IH. reflexivity.
      * erewrite bind_inl; [| reflexivity].
        cbn [value world events]. rewrite IH. reflexivity.
    + apply IH.
    + now destruct (Hline e).
Qed.



(** The number of days that [cleanup_old_error_logs] uses. *)
Definition retention_days_of (days_to_keep : option Z) (w : World E) : Z :=
  match days_to_keep with
  | Some d => d
  | None => error_log_retention_days (retention_config (handler w))
  end.

(** The cutoff of a retention of [retention_days] days at the instant [t]
    can be computed: the days are within the bound of a [timedelta] and
    the cutoff is a [datetime]. *)
Definition cutoff_in_range (t retention_days : Z) : Prop :=
  retention_days <= 999999999
  /\ 0 <= t - ErrorHandler.days retention_days <= ErrorHandler.datetime_max.

Lemma cutoff_before_in_range (t retention_days : Z) :
  0 < retention_days ->
  cutoff_in_range t retention_days ->
  ErrorHandler.cutoff_before t retention_days
  = inl (t - ErrorHandler.days retention_days).
Proof.
  intros Hpos (Hd & H0 & Hmax).
  unfold ErrorHandler.cutoff_before, ErrorHandler.timedelta_days,
    ErrorHandler.datetime_sub.
  destruct (Z.leb_spec (Z.abs retention_days) 999999999) as [_ | Hgt]; [| lia].
  cbn zeta.
  destruct (Z.leb_spec 0 (t - ErrorHandler.days retention_days)); [| lia].
  destruct (Z.leb_spec (t - ErrorHandler.days retention_days)
              ErrorHandler.datetime_max); [reflexivity | lia].
Qed.

Lemma cutoff_before_overflow (t retention_days : Z) :
  0 < retention_days ->
  ~ cutoff_in_range t retention_days ->
  exists msg,
    ErrorHandler.cutoff_before t retention_days
    = inr (mkExn "OverflowError" msg).
Proof.
  intros Hpos Hout.
  unfold ErrorHandler.cutoff_before, ErrorHandler.timedelta_days,
    ErrorHandler.datetime_sub.
  destruct (Z.leb_spec (Z.abs retention_days) 999999999) as [Hle | Hgt];
    [| eexists; reflexivity].
  cbn zeta.
  destruct (Z.leb_spec 0 (t - ErrorHandler.days retention_days));
    [| eexists; reflexivity].
  destruct (Z.leb_spec (t - ErrorHandler.days retention_days)
              ErrorHandler.datetime_max); [| eexists; reflexivity].
  exfalso. apply Hout. unfold cutoff_in_range. lia.
Qed.



(** The store of the handler has lines that can be decoded. *)
Definition store_decodable (w : World E) : Prop :=
  match files w !! ErrorHandler.error_log_file (handler w) with
  | Some lines => decodable lines
  | None => True
  end.

(** The handler with its history pruned at the cutoff. *)
Definition pruned_handler (cutoff_time : Z) (h : ErrorHandler) : ErrorHandler :=
  mkErrorHandler (storage_path h) (retention_config h)
    (filter (fun e => cutoff_time <= timestamp e) (error_history h))
    (error_counts h) (last_error_times h).

Lemma pruned_handler_log (cutoff_time : Z) (h : ErrorHandler) :
  ErrorHandler.error_log_file (pruned_handler cutoff_time h)
  = ErrorHandler.error_log_file h.
Proof. reflexivity. Qed.

(** With a number of days at most 0 nothing is done. *)
Lemma cleanup_disabled (days_to_keep : option Z) (w : World E) :
  retention_days_of days_to_keep w <= 0 ->
  ErrorHandler.cleanup_old_error_logs days_to_keep w = mkOutcome (inl tt) w [].
Proof.
  intros Hle.
  unfold ErrorHandler.cleanup_old_error_logs, retention_days_of in *.
  unfold bind, try, gets, ret. cbn [value world events].
  destruct (Z.leb_spec
              match days_to_keep with
              | Some d => d
              | None => error_log_retention_days (retention_config (handler w))
              end 0) as [_ | Hgt]; [reflexivity | lia].
Qed.

(** When the cutoff cannot be computed the [OverflowError] is caught
    before anything was changed. *)
Lemma cleanup_overflow (days_to_keep : option Z) (w : World E) :
  0 < retention_days_of days_to_keep w ->
  ~ cutoff_in_range (now (env w)) (retention_days_of days_to_keep w) ->
  ErrorHandler.cleanup_old_error_logs days_to_keep w = mkOutcome (inl tt) w [].
Proof.
  intros Hpos Hout.
  destruct (cutoff_before_overflow _ _ Hpos Hout) as [msg Hcut].
  unfold ErrorHandler.cleanup_old_error_logs, retention_days_of in *.
  unfold bind, try, gets, ret. cbn [value world events].
  destruct (Z.leb_spec
              match days_to_keep with
              | Some d => d
              | None => error_log_retention_days (retention_config (handler w))
              end 0) as [Hle | _]; [lia |].
  cbn [value world events]. rewrite Hcut. reflexivity.
Qed.

(** Otherwise the history is pruned, and the store, if there is one, goes
    through the three steps; what they raise is caught. *)
Lemma cleanup_enabled (days_to_keep : option Z) (w : World E) :
  0 < retention_days_of days_to_keep w ->
  cutoff_in_range (now (env w)) (retention_days_of days_to_keep w) ->
  let h := handler w in
  let cutoff_time :=
    now (env w) - ErrorHandler.days (retention_days_of days_to_keep w) in
  let w1 := set_handler (pruned_handler cutoff_time h) w in
  let steps :=
    match files w !! ErrorHandler.error_log_file h with
    | Some lines =>
        rewrite_store cutoff_time (ErrorHandler.temp_file h)
          (ErrorHandler.error_log_file h) lines w1
    | None => ret tt w1
    end in
  ErrorHandler.cleanup_old_error_logs days_to_keep w
  = mkOutcome (inl tt) (world steps) (events steps).
Proof.
  intros Hpos Hin h cutoff_time w1 steps.
  pose proof (cutoff_before_in_range _ _ Hpos Hin) as Hcut.
  unfold ErrorHandler.cleanup_old_error_logs.
  match goal with |- bind (try ?m) _ _ = _ => set (body := m) end.
  assert (Hbody : body w = mkOutcome (value steps) (world steps) (events steps)).
  { subst body. erewrite bind_inl; [| reflexivity].
    fold (retention_days_of days_to_keep w).
    destruct (Z.leb_spec (retention_days_of days_to_keep w) 0) as [Hle | _];
      [lia |].
    erewrite bind_inl; [| cbv beta; rewrite Hcut; reflexivity].
    fold cutoff_time.
    erewrite bind_inl; [| reflexivity].
    erewrite bind_inl; [| reflexivity].
    cbn [value world events app files set_handler]. fold h.
    fold (pruned_handler cutoff_time h). fold w1.
    subst steps.
    destruct (files w !! ErrorHandler.error_log_file h); reflexivity. }
  erewrite bind_inl; [| rewrite try_run, Hbody; reflexivity].
  cbn [value world events ret]. now rewrite app_nil_r.
Qed.

Lemma handle_error_files (error : Exn) (cat : ErrorCategory)
    (sev : ErrorSeverity) (comp oper : string)
    (data : option (list (string * PyVal))) (rc mr : Z) (w : World E) :
  let o := ErrorHandler.handle_error error cat sev comp oper data rc mr w in
  let log := ErrorHandler.error_log_file (handler w) in
  exists ctx,
    value o = inl ctx
    /\ storage_path (handler (world o)) = storage_path (handler w)
    /\ files (world o)
       = <[log := default [] (files w !! log) ++ [json_dumps ctx]]> (files w).
Proof. eexists. repeat split. Qed.

Lemma recent_lines_decodable (cutoff_time : Z) (lines : list string) :
  decodable lines -> decodable (recent_lines cutoff_time lines).
Proof.
  unfold decodable, recent_lines. rewrite !List.Forall_forall.
  intros Hall line Hin. apply filter_In in Hin. now apply Hall.
Qed.

(** The lines that the handler writes can be decoded: recording an error
    and pruning the store keep the store decodable. *)
Lemma handle_error_store_decodable (error : Exn) (cat : ErrorCategory)
    (sev : ErrorSeverity) (comp oper : string)
    (data : option (list (string * PyVal))) (rc mr : Z) (w : World E) :
  store_decodable w ->
  store_decodable
    (world (ErrorHandler.handle_error error cat sev comp oper data rc mr w)).
Proof.
  unfold store_decodable. intros Hw.
  destruct (handle_error_files error cat sev comp oper data rc mr w)
    as (ctx & _ & Hpath & Hfiles).
  unfold ErrorHandler.error_log_file. rewrite Hpath, Hfiles.
  fold (ErrorHandler.error_log_file (handler w)).
  rewrite lookup_insert_eq.
  apply Forall_app. split.
  - destruct (files w !! ErrorHandler.error_log_file (handler w));
      [exact Hw | constructor].
  - constructor; [| constructor]. intros e. rewrite decode_json_dumps. discriminate.
Qed.

Lemma cutoff_in_range_dec (t retention_days : Z) :
  {cutoff_in_range t retention_days} + {~ cutoff_in_range t retention_days}.
Proof.
  unfold cutoff_in_range.
  destruct (Z_le_gt_dec retention_days 999999999);
    [| right; lia].
  destruct (Z_le_gt_dec 0 (t - ErrorHandler.days retention_days));
    [| right; lia].
  destruct (Z_le_gt_dec (t - ErrorHandler.days retention_days)
              ErrorHandler.datetime_max); [left | right]; lia.
Qed.

(** The copy phase: the temporary file is opened and the kept lines are
    written to it. *)
Definition copy_ops (tmp : string) (kept : list string) : list FileOp :=
  OpenWrite tmp :: map (WriteLine tmp) kept.


(** After the copy phase the temporary file holds the kept lines. *)
Lemma copy_ops_temp (tmp : string) (kept : list string)
    (fs : gmap string (list string)) :
  apply_ops (copy_ops tmp kept) fs !! tmp = Some kept.
Proof.
  unfold copy_ops. cbn [apply_ops fold_left].
  fold (apply_ops (map (WriteLine tmp) kept)
          (ErrorHandler.apply_op (OpenWrite tmp) fs)).
  rewrite apply_ops_lines. cbn [ErrorHandler.apply_op].
  rewrite lookup_insert_eq. now destruct kept.
Qed.

(** The three steps on a store whose lines can be decoded. *)
Lemma rewrite_store_decodable (cutoff_time : Z) (tmp log : string)
    (lines : list string) (w : World E) :
  decodable lines ->
  let ops := copy_ops tmp (recent_lines cutoff_time lines) ++ [Replace tmp log] in
  rewrite_store cutoff_time tmp log lines w
  = mkOutcome (inl tt) (set_files (apply_ops ops (files w)) w)
      (map EvFile ops).
Proof.
  intros Hdec ops. unfold rewrite_store.
  erewrite bind_inl; [| reflexivity]. cbn [value world events].
  erewrite bind_inl; [| apply (copy_recent_decodable _ _ _ _ Hdec)].
  cbn [value world events].
  subst ops. unfold copy_ops.
  rewrite map_app, apply_ops_app.
  reflexivity.
Qed.

Lemma cleanup_store_decodable (days_to_keep : option Z) (w : World E) :
  store_decodable w ->
  store_decodable (world (ErrorHandler.cleanup_old_error_logs days_to_keep w)).
Proof.
  intros Hw.
  destruct (Z_le_gt_dec (retention_days_of days_to_keep w) 0) as [Hle | Hgt].
  { now rewrite (cleanup_disabled _ _ Hle). }
  destruct (cutoff_in_range_dec (now (env w))
              (retention_days_of days_to_keep w)) as [Hin | Hout].
  2: { rewrite cleanup_overflow by (lia || exact Hout). exact Hw. }
  rewrite cleanup_enabled by (lia || exact Hin). cbn [world].
  unfold store_decodable in *.
  destruct (files w !! ErrorHandler.error_log_file (handler w)) as [lines |] eqn:Hl.
  - rewrite (rewrite_store_decodable _ _ _ _ _ Hw). cbn [world handler files
      set_files set_handler]. rewrite pruned_handler_log, apply_ops_app.
    cbn [apply_ops fold_left ErrorHandler.apply_op].
    unfold ErrorHandler.replace_file. rewrite copy_ops_temp.
    rewrite lookup_insert_eq. now apply recent_lines_decodable.
  - cbn [world ret handler files set_handler]. rewrite pruned_handler_log.
    now rewrite Hl.
Qed.


End Cleanup.

(** A world on day 10 whose store has the lines of records of days 5, 8
    and 7 and a line that is not JSON, and whose history has records of
    days 5 and 8. *)
Definition record_of_day (d : Z) : ErrorContext :=
  mkErrorContext (d * 86400000000) UNKNOWN LOW "Demo" "demo" "failed"
    "RuntimeError" "" [] 0 0 true.

Definition stored_lines : list string :=
  [json_dumps (record_of_day 5); json_dumps (record_of_day 8); "#junk";
   json_dumps (record_of_day 7)].

Definition stored_world : World Z :=
  mkWorld 864000
    {[ "data/errors/error_context.jsonl" := stored_lines ]}
    (mkErrorHandler "data/errors" RetentionConfig_default
       [record_of_day 5; record_of_day 8] ∅ ∅)
    [].

Example cleanup_disabled_by_default :
  ErrorHandler.cleanup_old_error_logs None stored_world
  = mkOutcome (inl tt) stored_world [].
Proof. reflexivity. Qed.

Example cleanup_three_days_history :
  error_history
    (handler (world (ErrorHandler.cleanup_old_error_logs (Some 3) stored_world)))
  = [record_of_day 8].
Proof. reflexivity. Qed.

Example cleanup_three_days_store :
  files (world (ErrorHandler.cleanup_old_error_logs (Some 3) stored_world))
  = {[ "data/errors/error_context.jsonl" :=
         [json_dumps (record_of_day 8); json_dumps (record_of_day 7)] ]}.
Proof. vm_compute. reflexivity. Qed.

(** The operations of that cleanup. *)
Example cleanup_three_days_trace :
  events (ErrorHandler.cleanup_old_error_logs (Some 3) stored_world)
  = [EvFile (OpenWrite "data/errors/error_context.tmp");
     EvFile (WriteLine "data/errors/error_context.tmp"
               (json_dumps (record_of_day 8)));
     EvFile (WriteLine "data/errors/error_context.tmp"
               (json_dumps (record_of_day 7)));
     EvFile (Replace "data/errors/error_context.tmp"
               "data/errors/error_context.jsonl")].
Proof. vm_compute. reflexivity. Qed.

(** A retention of a million days on day 10 of the year 1 puts the cutoff
    before the first [datetime]: the error is caught and nothing changes;
    so it is with more days than a [timedelta] can hold. *)
Example cleanup_cutoff_out_of_range :
  ErrorHandler.cleanup_old_error_logs (Some 1000000) stored_world
  = mkOutcome (inl tt) stored_world []
  /\ ErrorHandler.cleanup_old_error_logs (Some 1000000000) stored_world
     = mkOutcome (inl tt) stored_world [].
Proof. split; reflexivity. Qed.

(** A store with a line whose decoding raises an exception that the loop
    does not catch: the history is pruned, the copy stops at that line, the
    store stays as it was and the temporary file is left behind. *)
Definition broken_world : World Z :=
  mkWorld 864000
    {[ "data/errors/error_context.jsonl" :=
         [json_dumps (record_of_day 8); "!oops"; json_dumps (record_of_day 5)] ]}
    (mkErrorHandler "data/errors" RetentionConfig_default
       [record_of_day 5; record_of_day 8] ∅ ∅)
    [].

Example cleanup_interrupted :
  let o := ErrorHandler.cleanup_old_error_logs (Some 3) broken_world in
  value o = inl tt
  /\ error_history (handler (world o)) = [record_of_day 8]
  /\ files (world o) !! "data/errors/error_context.jsonl"
     = Some [json_dumps (record_of_day 8); "!oops"; json_dumps (record_of_day 5)]
  /\ files (world o) !! "data/errors/error_context.tmp"
     = Some [json_dumps (record_of_day 8)].
Proof. vm_compute. repeat split. Qed.

Lemma stored_lines_decodable : decodable stored_lines.
Proof. repeat constructor; intros e; discriminate. Qed.

(** A world on day 10 whose history and store have a record of day 7,
    the very instant of the cutoff of a retention of three days. *)
Definition boundary_world : World Z :=
  mkWorld 864000
    {[ "data/errors/error_context.jsonl" :=
         [json_dumps (record_of_day 5); json_dumps (record_of_day 7);
          json_dumps (record_of_day 8)] ]}
    (mkErrorHandler "data/errors" RetentionConfig_default
       [record_of_day 5; record_of_day 7; record_of_day 8] ∅ ∅)
    [].

Example cleanup_at_the_cutoff :
  let o := ErrorHandler.cleanup_old_error_logs (Some 3) boundary_world in
  error_history (handler (world o)) = [record_of_day 7; record_of_day 8]
  /\ files (world o) !! "data/errors/error_context.jsonl"
     = Some [json_dumps (record_of_day 7); json_dumps (record_of_day 8)].
Proof. vm_compute. split; reflexivity. Qed.


Lemma stored_cutoff_in_range : cutoff_in_range (now (env stored_world)) 3.
Proof. unfold cutoff_in_range. vm_compute. repeat split; discriminate. Qed.


(** ** The scheduler *)

Section NextRunTime.
Context {E : Type} `{Runtime E} `{Collaborators E}.

(** C10: for a configuration without cron expression (interval mode),
    [get_next_run_time] returns [None]; an instant is returned only in cron
    mode, and it is then the next instant of the expression after now. *)
Theorem get_next_run_time_interval (config : ScheduleConfig) (e : E) :
  (poll_cron config = None \/ poll_cron config = Some "" ->
   Scheduler.get_next_run_time config e = None)
  /\ (forall next_run,
        Scheduler.get_next_run_time config e = Some next_run ->
        exists expr tz,
          poll_cron config = Some expr /\ expr <> ""
          /\ pytz_timezone (timezone config) = inl tz
          /\ croniter_get_next expr tz (now e) = inl next_run).
Proof.
  unfold Scheduler.get_next_run_time. split.
  - intros [-> | ->]; reflexivity.
  - intros next_run. destruct (poll_cron config) as [[|c expr] |]; cbn;
      try discriminate.
    destruct (pytz_timezone (timezone config)) as [tz | err]; [| discriminate].
    destruct (croniter_get_next (String c expr) tz (now e)) as [t | err] eqn:Hnext;
      [| discriminate].
    intros [= <-]. exists (String c expr), tz.
    repeat split; [discriminate | exact Hnext].
Qed.

End NextRunTime.

Lemma get_next_run_time_interval_witness :
  (poll_cron (mkScheduleConfig 60 None "UTC") = None
   \/ poll_cron (mkScheduleConfig 60 None "UTC") = Some "")
  /\ Scheduler.get_next_run_time (mkScheduleConfig 60 None "UTC") (0 : Z) = None.
Proof.
  assert (Hmode : poll_cron (mkScheduleConfig 60 None "UTC") = None
                  \/ poll_cron (mkScheduleConfig 60 None "UTC") = Some "")
    by (left; reflexivity).
  split; [exact Hmode |].
  exact (proj1 (get_next_run_time_interval (mkScheduleConfig 60 None "UTC") 0)
           Hmode).
Defined.

Example next_run_time_cron :
  Scheduler.get_next_run_time (mkScheduleConfig 60 (Some "0 9 * * *") "UTC")
    (10 : Z) = Some 70000000.
Proof. reflexivity. Qed.

(** ** The parallel executor *)

Section ParallelExecution.
Context {E : Type} `{Runtime E} `{Collaborators E}.
Import ParallelActionExecutor.

(** The outcome [r] tells what the callable [f] did when it ran. *)
Definition outcome_matches (f : Action E) (r : ActionResult) : Prop :=
  exists w0,
    match value (f w0) with
    | inl _ => success r = true /\ ar_error_message r = None
    | inr e => success r = false /\ ar_error_message r = Some (exn_msg e)
    end.

Definition future_reports (fut : string * Action E) (r : ActionResult) : Prop :=
  action_name r = fst fut /\ outcome_matches (snd fut) r.

(** The events of [_execute_action] are those of the callable, then the
    record of its error if it raised; the objects are those the callable
    leaves. *)
Lemma execute_action_run (action_name0 : string) (f : Action E) (w : World E) :
  exists r w' evs,
    _execute_action action_name0 f w
    = mkOutcome (inl r) w' (events (f w) ++ evs)
    /\ future_reports (action_name0, f) r
    /\ heap w' = heap (world (f w))
    /\ Forall is_handled evs.
Proof.
  unfold _execute_action, future_reports, outcome_matches.
  erewrite bind_inl; [| reflexivity].
  erewrite bind_inl; [| apply try_run].
  cbn [value world events].
  destruct (value (f w)) as [u | e] eqn:Hv.
  - erewrite bind_inl; [| reflexivity].
    exists (mkActionResult action_name0 true
              (time (env (world (f w))) - time (env w)) None),
      (world (f w)), [].
    split; [reflexivity |]. split; [| split; [reflexivity | constructor]].
    split; [reflexivity |]. exists w. cbn [fst snd]. now rewrite Hv.
  - erewrite bind_inl; [| reflexivity].
    match goal with
    | |- context [ErrorHandler.handle_error e ?c ?s ?co ?op ?d ?rc ?mr] =>
        destruct (handle_error_run e c s co op d rc mr (world (f w)))
          as (ctx & w3 & Hrun & _ & _ & _ & _ & _ & _ & Hheap)
    end.
    erewrite bind_inl; [| exact Hrun].
    exists (mkActionResult action_name0 false
              (time (env (world (f w))) - time (env w)) (Some (exn_msg e))),
      w3, [EvHandled ctx].
    split; [reflexivity |]. split; [| split; [exact Hheap |]].
    + split; [reflexivity |]. exists w. cbn [fst snd]. now rewrite Hv.
    + constructor; [eexists; reflexivity | constructor].
Qed.

(** The callable leaves the objects as they are and emits events in [Q]. *)
Definition confined (Q : Event -> Prop) (f : Action E) : Prop :=
  forall w0, heap (world (f w0)) = heap w0 /\ Forall Q (events (f w0)).

(** An event of the loop that collects the results of callables confined
    to [Q]. *)
Definition collect_event (Q : Event -> Prop) (ev : Event) : Prop :=
  Q ev \/ is_handled ev \/ exists r, ev = EvCollect r.

Lemma collect_run (completed : list (string * Action E))
    (results : list ActionResult) (w : World E) :
  exists collected w' evs,
    collect completed results w = mkOutcome (inl (results ++ collected)) w' evs
    /\ Forall2 future_reports completed collected
    /\ (forall r, In r collected -> In (EvCollect r) evs)
    /\ forall Q, Forall (fun fut => confined Q (snd fut)) completed ->
         heap w' = heap w /\ Forall (collect_event Q) evs.
Proof.
  revert results w. induction completed as [|[n f] rest IH]; intros results w.
  - exists [], w, []. rewrite app_nil_r. split; [reflexivity |].
    split; [constructor |]. split; [intros r [] |].
    intros Q _. split; [reflexivity | constructor].
  - cbn [collect].
    destruct (execute_action_run n f w)
      as (r & w1 & evs1 & Hrun & Hrep & Hheap1 & Hevs1).
    erewrite bind_inl; [| rewrite try_run, Hrun; reflexivity].
    cbn [value world events].
    destruct (IH (results ++ [r]) w1)
      as (collected & w2 & evs2 & Hrest & Hall & Hcol & Hframe).
    erewrite bind_inl; [| reflexivity].
    rewrite Hrest. cbn [value world events].
    exists (r :: collected), w2. eexists. split.
    { rewrite <- app_assoc. reflexivity. }
    split; [now constructor |]. split.
    + intros r' [<- | Hin].
      * apply in_or_app. right. apply in_or_app. left. now left.
      * apply in_or_app. right. apply in_or_app. right. cbn. now apply Hcol.
    + intros Q HQ. inversion HQ as [| ? ? Hf Hrest']; subst.
      destruct (Hf w) as [Hhf Hef]. cbn [snd] in *.
      destruct (Hframe Q Hrest') as [Hheap2 Hevs2].
      split; [congruence |].
      apply Forall_app. split.
      * apply Forall_app. split.
        -- eapply Forall_impl; [exact Hef |]. intros ev Hev. now left.
        -- eapply Forall_impl; [exact Hevs1 |]. intros ev Hev. right. now left.
      * apply Forall_app. split; [| exact Hevs2].
        constructor; [| constructor]. right. right. eexists; reflexivity.
Qed.

(** The futures that the submission loop creates, and the outcomes of the
    actions it rejects. *)
Fixpoint futures_of (actions : list (ActionDict E)) : list (string * Action E) :=
  match actions with
  | [] => []
  | action :: rest =>
      match function action with
      | Some f => (default "unknown" (name action), f) :: futures_of rest
      | None => futures_of rest
      end
  end.

Fixpoint rejected_of (actions : list (ActionDict E)) : list ActionResult :=
  match actions with
  | [] => []
  | action :: rest =>
      match function action with
      | Some _ => rejected_of rest
      | None =>
          mkActionResult (default "unknown" (name action)) false 0
            (Some "No function provided") :: rejected_of rest
      end
  end.

Lemma submit_all_run (actions : list (ActionDict E)) (results : list ActionResult)
    (futures : list (string * Action E)) (w : World E) :
  submit_all actions results futures w
  = mkOutcome (inl (results ++ rejected_of actions, futures ++ futures_of actions))
      w (map (fun fut => EvSubmit (fst fut)) (futures_of actions)).
Proof.
  revert results futures.
  induction actions as [|action rest IH]; intros results futures.
  - cbn. now rewrite !app_nil_r.
  - cbn [submit_all futures_of rejected_of].
    destruct (function action) as [f |].
    + erewrite bind_inl; [| reflexivity].
      rewrite IH. cbn [value world events map fst app].
      now rewrite <- app_assoc.
    + rewrite IH. now rewrite <- app_assoc.
Qed.

(** A batch that is not empty is submitted, then collected in the order
    of completion. *)
Lemma execute_parallel_unfold (sched : list nat) (actions : list (ActionDict E))
    (w : World E) :
  actions <> [] ->
  let c := collect
             (as_completed sched (length (futures_of actions)) (futures_of actions))
             (rejected_of actions) w in
  execute_parallel sched actions w
  = mkOutcome (value c) (world c)
      (map (fun fut => EvSubmit (fst fut)) (futures_of actions) ++ events c).
Proof.
  intros Hne c. unfold execute_parallel.
  destruct actions as [|action rest]; [contradiction |].
  erewrite bind_inl; [| apply submit_all_run].
  reflexivity.
Qed.

Lemma as_completed_perm {A} (n : nat) (sched : list nat) (running : list A) :
  length running = n -> Permutation (as_completed sched n running) running.
Proof.
  revert sched running. induction n as [|n IH]; intros sched running Hlen.
  - destruct running; [constructor | discriminate].
  - cbn [as_completed].
    assert (Hi : (hd O sched mod length running < length running)%nat)
      by (apply Nat.mod_upper_bound; lia).
    destruct (lookup_lt_is_Some_2 _ _ Hi) as [fut Hfut].
    rewrite Hfut. etransitivity; [| symmetry; apply (delete_Permutation _ _ _ Hfut)].
    constructor. apply IH. rewrite length_delete by eauto. lia.
Qed.

Lemma filter_length_perm {A} (p : A -> bool) (l l' : list A) :
  Permutation l l' -> length (List.filter p l) = length (List.filter p l').
Proof.
  induction 1 as [| x l l' _ IH | x y l | l l' l'' _ IH1 _ IH2]; cbn.
  - reflexivity.
  - destruct (p x); cbn; now rewrite IH.
  - destruct (p x), (p y); reflexivity.
  - now rewrite IH1.
Qed.

(** The outcomes that report a failure. *)
Definition failures (results : list ActionResult) : list ActionResult :=
  List.filter (fun r => negb (success r)) results.

(** What [_execute_action] returns for the callable [f] of the action
    [n] when it runs in the world [w]: a success if [f] returns there, a
    failure with the message of the error if [f] raises there. *)
Definition outcome_at (n : string) (f : Action E) (w : World E) : ActionResult :=
  let duration := (time (env (world (f w))) - time (env w))%Q in
  match value (f w) with
  | inl _ => mkActionResult n true duration None
  | inr e => mkActionResult n false duration (Some (exn_msg e))
  end.

(** The world that [_execute_action] leaves: the one that the callable
    leaves, with the record of its error when it raised. *)
Definition world_after (n : string) (f : Action E) (w : World E) : World E :=
  match value (f w) with
  | inl _ => world (f w)
  | inr e =>
      world
        (ErrorHandler.handle_error e SYSTEM_RESOURCE MEDIUM
           "ParallelActionExecutor" ("execute_" +:+ n)
           (Some [("action_name", PStr n);
                  ("duration",
                   PNum (time (env (world (f w))) - time (env w))%Q)])
           0 0 (world (f w)))
  end.

(** The futures run one at a time in the order [completed], the first in
    the world [w] and each other one in the world that the one before it
    leaves: every future with the world in which it runs. *)
Fixpoint run_of (completed : list (string * Action E)) (w : World E)
  : list (string * Action E * World E) :=
  match completed with
  | [] => []
  | (n, f) :: rest => (n, f, w) :: run_of rest (world_after n f w)
  end.

(** The world that the last of them leaves. *)
Fixpoint final_world (completed : list (string * Action E)) (w : World E)
  : World E :=
  match completed with
  | [] => w
  | (n, f) :: rest => final_world rest (world_after n f w)
  end.

Definition outcome_of (step : string * Action E * World E) : ActionResult :=
  let '(n, f, w) := step in outcome_at n f w.

Lemma execute_action_at (n : string) (f : Action E) (w : World E) :
  exists evs,
    _execute_action n f w
    = mkOutcome (inl (outcome_at n f w)) (world_after n f w) evs.
Proof.
  unfold _execute_action, outcome_at, world_after.
  erewrite bind_inl; [| reflexivity].
  erewrite bind_inl; [| apply try_run].
  cbn [value world events].
  destruct (value (f w)) as [u | e] eqn:Hv.
  - erewrite bind_inl; [| reflexivity]. eexists. reflexivity.
  - erewrite bind_inl; [| reflexivity].
    cbn [value world events].
    match goal with
    | |- context [ErrorHandler.handle_error e ?c ?s ?co ?op ?d ?rc ?mr ?w1] =>
        destruct (handle_error_run e c s co op d rc mr w1)
          as (ctx & w3 & Hrun & _)
    end.
    erewrite bind_inl; [| exact Hrun]. rewrite Hrun.
    eexists. reflexivity.
Qed.

(** The loop that collects the results returns the outcome of every
    future at the world in which the future ran, and leaves the world that
    the last future leaves. *)
Lemma collect_at (completed : list (string * Action E))
    (results : list ActionResult) (w : World E) :
  exists evs,
    collect completed results w
    = mkOutcome (inl (results ++ map outcome_of (run_of completed w)))
        (final_world completed w) evs.
Proof.
  revert results w. induction completed as [|[n f] rest IH]; intros results w.
  - exists []. cbn. now rewrite app_nil_r.
  - cbn [collect run_of final_world map outcome_of].
    destruct (execute_action_at n f w) as [evs1 Hrun].
    erewrite bind_inl; [| rewrite try_run, Hrun; reflexivity].
    cbn [value world events].
    erewrite bind_inl; [| reflexivity]. cbn [value world events].
    destruct (IH (results ++ [outcome_at n f w]) (world_after n f w))
      as [evs2 Hrest].
    rewrite Hrest. cbn [value world events].
    rewrite <- app_assoc. eexists. reflexivity.
Qed.

Lemma run_of_futures (completed : list (string * Action E)) (w : World E) :
  map fst (run_of completed w) = completed.
Proof.
  revert w. induction completed as [|[n f] rest IH]; intros w;
    [reflexivity |].
  cbn [run_of map fst]. now rewrite IH.
Qed.

Lemma submitted_or_rejected (actions : list (ActionDict E)) :
  (length (rejected_of actions) + length (futures_of actions))%nat
  = length actions.
Proof.
  induction actions as [|action rest IH]; [reflexivity |].
  cbn [rejected_of futures_of]. destruct (function action); cbn [length]; lia.
Qed.

(** C7: [execute_parallel] runs every action that has a callable exactly
    once, in the order in which the pool completes them, each in the world
    that the one before it leaves, and returns one outcome for each action
    of the batch: for an action without callable the failure "No function
    provided", and for every other action the outcome of its callable where
    it ran, a success if it returned there and a failure with the message
    of its error if it raised there.  The effects of every callable, and
    the record of every error, are in the world that the call leaves, so
    no failure keeps another action from running or from being reported
    (an error is an instance of [Exception], as everywhere in this
    development).
    In particular, in a batch of three actions A, B, C in which B raises
    where it runs and A and C return where they run, there are three
    outcomes and one failure: that of B, with the message of its error. *)
Theorem execute_parallel_isolates_failures (sched : list nat)
    (actions : list (ActionDict E)) (w : World E) :
  let o := execute_parallel sched actions w in
  let completed :=
    as_completed sched (length (futures_of actions)) (futures_of actions) in
  let run := run_of completed w in
  let results := rejected_of actions ++ map outcome_of run in
  Permutation completed (futures_of actions)
  /\ value o = inl results
  /\ world o = final_world completed w
  /\ length results = length actions
  /\ forall (fA fB fC : Action E) (eB : Exn),
       actions = [mkAction (Some "A") (Some fA);
                  mkAction (Some "B") (Some fB);
                  mkAction (Some "C") (Some fC)] ->
       (forall n f w0, In (n, f, w0) run ->
          if String.eqb n "B" then value (f w0) = inr eB
          else value (f w0) = inl tt) ->
       exists rA rB rC,
         Permutation results [rA; rB; rC]
         /\ failures results = [rB]
         /\ (action_name rA = "A" /\ success rA = true)
         /\ (action_name rB = "B" /\ success rB = false
             /\ ar_error_message rB = Some (exn_msg eB))
         /\ (action_name rC = "C" /\ success rC = true).
Proof.
  intros o completed run results.
  assert (Hperm : Permutation completed (futures_of actions))
    by (apply as_completed_perm; reflexivity).
  split; [exact Hperm |]. subst run results.
  assert (Ho : value o = inl (rejected_of actions
                               ++ map outcome_of (run_of completed w))
               /\ world o = final_world completed w).
  { subst o.
    assert (Hcases : actions = [] \/ actions <> [])
      by (destruct actions; [left; reflexivity | right; discriminate]).
    destruct Hcases as [Hnil | Hne].
    - subst completed. rewrite Hnil. split; reflexivity.
    - rewrite execute_parallel_unfold by exact Hne.
      cbn [value world]. fold completed.
      destruct (collect_at completed (rejected_of actions) w) as [evs Hcol].
      rewrite Hcol. split; reflexivity. }
  destruct Ho as [Hv Hw]. split; [exact Hv |]. split; [exact Hw |].
  split.
  { rewrite length_app, length_map, <- (length_map fst), run_of_futures.
    rewrite (Permutation_length Hperm). apply submitted_or_rejected. }
  intros fA fB fC eB Hactions Hrun.
  rewrite Hactions in Hperm |- *.
  cbn [futures_of rejected_of function name app] in Hperm |- *.
  unfold default, from_option, id in Hperm.
  assert (Hsteps : Forall2 (fun fut step => fst step = fut) completed
                     (run_of completed w)).
  { rewrite <- (run_of_futures completed w) at 1.
    clear. induction (run_of completed w) as [|step l IH]; constructor; auto. }
  destruct (Permutation_Forall2 Hperm Hsteps) as (ordered & Hp & Hord).
  inversion Hord as [| ? [[nA gA] wA] ? ? HsA Hord1]; subst.
  inversion Hord1 as [| ? [[nB gB] wB] ? ? HsB Hord2]; subst.
  inversion Hord2 as [| ? [[nC gC] wC] ? ? HsC Hord3]; subst.
  inversion Hord3; subst.
  cbn [fst] in HsA, HsB, HsC.
  injection HsA as -> ->. injection HsB as -> ->. injection HsC as -> ->.
  assert (HA : value (fA wA) = inl tt).
  { apply (Hrun "A"). apply (Permutation_in _ (Permutation_sym Hp)). now left. }
  assert (HB : value (fB wB) = inr eB).
  { apply (Hrun "B"). apply (Permutation_in _ (Permutation_sym Hp)).
    right. now left. }
  assert (HC : value (fC wC) = inl tt).
  { apply (Hrun "C"). apply (Permutation_in _ (Permutation_sym Hp)).
    right. right. now left. }
  clearbody completed.
  set (results := map outcome_of (run_of completed w)).
  assert (Hpr : Permutation results
                  [outcome_at "A" fA wA; outcome_at "B" fB wB;
                   outcome_at "C" fC wC])
    by (apply (Permutation_map outcome_of) in Hp; exact Hp).
  exists (outcome_at "A" fA wA), (outcome_at "B" fB wB), (outcome_at "C" fC wC).
  split; [exact Hpr |].
  assert (HsA : success (outcome_at "A" fA wA) = true)
    by (unfold outcome_at; now rewrite HA).
  assert (HsB : success (outcome_at "B" fB wB) = false)
    by (unfold outcome_at; now rewrite HB).
  assert (HsC : success (outcome_at "C" fC wC) = true)
    by (unfold outcome_at; now rewrite HC).
  split.
  - assert (Hfail : failures [outcome_at "A" fA wA; outcome_at "B" fB wB;
                              outcome_at "C" fC wC] = [outcome_at "B" fB wB])
      by (unfold failures; cbn [List.filter]; now rewrite HsA, HsB, HsC).
    assert (Hlen : length (failures results) = 1%nat).
    { unfold failures. rewrite (filter_length_perm _ _ _ Hpr).
      fold (failures [outcome_at "A" fA wA; outcome_at "B" fB wB;
                      outcome_at "C" fC wC]).
      now rewrite Hfail. }
    assert (Hin : forall r, In r (failures results) -> r = outcome_at "B" fB wB).
    { intros r Hr. unfold failures in Hr. apply filter_In in Hr.
      destruct Hr as [Hr Hs].
      apply (Permutation_in _ Hpr) in Hr.
      destruct Hr as [<- | [<- | [<- | []]]];
        [rewrite HsA in Hs; discriminate | reflexivity
        | rewrite HsC in Hs; discriminate]. }
    destruct (failures results) as [|r [|r' l]]; try discriminate.
    f_equal. apply Hin. now left.
  - unfold outcome_at. rewrite HA, HB, HC. cbn.
    repeat split; reflexivity.
Qed.

End ParallelExecution.

(** The scenario of the three actions, with the pool finishing C first. *)
Definition action_ok : ParallelActionExecutor.Action Z := ret tt.
Definition action_boom : ParallelActionExecutor.Action Z :=
  raise (mkExn "RuntimeError" "boom").
Definition three_actions : list (ParallelActionExecutor.ActionDict Z) :=
  [ParallelActionExecutor.mkAction (Some "A") (Some action_ok);
   ParallelActionExecutor.mkAction (Some "B") (Some action_boom);
   ParallelActionExecutor.mkAction (Some "C") (Some action_ok)].

Example three_actions_completion_order :
  value (ParallelActionExecutor.execute_parallel [2; 1; 0]%nat three_actions
           (Demo.demo_world 0))
  = inl [mkActionResult "C" true (0 - 0) None;
         mkActionResult "B" false (0 - 0) (Some "boom");
         mkActionResult "A" true (0 - 0) None].
Proof. reflexivity. Qed.

Example missing_function_fails_at_once :
  value (ParallelActionExecutor.execute_parallel []
           [ParallelActionExecutor.mkAction None None;
            ParallelActionExecutor.mkAction (Some "A") (Some action_ok)]
           (Demo.demo_world 0))
  = inl [mkActionResult "unknown" false 0 (Some "No function provided");
         mkActionResult "A" true (0 - 0) None].
Proof. reflexivity. Qed.

(** Two callables that depend on the state: one advances the clock, the
    other raises only while the clock shows 0. *)
Definition action_tick : ParallelActionExecutor.Action Z :=
  modify (fun w => set_env (env w + 1) w).

Definition action_moody : ParallelActionExecutor.Action Z :=
  fun w =>
    if env w =? 0 then raise (mkExn "RuntimeError" "too early") w
    else ret tt w.

Definition moody_actions : list (ParallelActionExecutor.ActionDict Z) :=
  [ParallelActionExecutor.mkAction (Some "A") (Some action_tick);
   ParallelActionExecutor.mkAction (Some "B") (Some action_moody);
   ParallelActionExecutor.mkAction (Some "C") (Some action_ok)].

(** When the pool completes B first, B runs at the instant 0 and fails,
    and A still advances the clock, to 1. *)
Example moody_completes_first :
  let o := ParallelActionExecutor.execute_parallel [1; 0; 0]%nat moody_actions
             (Demo.demo_world 0) in
  value o
  = inl [mkActionResult "B" false (0 - 0) (Some "too early");
         mkActionResult "A" true (1 - 0) None;
         mkActionResult "C" true (1 - 1) None]
  /\ env (world o) = 1
  /\ length (error_history (handler (world o))) = 1%nat.
Proof. vm_compute. repeat split. Qed.

(** When the pool completes A first, B runs at the instant 1 and returns. *)
Example moody_completes_second :
  value (ParallelActionExecutor.execute_parallel [0; 0; 0]%nat moody_actions
           (Demo.demo_world 0))
  = inl [mkActionResult "A" true (1 - 0) None;
         mkActionResult "B" true (1 - 1) None;
         mkActionResult "C" true (1 - 1) None].
Proof. reflexivity. Qed.

(** The run of the three actions when the pool completes B first. *)
Definition moody_run
  : list (string * ParallelActionExecutor.Action Z * World Z) :=
  run_of
    (ParallelActionExecutor.as_completed [1; 0; 0]%nat 3
       (futures_of moody_actions))
    (Demo.demo_world 0).

Lemma moody_run_raises_in_B (n : string) (f : ParallelActionExecutor.Action Z)
    (w0 : World Z) :
  In (n, f, w0) moody_run ->
  if String.eqb n "B" then value (f w0) = inr (mkExn "RuntimeError" "too early")
  else value (f w0) = inl tt.
Proof.
  intros Hin.
  assert (Hrun : moody_run
                 = [("B", action_moody, Demo.demo_world 0);
                    ("A", action_tick,
                     world_after "B" action_moody (Demo.demo_world 0));
                    ("C", action_ok,
                     world_after "A" action_tick
                       (world_after "B" action_moody (Demo.demo_world 0)))])
    by reflexivity.
  rewrite Hrun in Hin.
  destruct Hin as [[= <- <- <-] | [[= <- <- <-] | [[= <- <- <-] | []]]];
    reflexivity.
Qed.

Lemma execute_parallel_isolates_failures_witness :
  (forall n f w0, In (n, f, w0) moody_run ->
     if String.eqb n "B"
     then value (f w0) = inr (mkExn "RuntimeError" "too early")
     else value (f w0) = inl tt)
  /\ exists rA rB rC,
       Permutation (rejected_of moody_actions ++ map outcome_of moody_run)
         [rA; rB; rC]
       /\ failures (rejected_of moody_actions ++ map outcome_of moody_run)
          = [rB]
       /\ (action_name rA = "A" /\ success rA = true)
       /\ (action_name rB = "B" /\ success rB = false
           /\ ar_error_message rB
              = Some (exn_msg (mkExn "RuntimeError" "too early")))
       /\ (action_name rC = "C" /\ success rC = true).
Proof.
  split; [exact moody_run_raises_in_B |].
  exact (proj2 (proj2 (proj2 (proj2
           (execute_parallel_isolates_failures [1; 0; 0]%nat moody_actions
              (Demo.demo_world 0)))))
           action_tick action_moody action_ok
           (mkExn "RuntimeError" "too early") eq_refl moody_run_raises_in_B).
Defined.

(** ** The two waves of the publish phase *)

Section Waves.
Context {E : Type} `{Runtime E} `{Collaborators E}.
Variable self : ControllerConfig.
Import ParallelActionExecutor.

(** The events that the callables of the first wave emit. *)
Definition first_wave_event (ev : Event) : Prop :=
  (exists p, ev = EvUpload p) \/ (exists s, ev = EvCreateLog s).

Lemma extern_run {A} (f : E -> (A + Exn) * E) (w : World E) :
  heap (world (extern f w)) = heap w /\ events (extern f w) = [].
Proof. unfold extern. destruct (f (env w)). split; reflexivity. Qed.

Lemma upload_confined (csv_path remote : string) :
  confined first_wave_event (upload_csv_action csv_path remote).
Proof.
  intros w0. unfold upload_csv_action.
  erewrite bind_inl; [| reflexivity]. cbn [value world events].
  match goal with |- context [extern ?f w0] =>
    destruct (extern_run f w0) as [Hh He] end.
  rewrite Hh, He. split; [reflexivity |].
  constructor; [| constructor]. left. eexists; reflexivity.
Qed.

Lemma create_log_confined (date_folder : string) (stats : nat) :
  confined first_wave_event (s <- load stats ;; create_log_action date_folder s).
Proof.
  intros w0.
  destruct (heap w0 !! stats) as [s |] eqn:Hs.
  - assert (Hload : load stats w0 = mkOutcome (inl s) w0 [])
      by (unfold load; now rewrite Hs).
    erewrite bind_inl; [| exact Hload].
    cbn [value world events]. unfold create_log_action.
    erewrite bind_inl; [| reflexivity]. cbn [value world events].
    match goal with |- context [bind (extern ?f) _ w0] =>
      destruct (extern_run f w0) as [Hh He];
      destruct (extern f w0) as [[v | e] w1 evs] eqn:Hx end;
      cbn [value world events] in *; subst evs.
    + erewrite bind_inl; [| exact Hx]. cbn [value world events ret app].
      split; [exact Hh |].
      constructor; [right; eexists; reflexivity | constructor].
    + erewrite bind_inr; [| exact Hx]. cbn [value world events app].
      split; [exact Hh |].
      constructor; [right; eexists; reflexivity | constructor].
  - assert (Hload : load stats w0
                    = mkOutcome (inr (mkExn "ReferenceError" "no such object")) w0 [])
      by (unfold load; now rewrite Hs).
    erewrite bind_inr; [| exact Hload].
    split; [reflexivity | constructor].
Qed.

(** A batch of one action. *)
Lemma execute_parallel_single (sched : list nat) (n : string) (f : Action E)
    (w : World E) :
  exists r w' evs,
    execute_parallel sched [mkAction (Some n) (Some f)] w
    = mkOutcome (inl [r]) w' (EvSubmit n :: events (f w) ++ evs).
Proof.
  rewrite execute_parallel_unfold by discriminate.
  cbn [futures_of rejected_of function name default length map fst app
       as_completed hd].
  replace (hd O sched mod 1)%nat with O by (symmetry; apply Nat.mod_1_r).
  cbn [lookup list_lookup delete list_delete as_completed collect].
  unfold id.
  destruct (execute_action_run n f w) as (r & w1 & evs1 & Hrun & _).
  erewrite bind_inl; [| rewrite try_run, Hrun; reflexivity].
  cbn [value world events].
  erewrite bind_inl; [| reflexivity]. cbn [value world events ret app].
  exists r, w1. eexists. rewrite <- app_assoc. reflexivity.
Qed.

(** The reference that [alloc] returns is live: it is the reference that
    [run_processing_cycle] passes to [_execute_parallel_actions]. *)
Lemma alloc_live (s : ProcessingStats) (w : World E) :
  exists stats,
    value (alloc s w) = inl stats /\ heap (world (alloc s w)) !! stats = Some s.
Proof.
  exists (length (heap w)). split; [reflexivity |].
  cbn [alloc world heap set_heap]. now apply list_lookup_middle.
Qed.

(** The first wave: both actions are submitted, both run and both outcomes
    are collected; the objects are left as they are. *)
Lemma first_wave_run (sched1 : list nat) (date_folder csv_path : string)
    (stats : nat) (w : World E) :
  let o1 := execute_parallel sched1
              (MainController.initial_actions self date_folder csv_path stats) w in
  exists initial_results r_up r_log evs1,
    value o1 = inl initial_results
    /\ events o1 = EvSubmit "upload_csv" :: EvSubmit "create_log" :: evs1
    /\ Forall (collect_event first_wave_event) evs1
    /\ Permutation initial_results [r_up; r_log]
    /\ action_name r_up = "upload_csv"
    /\ action_name r_log = "create_log"
    /\ (forall r, In r initial_results -> In (EvCollect r) evs1)
    /\ heap (world o1) = heap w.
Proof.
  intros o1. subst o1.
  rewrite execute_parallel_unfold by discriminate.
  unfold MainController.initial_actions.
  cbn [futures_of rejected_of function name length map fst app].
  unfold default, from_option, id.
  match goal with
  | |- context [collect ?c [] w] => set (completed := c)
  end.
  destruct (collect_run completed [] w)
    as (collected & w1 & evs1 & Hcol & Hall & Hin & Hframe).
  rewrite Hcol. cbn [value world events app].
  assert (Hperm : Permutation completed
            [("upload_csv", upload_csv_action csv_path (dest_remote_path self));
             ("create_log",
              s <- load stats ;; create_log_action date_folder s)])
    by (apply as_completed_perm; reflexivity).
  destruct (Permutation_Forall2 Hperm Hall) as (in_order & Hp & Hord).
  inversion Hord as [| ? r_up ? ? [Hn_up _] Hord1]; subst.
  inversion Hord1 as [| ? r_log ? ? [Hn_log _] Hord2]; subst.
  inversion Hord2; subst.
  destruct (Hframe first_wave_event) as [Hheap Hevs].
  { rewrite Hperm.
    constructor; [apply upload_confined |].
    constructor; [apply create_log_confined | constructor]. }
  exists collected, r_up, r_log, evs1.
  split; [reflexivity |]. split; [reflexivity |]. split; [exact Hevs |].
  split; [exact Hp |]. split; [exact Hn_up |]. split; [exact Hn_log |].
  split; [exact Hin | exact Hheap].
Qed.

(** C1: the notification action is submitted after both actions of the
    first wave were submitted, have run and had their outcomes collected;
    the first wave submits no notification; and the statistics that the
    notification action reads are those of the cycle with the upload
    status and the name of the log set from the outcomes of the first
    wave. *)
Theorem notification_after_first_wave (sched1 sched2 : list nat)
    (date_folder csv_path : string) (stats : nat) (s0 : ProcessingStats)
    (w : World E) :
  heap w !! stats = Some s0 ->
  let o1 := execute_parallel sched1
              (MainController.initial_actions self date_folder csv_path stats) w in
  let o := MainController._execute_parallel_actions self sched1 sched2
             date_folder csv_path stats w in
  exists initial_results r_up r_log email_result evs1 evs2,
    value o1 = inl initial_results
    /\ events o1 = EvSubmit "upload_csv" :: EvSubmit "create_log" :: evs1
    /\ Permutation initial_results [r_up; r_log]
    /\ action_name r_up = "upload_csv"
    /\ action_name r_log = "create_log"
    /\ In (EvCollect r_up) evs1
    /\ In (EvCollect r_log) evs1
    /\ Forall (fun ev => ev <> EvSubmit "send_email"
                         /\ forall s, ev <> EvNotify s) (events o1)
    /\ let s' :=
         set_log_filename
           (MainController.log_filename_among initial_results
              (glob_processing_logs date_folder (env (world o1))))
           (set_upload_status
              (MainController._get_upload_status initial_results) s0) in
       events o = events o1 ++ EvSubmit "send_email" :: EvNotify s' :: evs2
       /\ upload_status s' = MainController._get_upload_status initial_results
       /\ log_filename s'
          = MainController.log_filename_among initial_results
              (glob_processing_logs date_folder (env (world o1)))
       /\ value o = inl (initial_results ++ [email_result]).
Proof.
  intros Hstats o1 o.
  destruct (first_wave_run sched1 date_folder csv_path stats w)
    as (initial_results & r_up & r_log & evs1 & Hv1 & He1 & Hall1 & Hperm
        & Hn_up & Hn_log & Hin & Hheap).
  fold o1 in Hv1, He1, Hheap.
  exists initial_results, r_up, r_log.
  set (s' := set_log_filename
               (MainController.log_filename_among initial_results
                  (glob_processing_logs date_folder (env (world o1))))
               (set_upload_status
                  (MainController._get_upload_status initial_results) s0)).
  (* the world in which the second wave starts *)
  set (w2 := set_heap
               (alter (set_log_filename
                         (MainController.log_filename_among initial_results
                            (glob_processing_logs date_folder (env (world o1)))))
                  stats
                  (alter (set_upload_status
                            (MainController._get_upload_status initial_results))
                     stats (heap (world o1))))
               (set_heap
                  (alter (set_upload_status
                            (MainController._get_upload_status initial_results))
                     stats (heap (world o1)))
                  (world o1))).
  assert (Hload : load stats w2 = mkOutcome (inl s') w2 []).
  { unfold load, w2. cbn [heap set_heap].
    rewrite !list_lookup_alter_eq, Hheap, Hstats. reflexivity. }
  destruct (execute_parallel_single sched2 "send_email"
              (s <- load stats ;; send_email_action s) w2)
    as (email_result & w3 & evs3 & Hrun2).
  assert (Hnotify : exists evs,
            events ((s <- load stats ;; send_email_action s) w2)
            = EvNotify s' :: evs).
  { erewrite bind_inl; [| exact Hload]. cbn [events app].
    unfold send_email_action. erewrite bind_inl; [| reflexivity].
    cbn [events app]. eexists; reflexivity. }
  destruct Hnotify as [evs_n Hnotify]. rewrite Hnotify in Hrun2.
  exists email_result, evs1, (evs_n ++ evs3).
  split; [exact Hv1 |]. split; [exact He1 |]. split; [exact Hperm |].
  split; [exact Hn_up |]. split; [exact Hn_log |].
  split; [apply Hin, (Permutation_in _ (Permutation_sym Hperm)); now left |].
  split; [apply Hin, (Permutation_in _ (Permutation_sym Hperm)); right; now left |].
  split.
  { rewrite He1. constructor; [split; [intros [=] | intros s [=]] |].
    constructor; [split; [intros [=] | intros s [=]] |].
    eapply Forall_impl; [exact Hall1 |].
    intros ev [[[p ->] | [s ->]] | [[ctx ->] | [r ->]]];
      (split; [intros [=] | intros s1 [=]]). }
  pose proof (outcome_eta o1) as Ho1. rewrite Hv1 in Ho1.
  subst o. unfold MainController._execute_parallel_actions.
  erewrite bind_inl; [| exact Ho1].
  erewrite bind_inl; [| reflexivity].
  erewrite bind_inl; [| reflexivity].
  erewrite bind_inl; [| reflexivity].
  unfold MainController.email_action.
  cbn [value world events update modify MainController._get_log_filename gets].
  fold w2. erewrite bind_inl; [| exact Hrun2].
  cbn [value world events ret app]. rewrite !app_nil_r.
  repeat split; reflexivity.
Qed.

End Waves.

(** A cycle of the demo: the statistics object is the first of the heap. *)
Definition demo_stats : ProcessingStats :=
  mkProcessingStats "2025-11-24" 0 0 [("type3", 1)]
    [mkDownloadResult "type3" "a.docx" 10 true None] 1 1
    "20251124_output.csv" 120 "Pending" "" false [].

Definition demo_config : ControllerConfig :=
  mkControllerConfig ["type3"; "type6"] "/incoming" "/outgoing".

Definition demo_cycle_world : World Z :=
  mkWorld 0 ∅ Demo.demo_handler [demo_stats].

Example waves_in_order :
  map (fun ev =>
         match ev with
         | EvSubmit n => "submit " +:+ n
         | EvCollect r => "collect " +:+ action_name r
         | EvUpload _ => "upload runs"
         | EvCreateLog _ => "log runs"
         | EvNotify s => "notify " +:+ upload_status s +:+ " " +:+ log_filename s
         | _ => "other"
         end)
    (events (MainController._execute_parallel_actions demo_config [1%nat] []
               "/data/2025-11-24" "/data/2025-11-24/20251124_output.csv" 0
               demo_cycle_world))
  = ["submit upload_csv"; "submit create_log"; "log runs"; "collect create_log";
     "upload runs"; "collect upload_csv"; "submit send_email";
     "notify SUCCESS processing_log_1.txt"; "collect send_email"].
Proof. reflexivity. Qed.

Lemma notification_after_first_wave_witness :
  heap demo_cycle_world !! O = Some demo_stats
  /\ exists initial_results evs2,
       value (ParallelActionExecutor.execute_parallel [1%nat]
                (MainController.initial_actions demo_config "/data/2025-11-24"
                   "/data/2025-11-24/20251124_output.csv" 0)
                demo_cycle_world) = inl initial_results
       /\ events (MainController._execute_parallel_actions demo_config [1%nat] []
                    "/data/2025-11-24" "/data/2025-11-24/20251124_output.csv" 0
                    demo_cycle_world)
          = events (ParallelActionExecutor.execute_parallel [1%nat]
                      (MainController.initial_actions demo_config
                         "/data/2025-11-24"
                         "/data/2025-11-24/20251124_output.csv" 0)
                      demo_cycle_world)
            ++ EvSubmit "send_email"
               :: EvNotify
                    (set_log_filename
                       (MainController.log_filename_among initial_results
                          ["processing_log_1.txt"])
                       (set_upload_status
                          (MainController._get_upload_status initial_results)
                          demo_stats))
               :: evs2.
Proof.
  split; [reflexivity |].
  destruct (notification_after_first_wave demo_config [1%nat] []
              "/data/2025-11-24" "/data/2025-11-24/20251124_output.csv" 0
              demo_stats demo_cycle_world eq_refl)
    as (initial_results & r_up & r_log & email_result & evs1 & evs2
        & Hv1 & _ & _ & _ & _ & _ & _ & _ & Hev & _ & _ & _).
  exists initial_results, evs2. split; [exact Hv1 | exact Hev].
Defined.

(** ** The cycle that finds nothing *)

Section EmptyCycle.
Context {E : Type} `{Runtime E} `{Collaborators E}.
Variable self : ControllerConfig.

(** An event of the phases 3 to 6: download, extraction, the two waves of
    the publish phase, backup. *)
Definition later_phase_event (ev : Event) : Prop :=
  match ev with
  | EvDownload | EvProcess | EvBackup
  | EvSubmit _ | EvCollect _ | EvUpload _ | EvCreateLog _ | EvNotify _ => True
  | _ => False
  end.

Lemma scan_folders_events (type_folders0 : list string) (base_path : string)
    (scan_results : ScanResults) (w : World E) :
  Forall is_handled
    (events (TypeFolderScanner.scan_folders type_folders0 base_path scan_results w)).
Proof.
  revert scan_results w.
  induction type_folders0 as [|type_folder rest IH]; intros scan_results w.
  - constructor.
  - cbn [TypeFolderScanner.scan_folders].
    apply Forall_events_bind; [apply Forall_events_extern |].
    intros [files0 | e] _; [apply IH |].
    apply Forall_events_bind; [apply handle_error_handled |].
    intros _ _. apply IH.
Qed.

Lemma with_ftps_events {A} (P : Event -> Prop) (body : M E A) (w : World E) :
  (forall w0, Forall P (events (body w0))) ->
  Forall P (events (MainController.with_ftps body w)).
Proof.
  intros Hbody. unfold MainController.with_ftps.
  apply Forall_events_bind; [apply Forall_events_extern |].
  intros _ _. apply Forall_events_bind; [apply Hbody |].
  intros r _. apply Forall_events_bind; [constructor |].
  intros _ _. destruct r; constructor.
Qed.

Lemma scan_type_folders_events (w : World E) :
  Forall is_handled (events (MainController._scan_type_folders self w)).
Proof.
  unfold MainController._scan_type_folders.
  apply Forall_events_bind.
  - apply (with_ftps_events is_handled). intros w0.
    apply Forall_events_bind; [apply scan_folders_events |].
    intros sr _. constructor.
  - intros [sr | e] _; [constructor |].
    apply Forall_events_bind; [apply handle_error_handled |].
    intros _ _. constructor.
Qed.

Lemma create_date_folder_events (w : World E) :
  Forall is_handled (events (MainController._create_date_folder w)).
Proof.
  unfold MainController._create_date_folder.
  apply Forall_events_bind; [apply Forall_events_extern |].
  intros [df | e] _; [constructor |].
  apply Forall_events_bind; [apply handle_error_handled |].
  intros _ _. constructor.
Qed.

(** C6: when the date folder is created and the scan returns filtered
    results without any file, [run_processing_cycle] returns, without
    raising, the empty statistics: no download outcome, no record, the
    upload status "N/A - No files", no email sent; the events of the cycle
    are those of the first two phases, error records only, so nothing of
    the phases 3 to 6 is run. *)
Theorem empty_scan_gives_empty_stats (sched1 sched2 : list nat) (w : World E)
    (date_folder : string) (scan_results : ScanResults) :
  let o1 := MainController._create_date_folder w in
  let o2 := MainController._scan_type_folders self (world o1) in
  let o := MainController.run_processing_cycle self sched1 sched2 w in
  value o1 = inl date_folder ->
  value o2 = inl scan_results ->
  MainController.total_files scan_results = 0 ->
  value o
  = inl (mkProcessingStats (Str.basename date_folder) (now (env w))
           (now (env (world o2))) [] [] 0 0 "" 0 "N/A - No files" "" false [])
  /\ world o = world o2
  /\ events o = events o1 ++ events o2
  /\ Forall (fun ev => ~ later_phase_event ev) (events o).
Proof.
  intros o1 o2 o Hv1 Hv2 Htotal.
  pose proof (outcome_eta o1) as Ho1. rewrite Hv1 in Ho1.
  pose proof (outcome_eta o2) as Ho2. rewrite Hv2 in Ho2.
  assert (Hbody : MainController.cycle_body self sched1 sched2 (now (env w)) w
                  = mkOutcome
                      (inl (mkProcessingStats (Str.basename date_folder)
                              (now (env w)) (now (env (world o2))) [] [] 0 0 ""
                              0 "N/A - No files" "" false []))
                      (world o2) (events o1 ++ events o2)).
  { unfold MainController.cycle_body.
    erewrite bind_inl; [| exact Ho1]. cbn [value world events].
    erewrite bind_inl; [| exact Ho2]. cbn [value world events].
    rewrite Htotal. cbn [Z.eqb]. unfold MainController._build_empty_stats.
    erewrite bind_inl; [| reflexivity]. cbn [value world events ret].
    now rewrite !app_nil_r. }
  assert (Ho : o = mkOutcome
                     (inl (mkProcessingStats (Str.basename date_folder)
                             (now (env w)) (now (env (world o2))) [] [] 0 0 ""
                             0 "N/A - No files" "" false []))
                     (world o2) (events o1 ++ events o2)).
  { subst o. unfold MainController.run_processing_cycle.
    erewrite bind_inl; [| reflexivity]. cbn [value world events].
    erewrite bind_inl; [| rewrite try_run, Hbody; reflexivity].
    cbn [value world events ret app]. now rewrite app_nil_r. }
  rewrite Ho. cbn [value world events].
  repeat split.
  apply Forall_app. split.
  - eapply Forall_impl; [apply create_date_folder_events |].
    intros ev [ctx ->] [].
  - eapply Forall_impl; [apply scan_type_folders_events |].
    intros ev [ctx ->] [].
Qed.

End EmptyCycle.

Example empty_cycle_of_the_demo :
  value (MainController.run_processing_cycle demo_config [] []
           (Demo.demo_world 7))
  = inl (mkProcessingStats "2025-11-24" 7000000 7000000 [] [] 0 0 "" 0
           "N/A - No files" "" false []).
Proof. reflexivity. Qed.

Lemma empty_scan_gives_empty_stats_witness :
  value (MainController._create_date_folder (Demo.demo_world 7))
  = inl "/data/2025-11-24"
  /\ value (MainController._scan_type_folders demo_config (Demo.demo_world 7))
     = inl [("type3", []); ("type6", [])]
  /\ MainController.total_files [("type3", []); ("type6", [])] = 0
  /\ events (MainController.run_processing_cycle demo_config [] []
               (Demo.demo_world 7)) = []
  /\ upload_status
       (mkProcessingStats "2025-11-24" 7000000 7000000 [] [] 0 0 "" 0
          "N/A - No files" "" false []) = "N/A - No files".
Proof.
  split; [reflexivity |]. split; [reflexivity |]. split; [reflexivity |].
  split; [| reflexivity].
  exact (proj1 (proj2 (proj2
           (empty_scan_gives_empty_stats demo_config [] [] (Demo.demo_world 7)
              "/data/2025-11-24" [("type3", []); ("type6", [])]
              eq_refl eq_refl eq_refl)))).
Defined.

(** * Further properties of the error handler *)

(** ** What one recorded error changes *)

Section RecordedError.
Context {E : Type} `{Runtime E}.

(** The record that [handle_error] builds in the world [w]. *)
Definition record_of (error : Exn) (cat : ErrorCategory) (sev : ErrorSeverity)
    (comp oper : string) (data : option (list (string * PyVal))) (rc mr : Z)
    (w : World E) : ErrorContext :=
  mkErrorContext (now (env w)) cat sev comp oper (exn_msg error)
    (exn_type error) (format_exc error) (default [] data) rc mr
    (ErrorHandler._is_recoverable_error error cat).

(** The key of the counters of a record. *)
Definition counter_key (ctx : ErrorContext) : string :=
  category_value (category ctx) +:+ ":" +:+ component ctx +:+ ":"
  +:+ operation ctx.

(** [handle_error] returns its record and changes the handler and the store
    only. *)
Lemma handle_error_effect (error : Exn) (cat : ErrorCategory)
    (sev : ErrorSeverity) (comp oper : string)
    (data : option (list (string * PyVal))) (rc mr : Z) (w : World E) :
  let ctx := record_of error cat sev comp oper data rc mr w in
  let h := handler w in
  let log := ErrorHandler.error_log_file h in
  let hist := error_history h ++ [ctx] in
  ErrorHandler.handle_error error cat sev comp oper data rc mr w
  = mkOutcome (inl ctx)
      (mkWorld (env w)
         (<[log := default [] (files w !! log) ++ [json_dumps ctx]]> (files w))
         (mkErrorHandler (storage_path h) (retention_config h)
            (if (1000 <? length hist)%nat then tail hist else hist)
            (<[counter_key ctx :=
                 default 0 (error_counts h !! counter_key ctx) + 1]>
               (error_counts h))
            (<[counter_key ctx := timestamp ctx]> (last_error_times h)))
         (heap w))
      [EvHandled ctx].
Proof. reflexivity. Qed.

(** X1: [handle_error] keeps the history within its bound of 1000
    records: a history of at most 1000 records stays one; the new record
    is its last element, and it is put behind the old records, the oldest
    of which is dropped exactly when there were 1000 of them. *)
Theorem handle_error_bounds_history (error : Exn) (cat : ErrorCategory)
    (sev : ErrorSeverity) (comp oper : string)
    (data : option (list (string * PyVal))) (rc mr : Z) (w : World E) :
  (length (error_history (handler w)) <= 1000)%nat ->
  let o := ErrorHandler.handle_error error cat sev comp oper data rc mr w in
  let history := error_history (handler w) in
  let history' := error_history (handler (world o)) in
  exists ctx,
    value o = inl ctx
    /\ (length history' <= 1000)%nat
    /\ last history' = Some ctx
    /\ history'
       = (if (length history =? 1000)%nat then tail history else history)
         ++ [ctx].
Proof.
  intros Hlen o history history'. subst o history'.
  rewrite handle_error_effect. cbn [value world handler error_history].
  fold history in Hlen |- *.
  set (ctx := record_of error cat sev comp oper data rc mr w).
  exists ctx. split; [reflexivity |].
  rewrite length_app. cbn [length].
  destruct (Nat.eqb_spec (length history) 1000) as [Hfull | Hroom].
  - assert (Hlt : (1000 <? length history + 1)%nat = true)
      by (apply Nat.ltb_lt; lia).
    rewrite Hlt. destruct history as [|c rest]; [discriminate |].
    cbn [tail app]. cbn [length] in Hfull.
    split; [rewrite length_app; cbn [length]; lia |].
    split; [apply last_snoc | reflexivity].
  - assert (Hlt : (1000 <? length history + 1)%nat = false)
      by (apply Nat.ltb_ge; lia).
    rewrite Hlt.
    split; [rewrite length_app; cbn [length]; lia |].
    split; [apply last_snoc | reflexivity].
Qed.


End RecordedError.

Lemma handle_error_bounds_history_witness :
  (length (error_history (handler stored_world)) <= 1000)%nat
  /\ let o := ErrorHandler.handle_error (mkExn "RuntimeError" "failed")
                UNKNOWN LOW "Demo" "demo" None 0 0 stored_world in
     exists ctx,
       value o = inl ctx
       /\ last (error_history (handler (world o))) = Some ctx
       /\ length (error_history (handler (world o))) = 3%nat.
Proof.
  assert (Hlen : (length (error_history (handler stored_world)) <= 1000)%nat)
    by (cbn; lia).
  split; [exact Hlen |].
  destruct (handle_error_bounds_history (mkExn "RuntimeError" "failed")
              UNKNOWN LOW "Demo" "demo" None 0 0 stored_world Hlen)
    as (ctx & Hv & _ & Hlast & _).
  exists ctx. split; [exact Hv |]. split; [exact Hlast | reflexivity].
Defined.

Section FreshRecord.
Context {E : Type} `{Runtime E}.

(** The history that [handle_error] leaves ends with its record. *)
Lemma handle_error_history_snoc (error : Exn) (cat : ErrorCategory)
    (sev : ErrorSeverity) (comp oper : string)
    (data : option (list (string * PyVal))) (rc mr : Z) (w : World E) :
  exists older,
    error_history
      (handler (world (ErrorHandler.handle_error error cat sev comp oper data
                         rc mr w)))
    = older ++ [record_of error cat sev comp oper data rc mr w].
Proof.
  rewrite handle_error_effect. cbn [world handler error_history].
  destruct (error_history (handler w)) as [|c rest];
    [exists []; reflexivity |].
  destruct (1000 <? _)%nat; [exists rest | exists (c :: rest)]; reflexivity.
Qed.

(** X3: an error that was just recorded survives a cleanup with a
    positive number of retention days that runs at the same instant (and
    whose cutoff can be computed): its record is still the last of the
    history and its line the last of the store, when the lines of the
    store could be decoded before. *)
Theorem recorded_error_survives_cleanup (error : Exn) (cat : ErrorCategory)
    (sev : ErrorSeverity) (comp oper : string)
    (data : option (list (string * PyVal))) (rc mr : Z) (d : Z)
    (w : World E) :
  0 < d ->
  cutoff_in_range (now (env w)) d ->
  store_decodable w ->
  let o1 := ErrorHandler.handle_error error cat sev comp oper data rc mr w in
  let o2 := ErrorHandler.cleanup_old_error_logs (Some d) (world o1) in
  exists ctx lines,
    value o1 = inl ctx
    /\ value o2 = inl tt
    /\ last (error_history (handler (world o2))) = Some ctx
    /\ files (world o2) !! ErrorHandler.error_log_file (handler w) = Some lines
    /\ last lines = Some (json_dumps ctx).
Proof.
  intros Hd Hrange Hstore o1 o2.
  set (ctx := record_of error cat sev comp oper data rc mr w).
  pose proof (handle_error_store_decodable error cat sev comp oper data rc mr
                w Hstore) as Hstore1.
  destruct (handle_error_history_snoc error cat sev comp oper data rc mr w)
    as [older Hhist].
  fold o1 in Hstore1, Hhist. fold ctx in Hhist.
  assert (Hv1 : value o1 = inl ctx) by reflexivity.
  assert (Henv : env (world o1) = env w) by reflexivity.
  assert (Hpath : ErrorHandler.error_log_file (handler (world o1))
                  = ErrorHandler.error_log_file (handler w)) by reflexivity.
  set (log := ErrorHandler.error_log_file (handler w)) in *.
  set (tmp := ErrorHandler.temp_file (handler (world o1))).
  set (lines1 := default [] (files w !! log) ++ [json_dumps ctx]).
  assert (Hfiles : files (world o1) !! log = Some lines1).
  { subst o1. rewrite handle_error_effect. cbn [world files].
    apply lookup_insert_eq. }
  set (cutoff := now (env w) - ErrorHandler.days d).
  assert (Hcut : cutoff <= timestamp ctx).
  { unfold cutoff, ErrorHandler.days. cbn [ctx record_of timestamp]. lia. }
  unfold store_decodable in Hstore1. rewrite Hpath, Hfiles in Hstore1.
  assert (Hrange1 : cutoff_in_range (now (env (world o1)))
                      (retention_days_of (Some d) (world o1)))
    by (rewrite Henv; exact Hrange).
  subst o2. rewrite (cleanup_enabled (Some d) (world o1) Hd Hrange1).
  cbn [value world retention_days_of]. rewrite Henv, Hpath, Hfiles.
  fold cutoff tmp.
  rewrite (rewrite_store_decodable cutoff tmp log lines1 _ Hstore1).
  cbn [world handler files set_files set_handler].
  unfold pruned_handler. cbn [error_history]. rewrite Hhist.
  exists ctx, (recent_lines cutoff lines1).
  split; [exact Hv1 |]. split; [reflexivity |]. split.
  - rewrite filter_app, filter_cons_True by exact Hcut. apply last_snoc.
  - split.
    + rewrite apply_ops_app. cbn [apply_ops fold_left ErrorHandler.apply_op].
      unfold ErrorHandler.replace_file. rewrite copy_ops_temp.
      apply lookup_insert_eq.
    + unfold recent_lines, lines1. rewrite List.filter_app. cbn [List.filter].
      rewrite decode_json_dumps, bool_decide_eq_true_2 by exact Hcut.
      apply last_snoc.
Qed.

End FreshRecord.

Lemma stored_world_decodable : store_decodable stored_world.
Proof. exact stored_lines_decodable. Qed.

Lemma recorded_error_survives_cleanup_witness :
  0 < 3
  /\ cutoff_in_range (now (env stored_world)) 3
  /\ store_decodable stored_world
  /\ let o1 := ErrorHandler.handle_error (mkExn "RuntimeError" "failed")
                 UNKNOWN LOW "Demo" "demo" None 0 0 stored_world in
     let o2 := ErrorHandler.cleanup_old_error_logs (Some 3) (world o1) in
     exists ctx lines,
       value o1 = inl ctx
       /\ value o2 = inl tt
       /\ last (error_history (handler (world o2))) = Some ctx
       /\ files (world o2) !! "data/errors/error_context.jsonl" = Some lines
       /\ last lines = Some (json_dumps ctx).
Proof.
  assert (H3 : 0 < 3) by lia.
  split; [exact H3 |]. split; [exact stored_cutoff_in_range |].
  split; [exact stored_world_decodable |].
  exact (recorded_error_survives_cleanup (mkExn "RuntimeError" "failed")
           UNKNOWN LOW "Demo" "demo" None 0 0 3 stored_world H3
           stored_cutoff_in_range stored_world_decodable).
Defined.

(** ** The severity of an error *)

Section Severity.
Context {E : Type} `{Runtime E}.

(** X4: [_determine_error_severity] gives [CRITICAL] exactly for a
    configuration error and for the exception types [SystemExit],
    [KeyboardInterrupt] and [MemoryError]; it gives [LOW] exactly for a
    parsing or validation error of another type whose message mentions
    neither "authentication" nor "permission" (in any case of the
    letters); and an error of a connection or of the database is never
    below [HIGH]. *)
Theorem determine_error_severity_levels (error : Exn)
    (category : ErrorCategory) :
  let fatal := ["SystemExit"; "KeyboardInterrupt"; "MemoryError"] in
  let message := Str.lower (exn_msg error) in
  let level := ErrorHandler._determine_error_severity error category in
  (level = CRITICAL <-> category = CONFIGURATION \/ In (exn_type error) fatal)
  /\ (level = LOW <->
      (category = DOCUMENT_PARSING \/ category = VALIDATION)
      /\ ~ In (exn_type error) fatal
      /\ ~ occurs_in "authentication" message
      /\ ~ occurs_in "permission" message)
  /\ (category = SFTP_CONNECTION \/ category = DATABASE_OPERATION ->
      level = CRITICAL \/ level = HIGH).
Proof.
  intros fatal message level.
  assert (Hl : level = ErrorHandler._determine_error_severity error category)
    by reflexivity.
  clearbody level. subst fatal message.
  unfold ErrorHandler._determine_error_severity in Hl. cbv zeta in Hl.
  set (fatal := ["SystemExit"; "KeyboardInterrupt"; "MemoryError"]) in *.
  set (message := Str.lower (exn_msg error)) in *.
  pose proof (mem_In (exn_type error) fatal) as Hfatal.
  pose proof (str_in_spec "authentication" message) as Hauth.
  pose proof (str_in_spec "permission" message) as Hperm.
  fold (occurs_in "authentication" message) in Hauth.
  fold (occurs_in "permission" message) in Hperm.
  assert (Hf : if Str.mem (exn_type error) fatal
               then In (exn_type error) fatal
               else ~ In (exn_type error) fatal).
  { destruct (Str.mem (exn_type error) fatal);
      [now apply Hfatal | intros Hin; apply Hfatal in Hin; discriminate]. }
  assert (Ha : if Str.str_in "authentication" message
               then occurs_in "authentication" message
               else ~ occurs_in "authentication" message).
  { destruct (Str.str_in "authentication" message);
      [now apply Hauth | intros Ho; apply Hauth in Ho; discriminate]. }
  assert (Hp : if Str.str_in "permission" message
               then occurs_in "permission" message
               else ~ occurs_in "permission" message).
  { destruct (Str.str_in "permission" message);
      [now apply Hperm | intros Ho; apply Hperm in Ho; discriminate]. }
  clear Hfatal Hauth Hperm.
  destruct (Str.mem (exn_type error) fatal),
    (Str.str_in "authentication" message),
    (Str.str_in "permission" message), category;
    vm_compute in Hl; subst level;
    intuition (try discriminate; try congruence).
Qed.

End Severity.

(** ** What [execute_with_retry] returns and records *)

Section RetryOutcome.
Context {E : Type} `{Runtime E} {T : Type}.
Context (op : ErrorHandler.Op (E := E) T) (cat : ErrorCategory)
  (comp operation_name : string)
  (additional_data : option (list (string * PyVal))).

(** Every error record among the events is recoverable. *)
Definition all_recoverable (evs : list Event) : Prop :=
  Forall (fun ev => forall ctx, ev = EvHandled ctx -> is_recoverable ctx = true)
    evs.

Lemma pre_sleep_recoverable (cfg : RetryConfig) (a : nat) (pre : list Event) :
  pre_sleep cfg a pre -> all_recoverable pre.
Proof.
  intros [[_ ->] | [_ (d & -> & _)]]; [constructor |].
  constructor; [intros ctx [=] | constructor].
Qed.

(** A run that returns a value ends with the call that returned. *)
Lemma run_returns (cfg : RetryConfig) attempts last_error evs v :
  retry_run op cat cfg attempts last_error evs v ->
  attempts <> [] \/ last_error <> None ->
  forall r, v = inl r ->
    exists result before k,
      r = Some result
      /\ evs = before ++ [EvInvoke k None]
      /\ all_recoverable before.
Proof.
  induction 1 as [le | a rest le pre result Hpre Hret
                 | a rest le pre e ctx Hpre _ _ _
                 | a rest le pre e ctx evs v Hpre _ _ Hrec _ IH];
    intros Hne r Hv.
  - destruct le as [e |]; [discriminate | destruct Hne; contradiction].
  - injection Hv as <-. exists result, pre, a.
    split; [reflexivity |]. split; [reflexivity |].
    exact (pre_sleep_recoverable _ _ _ Hpre).
  - discriminate.
  - assert (Hne' : rest <> [] \/ Some e <> None) by (right; discriminate).
    destruct (IH Hne' r Hv) as (result & before & k & -> & -> & Hall).
    exists result, (pre ++ EvInvoke a (Some e) :: EvHandled ctx :: before), k.
    split; [reflexivity |]. split; [now rewrite <- app_assoc |].
    apply Forall_app. split; [exact (pre_sleep_recoverable _ _ _ Hpre) |].
    constructor; [intros c [=] |].
    constructor; [intros c [= <-]; exact Hrec | exact Hall].
Qed.

(** The value that the loop returns and the world that it leaves are
    those of one call of the operation. *)
Lemma retry_loop_result (cfg : RetryConfig) (attempts : list nat)
    (last_error : option Exn) (w : World E) (r : option T) :
  nonneg_delays cfg ->
  let o := ErrorHandler.retry_loop op cat comp operation_name
             additional_data cfg attempts last_error w in
  value o = inl r ->
  attempts <> [] \/ last_error <> None ->
  exists result w1,
    r = Some result /\ fst (op w1) = inl result /\ world o = snd (op w1).
Proof.
  intros Hnn. revert last_error w.
  induction attempts as [|a rest IH]; intros last_error w o Hv Hne.
  - subst o. destruct last_error as [e |]; [discriminate |].
    destruct Hne; contradiction.
  - subst o. cbn [ErrorHandler.retry_loop] in *.
    destruct (attempt_body_run op cfg a w Hnn) as (pre & w1 & _ & Hbody).
    erewrite bind_inl in Hv |- *; [| rewrite try_run, Hbody; reflexivity
                                   | rewrite try_run, Hbody; reflexivity].
    cbn [value world events] in *.
    destruct (op w1) as [[result | e] w2] eqn:Hop;
      cbn [fst snd ErrorHandler.raised_of] in *.
    + cbn [ret value world] in *. injection Hv as <-.
      exists result, w1. rewrite Hop. repeat split.
    + match type of Hv with
      | context [ErrorHandler.handle_error e cat ?sev comp
                   operation_name additional_data ?rc ?mr] =>
          destruct (handle_error_run e cat sev comp operation_name
                      additional_data rc mr w2)
            as (ctx & w3 & Hrun & _)
      end.
      erewrite bind_inl in Hv |- *; [| exact Hrun | exact Hrun].
      cbn [value world events] in *.
      destruct (is_recoverable ctx); cbn [negb] in *.
      * apply (IH (Some e) w3 Hv). right. discriminate.
      * discriminate.
Qed.

(** X5: when [execute_with_retry] returns, it returns the result of a call
    of the operation and leaves the world as that call left it; the call
    is the last event of the run: nothing is slept, called or recorded
    after it, and every error recorded before it was recoverable.  In
    particular the function never falls off its end, returning [None]
    without a result. *)
Theorem execute_with_retry_returns (w : World E) (r : option T) :
  let o := ErrorHandler.execute_with_retry op cat comp
             operation_name additional_data w in
  value o = inl r ->
  exists result w1 before k,
    r = Some result
    /\ fst (op w1) = inl result
    /\ world o = snd (op w1)
    /\ events o = before ++ [EvInvoke k None]
    /\ all_recoverable before.
Proof.
  intros o Hv.
  pose proof (execute_with_retry_run op cat comp operation_name
                additional_data w) as Hrun.
  cbn zeta in Hrun. fold o in Hrun.
  assert (Hne : ErrorHandler.range
                  (max_attempts (ErrorHandler.retry_config_for cat)) <> []
                \/ @None Exn <> None).
  { left. pose proof (builtin_policy_attempts cat) as HN.
    unfold ErrorHandler.range.
    destruct (Z.to_nat (max_attempts (ErrorHandler.retry_config_for cat)))
      eqn:Hn; [lia | discriminate]. }
  destruct (run_returns _ _ _ _ _ Hrun Hne r Hv)
    as (result & before & k & Hr & Hev & Hall).
  destruct (retry_loop_result (ErrorHandler.retry_config_for cat) _ None w
              r (builtin_policy_nonneg cat) Hv Hne)
    as (result' & w1 & Hr' & Hop & Hw).
  exists result, w1, before, k.
  split; [exact Hr |]. split; [congruence |]. split; [exact Hw |].
  split; [exact Hev | exact Hall].
Qed.

(** The severity under which the loop records the error of a record. *)
Definition recorded_severity (cfg : RetryConfig) (ctx : ErrorContext)
  : ErrorSeverity :=
  if retry_count ctx =? max_attempts cfg - 1
  then ErrorHandler._determine_error_severity
         (mkExn (exception_type ctx) (error_message ctx)) cat
  else LOW.

(** The event, if it is an error record, carries the names of the call and
    the severity of its attempt. *)
Definition labelled (cfg : RetryConfig) (ev : Event) : Prop :=
  forall ctx, ev = EvHandled ctx ->
    category ctx = cat
    /\ component ctx = comp
    /\ operation ctx = operation_name
    /\ severity ctx = recorded_severity cfg ctx.

Lemma attempt_body_labelled (cfg : RetryConfig) (a : nat) (w : World E) :
  Forall (labelled cfg) (events (ErrorHandler.attempt_body op cfg a w)).
Proof.
  unfold ErrorHandler.attempt_body.
  apply Forall_events_bind.
  - destruct (0 <? a)%nat; [| constructor].
    apply Forall_events_bind.
    + unfold ErrorHandler._calculate_retry_delay.
      destruct (jitter cfg); [| constructor].
      apply Forall_events_bind; [| intros r _; constructor].
      unfold lift_env. destruct (random (env w)). constructor.
    + intros d _. unfold ErrorHandler.time_sleep.
      destruct (Qle_bool 0 d); [| constructor].
      apply Forall_events_bind; [constructor |].
      intros _ _. constructor; [intros ctx [=] | constructor].
  - intros _ _. constructor; [intros ctx [=] | constructor].
Qed.

Lemma retry_loop_labelled (cfg : RetryConfig) (attempts : list nat)
    (last_error : option Exn) (w : World E) :
  Forall (labelled cfg)
    (events (ErrorHandler.retry_loop op cat comp operation_name
               additional_data cfg attempts last_error w)).
Proof.
  revert last_error w.
  induction attempts as [|a rest IH]; intros last_error w.
  - destruct last_error; constructor.
  - cbn [ErrorHandler.retry_loop].
    apply Forall_events_bind; [apply attempt_body_labelled |].
    intros [result | e] _; [constructor |].
    apply Forall_events_bind.
    + match goal with
      | |- context [ErrorHandler.handle_error e cat ?sev comp
                      operation_name additional_data ?rc ?mr ?w0] =>
          rewrite (handle_error_effect e cat sev comp operation_name
                     additional_data rc mr w0)
      end.
      cbn [events]. constructor; [| constructor].
      intros ctx [= <-]. unfold recorded_severity, record_of.
      cbn [category component operation severity
           retry_count exception_type error_message].
      repeat split.
    + intros ctx _. destruct (negb (is_recoverable ctx)); [constructor | apply IH].
Qed.

(** X6: every error record that [execute_with_retry] creates names the
    category, the component and the operation of the call, and its
    severity is [LOW] unless its attempt is the last of the policy, in
    which case it is the severity that [_determine_error_severity] gives
    to the error; so an error that ends the retries before the last
    attempt, because it is not recoverable, is recorded as [LOW]. *)
Theorem execute_with_retry_records_severity (w : World E) (ctx : ErrorContext) :
  let o := ErrorHandler.execute_with_retry op cat comp
             operation_name additional_data w in
  let N := max_attempts (ErrorHandler.retry_config_for cat) in
  In (EvHandled ctx) (events o) ->
  category ctx = cat
  /\ component ctx = comp
  /\ operation ctx = operation_name
  /\ severity ctx
     = if retry_count ctx =? N - 1
       then ErrorHandler._determine_error_severity
              (mkExn (exception_type ctx) (error_message ctx)) cat
       else LOW.
Proof.
  intros o N Hin.
  pose proof (retry_loop_labelled (ErrorHandler.retry_config_for cat)
                (ErrorHandler.range N) None w) as Hall.
  rewrite List.Forall_forall in Hall.
  destruct (Hall _ Hin ctx eq_refl) as (Hc & Hco & Hop & Hsev).
  repeat split; assumption.
Qed.

End RetryOutcome.

Lemma execute_with_retry_returns_witness :
  let o := ErrorHandler.execute_with_retry flaky_op SFTP_CONNECTION
             "SFTPManager" "connect" None (Demo.demo_world 8) in
  value o = inl (Some tt)
  /\ exists result w1 before k,
       Some tt = Some result
       /\ fst (flaky_op w1) = inl result
       /\ world o = snd (flaky_op w1)
       /\ events o = before ++ [EvInvoke k None]
       /\ all_recoverable before.
Proof.
  assert (Hv : value (ErrorHandler.execute_with_retry flaky_op SFTP_CONNECTION
                        "SFTPManager" "connect" None (Demo.demo_world 8))
               = inl (Some tt)) by reflexivity.
  split; [exact Hv |].
  exact (execute_with_retry_returns flaky_op SFTP_CONNECTION "SFTPManager"
           "connect" None (Demo.demo_world 8) (Some tt) Hv).
Defined.

Lemma execute_with_retry_records_severity_witness :
  In (EvHandled denied_ctx)
    (events (ErrorHandler.execute_with_retry denied_op SFTP_CONNECTION
               "SFTPManager" "connect" None (Demo.demo_world 0)))
  /\ severity denied_ctx = LOW
  /\ ErrorHandler._determine_error_severity
       (mkExn "PermissionError" "Permission denied") SFTP_CONNECTION = HIGH.
Proof.
  assert (Hin : In (EvHandled denied_ctx)
                  (events (ErrorHandler.execute_with_retry denied_op
                             SFTP_CONNECTION "SFTPManager" "connect" None
                             (Demo.demo_world 0))))
    by (right; left; reflexivity).
  split; [exact Hin |]. split; [| reflexivity].
  exact (proj2 (proj2 (proj2
           (execute_with_retry_records_severity denied_op SFTP_CONNECTION
              "SFTPManager" "connect" None (Demo.demo_world 0) denied_ctx
              Hin)))).
Defined.

(** ** The statistics of the recorded errors *)

Section Counters.

Lemma sum_values_count_up (k : string) (d : Counter) :
  sum_values (count_up k d) = sum_values d + 1.
Proof.
  induction d as [|[k' n] d IH]; [reflexivity |].
  cbn [count_up]. destruct (String.eqb k k'); cbn [sum_values fold_right] in *;
    [| fold (sum_values (count_up k d)); fold (sum_values d); rewrite IH]; lia.
Qed.

Lemma count_of_count_up (k k' : string) (d : Counter) :
  count_of k (count_up k' d)
  = count_of k d + (if String.eqb k k' then 1 else 0).
Proof.
  induction d as [|[k0 n] d IH]; cbn [count_up count_of].
  - destruct (String.eqb k k'); lia.
  - destruct (String.eqb_spec k' k0) as [-> | Hne]; cbn [count_of].
    + destruct (String.eqb k k0); lia.
    + destruct (String.eqb_spec k k0) as [-> | Hne'].
      * destruct (String.eqb_spec k0 k'); [congruence | lia].
      * exact IH.
Qed.

(** The keys of a counter that was built by counting are distinct and its
    counts are positive. *)
Definition well_counted (d : Counter) : Prop :=
  NoDup (map fst d) /\ Forall (fun kn => 0 < snd kn) d.

Lemma count_up_keys (k : string) (d : Counter) (x : string) :
  x ∈ map fst (count_up k d) <-> x = k \/ x ∈ map fst d.
Proof.
  induction d as [|[k' n] d IH]; cbn [count_up map fst].
  - rewrite elem_of_cons, elem_of_nil. tauto.
  - destruct (String.eqb_spec k k') as [-> | Hne]; cbn [map fst];
      rewrite !elem_of_cons; [| rewrite IH]; tauto.
Qed.

Lemma well_counted_count_up (k : string) (d : Counter) :
  well_counted d -> well_counted (count_up k d).
Proof.
  intros [Hnd Hpos]. induction d as [|[k' n] d IH]; cbn [count_up].
  - split; [apply NoDup_singleton | repeat constructor].
  - cbn [map fst] in Hnd. apply NoDup_cons in Hnd as [Hnin Hnd'].
    inversion Hpos as [| ? ? Hn Hpos']; subst. cbn [snd] in Hn.
    destruct (String.eqb_spec k k') as [-> | Hne].
    + split; [cbn [map fst]; now apply NoDup_cons |].
      constructor; [cbn; lia | exact Hpos'].
    + destruct (IH Hnd' Hpos') as [Hnd1 Hpos1]. split.
      * cbn [map fst]. apply NoDup_cons. split; [| exact Hnd1].
        rewrite count_up_keys. intros [-> | Hin]; [congruence | contradiction].
      * constructor; [exact Hn | exact Hpos1].
Qed.

(** In such a counter, the entries are the keys with their counts. *)
Lemma well_counted_entry (k : string) (n : Z) (d : Counter) :
  well_counted d -> (In (k, n) d <-> count_of k d = n /\ 0 < n).
Proof.
  intros [Hnd Hpos]. induction d as [|[k' n'] d IH]; cbn [In count_of].
  - split; [intros [] | intros [<- Hn]; lia].
  - cbn [map fst] in Hnd. apply NoDup_cons in Hnd as [Hnin Hnd'].
    inversion Hpos as [| ? ? Hn Hpos']; subst. cbn [snd] in Hn.
    destruct (String.eqb_spec k k') as [-> | Hne].
    + split.
      * intros [[= <-] | Hin]; [split; [reflexivity | exact Hn] |].
        exfalso. apply Hnin. apply list_elem_of_In.
        change k' with (fst (k', n)). now apply in_map.
      * intros [<- _]. now left.
    + rewrite <- (IH Hnd' Hpos'). split.
      * intros [[= -> _] | Hin]; [congruence | exact Hin].
      * intros Hin. now right.
Qed.

(** ** Sorting by count *)

(** [x] does not come after [y] in the order of decreasing counts. *)
Definition not_fewer (x y : string * Z) : Prop := snd y <= snd x.

Lemma insert_by_count_perm (x : string * Z) (l : Counter) :
  Permutation (insert_by_count x l) (x :: l).
Proof.
  induction l as [|y l IH]; [reflexivity |].
  cbn [insert_by_count]. destruct (snd x <? snd y); [| reflexivity].
  rewrite IH. apply perm_swap.
Qed.

Lemma sorted_by_count_perm (d : Counter) : Permutation (sorted_by_count d) d.
Proof.
  induction d as [|x d IH]; [reflexivity |].
  cbn [sorted_by_count fold_right]. fold (sorted_by_count d).
  rewrite insert_by_count_perm. now constructor.
Qed.

Lemma insert_by_count_sorted (x : string * Z) (l : Counter) :
  StronglySorted not_fewer l -> StronglySorted not_fewer (insert_by_count x l).
Proof.
  induction 1 as [|y l Hl IH Hy]; cbn [insert_by_count].
  - repeat constructor.
  - destruct (Z.ltb_spec (snd x) (snd y)) as [Hlt | Hge].
    + constructor; [exact IH |].
      rewrite insert_by_count_perm. constructor; [unfold not_fewer; lia | exact Hy].
    + constructor; [now constructor |].
      constructor; [exact Hge |].
      eapply Forall_impl; [exact Hy |]. unfold not_fewer. intros z Hz. lia.
Qed.

Lemma sorted_by_count_sorted (d : Counter) :
  StronglySorted not_fewer (sorted_by_count d).
Proof.
  induction d as [|x d IH]; [constructor |].
  cbn [sorted_by_count fold_right]. now apply insert_by_count_sorted.
Qed.

(** In a sorted list, what is among the first [n] entries does not come
    after what is behind them. *)
Lemma sorted_take_drop (n : nat) (l : Counter) :
  StronglySorted not_fewer l ->
  StronglySorted not_fewer (take n l)
  /\ forall x y, In x (take n l) -> In y (drop n l) -> not_fewer x y.
Proof.
  intros Hl. revert n. induction Hl as [|z l Hl IH Hz]; intros n.
  - rewrite take_nil, drop_nil. split; [constructor | intros x y []].
  - destruct n as [|n]; cbn [take drop].
    + split; [constructor | intros x y []].
    + destruct (IH n) as [Hs Hcross]. split.
      * constructor; [exact Hs |].
        rewrite List.Forall_forall in Hz |- *. intros y Hy. apply Hz.
        rewrite <- (take_drop n l). apply in_or_app. now left.
      * intros x y [<- | Hx] Hy.
        -- rewrite List.Forall_forall in Hz. apply Hz.
           rewrite <- (take_drop n l). apply in_or_app. now right.
        -- now apply Hcross.
Qed.

End Counters.

Section Statistics.
Context {E : Type} `{Runtime E}.

(** How many of the errors have the key [k] under [key]. *)
Definition occurrences (key : ErrorContext -> string) (k : string)
    (errors : list ErrorContext) : Z :=
  Z.of_nat (length (List.filter (fun e => String.eqb k (key e)) errors)).

Lemma tally_counters (errors : list ErrorContext) (stats : ErrorReport.Statistics) :
  let stats' := fold_left ErrorReport.tally errors stats in
  ErrorReport.errors_by_category stats'
  = fold_left (fun d e => count_up (category_value (category e)) d) errors
      (ErrorReport.errors_by_category stats)
  /\ ErrorReport.errors_by_severity stats'
     = fold_left (fun d e => count_up (ErrorReport.severity_value (severity e)) d)
         errors (ErrorReport.errors_by_severity stats)
  /\ ErrorReport.errors_by_component stats'
     = fold_left (fun d e => count_up (component e) d) errors
         (ErrorReport.errors_by_component stats)
  /\ ErrorReport.recent_critical_errors stats'
     = ErrorReport.recent_critical_errors stats
       ++ map (fun e => ErrorReport.mkCriticalError (timestamp e) (component e)
                          (operation e) (error_message e))
            (List.filter (fun e => bool_decide (severity e = CRITICAL)) errors)
  /\ ErrorReport.total_errors stats' = ErrorReport.total_errors stats
  /\ ErrorReport.time_period_hours stats' = ErrorReport.time_period_hours stats.
Proof.
  revert stats. induction errors as [|e errors IH]; intros stats.
  - cbn. now rewrite app_nil_r.
  - cbn [fold_left]. cbn zeta in IH |- *.
    destruct (IH (ErrorReport.tally stats e)) as (-> & -> & -> & -> & -> & ->).
    cbn [ErrorReport.tally ErrorReport.errors_by_category
           ErrorReport.errors_by_severity ErrorReport.errors_by_component
           ErrorReport.recent_critical_errors ErrorReport.total_errors
           ErrorReport.time_period_hours List.filter].
    repeat split.
    destruct (bool_decide (severity e = CRITICAL)); cbn [map];
      [now rewrite <- app_assoc | reflexivity].
Qed.

Lemma counted_sum (key : ErrorContext -> string) (errors : list ErrorContext)
    (d : Counter) :
  sum_values (fold_left (fun d e => count_up (key e) d) errors d)
  = sum_values d + Z.of_nat (length errors).
Proof.
  revert d. induction errors as [|e errors IH]; intros d; cbn [fold_left length].
  - lia.
  - rewrite IH, sum_values_count_up. lia.
Qed.

Lemma counted_count_of (key : ErrorContext -> string) (k : string)
    (errors : list ErrorContext) (d : Counter) :
  count_of k (fold_left (fun d e => count_up (key e) d) errors d)
  = count_of k d + occurrences key k errors.
Proof.
  unfold occurrences.
  revert d. induction errors as [|e errors IH]; intros d;
    cbn [fold_left List.filter length].
  - lia.
  - rewrite IH, count_of_count_up.
    destruct (String.eqb k (key e)); cbn [length]; lia.
Qed.

Lemma counted_well (key : ErrorContext -> string) (errors : list ErrorContext)
    (d : Counter) :
  well_counted d ->
  well_counted (fold_left (fun d e => count_up (key e) d) errors d).
Proof.
  revert d. induction errors as [|e errors IH]; intros d Hd; cbn [fold_left].
  - exact Hd.
  - apply IH. now apply well_counted_count_up.
Qed.

Lemma well_counted_nil : well_counted [].
Proof. split; constructor. Qed.

Lemma severity_value_critical (s : ErrorSeverity) :
  String.eqb "critical" (ErrorReport.severity_value s)
  = bool_decide (s = CRITICAL).
Proof. now destruct s. Qed.

(** The result of [get_error_statistics] when the cutoff can be computed. *)
Lemma get_error_statistics_run (hours cutoff_time : Z) (w : World E) :
  ErrorReport.hours_before (now (env w)) hours = inl cutoff_time ->
  let recent :=
    ErrorReport.recent_errors_of cutoff_time (error_history (handler w)) in
  let stats :=
    fold_left ErrorReport.tally recent
      (ErrorReport.mkStatistics (Z.of_nat (length recent)) hours [] [] [] [] []) in
  ErrorReport.get_error_statistics hours w
  = mkOutcome
      (inl (ErrorReport.mkStatistics
              (ErrorReport.total_errors stats)
              (ErrorReport.time_period_hours stats)
              (ErrorReport.errors_by_category stats)
              (ErrorReport.errors_by_severity stats)
              (ErrorReport.errors_by_component stats)
              (take 10 (sorted_by_count
                 (fold_left (fun d e => count_up (ErrorReport.error_key e) d)
                    recent [])))
              (ErrorReport.recent_critical_errors stats)))
      w [].
Proof.
  intros Hc. unfold ErrorReport.get_error_statistics.
  erewrite bind_inl; [| rewrite Hc; reflexivity]. reflexivity.
Qed.

(** X7: the statistics of [get_error_statistics] add up.  When the
    cutoff can be computed, the call changes nothing and reports nothing;
    the total is the number of records of the history that are not older
    than the cutoff (a record made exactly at the cutoff counts); each of
    the three tables spreads this total over its keys, a key having the
    number of recent records with it; and the list of critical errors has
    as many entries as the table of severities counts under "critical". *)
Theorem get_error_statistics_totals (hours cutoff_time : Z) (w : World E) :
  ErrorReport.hours_before (now (env w)) hours = inl cutoff_time ->
  let o := ErrorReport.get_error_statistics hours w in
  let recent :=
    List.filter (fun e => bool_decide (cutoff_time <= timestamp e))
      (error_history (handler w)) in
  exists stats,
    o = mkOutcome (inl stats) w []
    /\ cutoff_time = now (env w) - hours * 3600000000
    /\ ErrorReport.total_errors stats = Z.of_nat (length recent)
    /\ ErrorReport.time_period_hours stats = hours
    /\ sum_values (ErrorReport.errors_by_category stats)
       = ErrorReport.total_errors stats
    /\ sum_values (ErrorReport.errors_by_severity stats)
       = ErrorReport.total_errors stats
    /\ sum_values (ErrorReport.errors_by_component stats)
       = ErrorReport.total_errors stats
    /\ (forall k,
          count_of k (ErrorReport.errors_by_category stats)
          = occurrences (fun e => category_value (category e)) k recent
          /\ count_of k (ErrorReport.errors_by_severity stats)
             = occurrences (fun e => ErrorReport.severity_value (severity e))
                 k recent
          /\ count_of k (ErrorReport.errors_by_component stats)
             = occurrences component k recent)
    /\ Z.of_nat (length (ErrorReport.recent_critical_errors stats))
       = count_of "critical" (ErrorReport.errors_by_severity stats).
Proof.
  intros Hc o recent.
  assert (Hrecent : ErrorReport.recent_errors_of cutoff_time
                      (error_history (handler w)) = recent).
  { unfold ErrorReport.recent_errors_of, recent.
    induction (error_history (handler w)) as [|e l IH]; [reflexivity |].
    cbn [List.filter]. destruct (decide (cutoff_time <= timestamp e)) as [Hle | Hgt].
    - rewrite filter_cons_True by exact Hle.
      rewrite bool_decide_eq_true_2 by exact Hle. now rewrite IH.
    - rewrite filter_cons_False by exact Hgt.
      rewrite bool_decide_eq_false_2 by exact Hgt. exact IH. }
  pose proof (get_error_statistics_run hours cutoff_time w Hc) as Hrun.
  cbn zeta in Hrun. rewrite Hrecent in Hrun. fold o in Hrun.
  destruct (tally_counters recent
              (ErrorReport.mkStatistics (Z.of_nat (length recent)) hours
                 [] [] [] [] []))
    as (Hcat & Hsev & Hcomp & Hcrit & Htot & Hper).
  cbn [ErrorReport.errors_by_category ErrorReport.errors_by_severity
         ErrorReport.errors_by_component ErrorReport.recent_critical_errors
         ErrorReport.total_errors ErrorReport.time_period_hours app]
    in Hcat, Hsev, Hcomp, Hcrit, Htot, Hper.
  eexists. split; [exact Hrun |].
  cbn [ErrorReport.errors_by_category ErrorReport.errors_by_severity
         ErrorReport.errors_by_component ErrorReport.recent_critical_errors
         ErrorReport.total_errors ErrorReport.time_period_hours].
  rewrite Hcat, Hsev, Hcomp, Hcrit, Htot, Hper, !counted_sum.
  split.
  { unfold ErrorReport.hours_before, ErrorReport.timedelta_hours,
      ErrorHandler.datetime_sub in Hc.
    destruct (_ && _) in Hc; [| discriminate].
    destruct (_ && _) in Hc; [| discriminate].
    now injection Hc as <-. }
  repeat split; try (cbn [sum_values fold_right]; lia).
  - rewrite counted_count_of. cbn [count_of]. lia.
  - rewrite counted_count_of. cbn [count_of]. lia.
  - rewrite counted_count_of. cbn [count_of]. lia.
  - rewrite counted_count_of, length_map. cbn [count_of]. unfold occurrences.
    rewrite Z.add_0_l. do 2 f_equal. clear.
    induction recent as [|e l IH]; [reflexivity |]. cbn [List.filter].
    rewrite severity_value_critical, IH. reflexivity.
Qed.

(** [get_error_statistics] has no [try]: when the cutoff cannot be
    computed, the [OverflowError] goes to the caller. *)
Lemma get_error_statistics_overflow (hours : Z) (e : Exn) (w : World E) :
  ErrorReport.hours_before (now (env w)) hours = inr e ->
  ErrorReport.get_error_statistics hours w = mkOutcome (inr e) w [].
Proof.
  intros Hc. unfold ErrorReport.get_error_statistics.
  erewrite bind_inr; [reflexivity | rewrite Hc; reflexivity].
Qed.

(** X8: the most frequent errors of [get_error_statistics] are the
    (at most) ten most frequent keys [category:exception type] of the
    recent records, in the order of decreasing counts: each listed key has
    its number of recent records, which is positive, no key is listed
    twice, and a key with recent records that is not listed has no more of
    them than any of the ten listed ones. *)
Theorem get_error_statistics_most_frequent (hours cutoff_time : Z) (w : World E) :
  ErrorReport.hours_before (now (env w)) hours = inl cutoff_time ->
  let o := ErrorReport.get_error_statistics hours w in
  let recent :=
    List.filter (fun e => bool_decide (cutoff_time <= timestamp e))
      (error_history (handler w)) in
  exists stats,
    value o = inl stats
    /\ let most := ErrorReport.most_frequent_errors stats in
       (length most <= 10)%nat
       /\ StronglySorted not_fewer most
       /\ NoDup (map fst most)
       /\ (forall k n, In (k, n) most ->
             n = occurrences ErrorReport.error_key k recent /\ 0 < n)
       /\ (forall k,
             0 < occurrences ErrorReport.error_key k recent ->
             In (k, occurrences ErrorReport.error_key k recent) most
             \/ (length most = 10%nat
                 /\ forall k' n', In (k', n') most ->
                      occurrences ErrorReport.error_key k recent <= n')).
Proof.
  intros Hc o recent.
  assert (Hrecent : ErrorReport.recent_errors_of cutoff_time
                      (error_history (handler w)) = recent).
  { unfold ErrorReport.recent_errors_of, recent.
    induction (error_history (handler w)) as [|e l IH]; [reflexivity |].
    cbn [List.filter]. destruct (decide (cutoff_time <= timestamp e)) as [Hle | Hgt].
    - rewrite filter_cons_True by exact Hle.
      rewrite bool_decide_eq_true_2 by exact Hle. now rewrite IH.
    - rewrite filter_cons_False by exact Hgt.
      rewrite bool_decide_eq_false_2 by exact Hgt. exact IH. }
  pose proof (get_error_statistics_run hours cutoff_time w Hc) as Hrun.
  cbn zeta in Hrun. rewrite Hrecent in Hrun. fold o in Hrun.
  eexists. split; [rewrite Hrun; reflexivity |].
  cbn [ErrorReport.most_frequent_errors]. cbv zeta.
  set (counts := fold_left (fun d e => count_up (ErrorReport.error_key e) d)
                   recent []).
  assert (Hwell : well_counted counts)
    by (apply counted_well, well_counted_nil).
  assert (Hocc : forall k, count_of k counts
                           = occurrences ErrorReport.error_key k recent).
  { intros k. unfold counts. rewrite counted_count_of. cbn [count_of]. lia. }
  pose proof (sorted_by_count_perm counts) as Hperm.
  destruct (sorted_take_drop 10 _ (sorted_by_count_sorted counts))
    as [Hsorted Hcross].
  assert (Hin : forall x, In x (take 10 (sorted_by_count counts)) ->
                          In x counts).
  { intros x Hx. eapply Permutation_in; [exact Hperm |].
    rewrite <- (take_drop 10 (sorted_by_count counts)).
    apply in_or_app. now left. }
  split; [| split; [exact Hsorted | split; [| split]]].
  - rewrite length_take. lia.
  - destruct Hwell as [Hnd _].
    rewrite <- Hperm in Hnd.
    rewrite <- (take_drop 10 (sorted_by_count counts)), map_app in Hnd.
    now apply NoDup_app in Hnd as [Hnd _].
  - intros k n Hk. apply Hin, (well_counted_entry k n counts Hwell) in Hk.
    rewrite <- Hocc. destruct Hk as [Hk Hn]. split; [now symmetry | exact Hn].
  - intros k Hk. rewrite <- Hocc in Hk |- *.
    assert (Hentry : In (k, count_of k counts) counts)
      by (now apply (well_counted_entry k _ counts Hwell)).
    apply (Permutation_in _ (Permutation_sym Hperm)) in Hentry.
    rewrite <- (take_drop 10 (sorted_by_count counts)) in Hentry.
    apply in_app_or in Hentry as [Hfirst | Hrest]; [now left | right].
    split.
    + rewrite length_take. apply Nat.min_l.
      destruct (le_lt_dec 10 (length (sorted_by_count counts))) as [Hle | Hlt];
        [exact Hle |].
      rewrite drop_ge in Hrest by lia. destruct Hrest.
    + intros k' n' Hk'. exact (Hcross _ _ Hk' Hrest).
Qed.

End Statistics.

Example statistics_of_three_days :
  value (ErrorReport.get_error_statistics 72 stored_world)
  = inl (ErrorReport.mkStatistics 1 72 [("unknown", 1)] [("low", 1)]
           [("Demo", 1)] [("unknown:RuntimeError", 1)] []).
Proof. reflexivity. Qed.

Example statistics_hours_out_of_range :
  value (ErrorReport.get_error_statistics 24000000000 stored_world)
  = inr (mkExn "OverflowError"
           "days=1000000000; must have magnitude <= 999999999")
  /\ value (ErrorReport.get_error_statistics 240 stored_world) = inl
       (ErrorReport.mkStatistics 2 240 [("unknown", 2)] [("low", 2)]
          [("Demo", 2)] [("unknown:RuntimeError", 2)] [])
  /\ value (ErrorReport.get_error_statistics 241 stored_world)
     = inr (mkExn "OverflowError" "date value out of range").
Proof. repeat split; reflexivity. Qed.

Lemma get_error_statistics_totals_witness :
  ErrorReport.hours_before (now (env stored_world)) 72
  = inl (7 * 86400000000)
  /\ exists stats,
       ErrorReport.get_error_statistics 72 stored_world
       = mkOutcome (inl stats) stored_world []
       /\ ErrorReport.total_errors stats = 1
       /\ sum_values (ErrorReport.errors_by_category stats) = 1.
Proof.
  assert (Hc : ErrorReport.hours_before (now (env stored_world)) 72
               = inl (7 * 86400000000)) by reflexivity.
  split; [exact Hc |].
  destruct (get_error_statistics_totals 72 _ stored_world Hc)
    as (stats & Ho & _ & Htotal & _ & Hsum & _).
  exists stats. split; [exact Ho |]. split; [exact Htotal |].
  rewrite Hsum. exact Htotal.
Defined.

Lemma get_error_statistics_most_frequent_witness :
  ErrorReport.hours_before (now (env stored_world)) 72
  = inl (7 * 86400000000)
  /\ exists stats,
       value (ErrorReport.get_error_statistics 72 stored_world) = inl stats
       /\ (length (ErrorReport.most_frequent_errors stats) <= 10)%nat
       /\ In ("unknown:RuntimeError", 1) (ErrorReport.most_frequent_errors stats).
Proof.
  assert (Hc : ErrorReport.hours_before (now (env stored_world)) 72
               = inl (7 * 86400000000)) by reflexivity.
  split; [exact Hc |].
  destruct (get_error_statistics_most_frequent 72 _ stored_world Hc)
    as (stats & Hv & Hlen & _ & _ & _ & Hall).
  exists stats. split; [exact Hv |]. split; [exact Hlen |].
  destruct (Hall "unknown:RuntimeError") as [Hin | [Hten _]].
  - vm_compute. reflexivity.
  - exact Hin.
  - exfalso. injection Hv as <-. vm_compute in Hten. discriminate.
Defined.

(** * Further properties of the scanner *)

Section DictKeys.
Context {V : Type}.

Lemma dict_set_keys (k : string) (v : V) (d : list (string * V)) (x : string) :
  x ∈ map fst (dict_set k v d) <-> x = k \/ x ∈ map fst d.
Proof.
  induction d as [|[k' v'] d IH]; cbn [dict_set map fst].
  - rewrite elem_of_cons, elem_of_nil. tauto.
  - destruct (String.eqb_spec k k') as [-> | Hne]; cbn [map fst];
      rewrite !elem_of_cons; [| rewrite IH]; tauto.
Qed.

Lemma dict_set_NoDup (k : string) (v : V) (d : list (string * V)) :
  NoDup (map fst d) -> NoDup (map fst (dict_set k v d)).
Proof.
  induction d as [|[k' v'] d IH]; cbn [dict_set map fst]; intros Hnd.
  - apply NoDup_singleton.
  - apply NoDup_cons in Hnd as [Hnin Hnd].
    destruct (String.eqb_spec k k') as [-> | Hne]; cbn [map fst];
      apply NoDup_cons; [tauto |].
    split; [| now apply IH].
    rewrite dict_set_keys. intros [-> | Hin]; [congruence | contradiction].
Qed.

End DictKeys.

Section Scan.
Context {E : Type} `{Runtime E} `{Collaborators E}.

Lemma scanned_spec (folder : string) (scan_results : ScanResults) :
  ScanReport.scanned folder scan_results = true
  <-> folder ∈ map fst scan_results.
Proof.
  unfold ScanReport.scanned.
  induction scan_results as [|[k files] sr IH]; cbn [existsb map fst].
  - rewrite elem_of_nil. split; [discriminate | tauto].
  - rewrite orb_true_iff, IH, elem_of_cons.
    destruct (String.eqb_spec folder k); intuition discriminate.
Qed.

(** [scan_folders] returns, and its dictionary has a key for each folder
    it was given besides those it started with. *)
Lemma scan_folders_keys (type_folders0 : list string) (base_path : string)
    (scan_results : ScanResults) (w : World E) :
  NoDup (map fst scan_results) ->
  exists sr,
    value (TypeFolderScanner.scan_folders type_folders0 base_path scan_results w)
    = inl sr
    /\ NoDup (map fst sr)
    /\ forall x, x ∈ map fst sr <-> x ∈ type_folders0 \/ x ∈ map fst scan_results.
Proof.
  revert scan_results w.
  induction type_folders0 as [|type_folder rest IH]; intros scan_results w Hnd.
  - exists scan_results. split; [reflexivity |]. split; [exact Hnd |].
    intros x. rewrite elem_of_nil. tauto.
  - cbn [TypeFolderScanner.scan_folders].
    set (folder_path := Str.collapse_slashes (base_path +:+ "/" +:+ type_folder)).
    set (listing := extern (list_files_in_folder folder_path) w).
    erewrite bind_inl; [| apply try_run]. fold listing. cbn [value].
    destruct (value listing) as [files0 | e].
    + destruct (IH (dict_set type_folder files0 scan_results) (world listing)
                  (dict_set_NoDup _ _ _ Hnd)) as (sr & Hv & Hnd' & Hkeys).
      exists sr. split; [exact Hv |]. split; [exact Hnd' |].
      intros x. rewrite Hkeys, dict_set_keys, elem_of_cons. tauto.
    + match goal with
      | |- context [ErrorHandler.handle_error e ?c ?s ?co ?o ?d ?rc ?mr] =>
          destruct (handle_error_run e c s co o d rc mr (world listing))
            as (ctx & w' & Hrun & _)
      end.
      erewrite bind_inl; [| exact Hrun]. cbn [value].
      destruct (IH (dict_set type_folder [] scan_results) w'
                  (dict_set_NoDup _ _ _ Hnd)) as (sr & Hv & Hnd' & Hkeys).
      exists sr. split; [exact Hv |]. split; [exact Hnd' |].
      intros x. rewrite Hkeys, dict_set_keys, elem_of_cons. tauto.
Qed.

(** X9: [scan_folders] never raises, whatever the listings do, and
    returns a dictionary whose keys are the configured folders, each once.
    [validate_scan_results] accepts this dictionary exactly when no folder
    is configured twice: a folder that is configured twice is listed
    twice, stored once, and makes the validation fail. *)
Theorem scan_folders_validates (type_folders0 : list string)
    (base_path : string) (w : World E) :
  let o := TypeFolderScanner.scan_folders type_folders0 base_path [] w in
  exists scan_results,
    value o = inl scan_results
    /\ NoDup (map fst scan_results)
    /\ (forall folder,
          ScanReport.scanned folder scan_results = true
          <-> In folder type_folders0)
    /\ (ScanReport.validate_scan_results type_folders0 scan_results = true
        <-> NoDup type_folders0).
Proof.
  intros o.
  destruct (scan_folders_keys type_folders0 base_path [] w (NoDup_nil_2))
    as (sr & Hv & Hnd & Hkeys).
  assert (Hkeys' : forall x, x ∈ map fst sr <-> x ∈ type_folders0).
  { intros x. rewrite Hkeys. cbn [map]. rewrite elem_of_nil. tauto. }
  exists sr. split; [exact Hv |]. split; [exact Hnd |]. split.
  - intros folder. rewrite scanned_spec, Hkeys'. apply list_elem_of_In.
  - assert (Hsub : map fst sr ⊆+ type_folders0).
    { apply NoDup_submseteq; [exact Hnd |]. intros x. apply Hkeys'. }
    assert (Hall : forallb (fun folder => ScanReport.scanned folder sr)
                     type_folders0 = true).
    { apply forallb_forall. intros x Hx. apply scanned_spec, Hkeys'.
      now apply list_elem_of_In. }
    unfold ScanReport.validate_scan_results. rewrite Hall.
    pose proof (submseteq_length _ _ Hsub) as Hlen.
    rewrite length_map in Hlen.
    destruct (Nat.eqb_spec (length sr) (length type_folders0)) as [Heq | Hne];
      cbn [negb].
    + split; [intros _ | reflexivity].
      assert (Hperm : map fst sr ≡ₚ type_folders0).
      { apply submseteq_length_Permutation; [exact Hsub |].
        rewrite length_map. lia. }
      now rewrite <- Hperm.
    + split; [discriminate |]. intros Hnd2. exfalso. apply Hne.
      assert (Hsub2 : type_folders0 ⊆+ map fst sr).
      { apply NoDup_submseteq; [exact Hnd2 |]. intros x. apply Hkeys'. }
      pose proof (submseteq_length _ _ Hsub2) as Hlen2.
      rewrite length_map in Hlen2. lia.
Qed.

End Scan.

Section Reports.

(** The sum of the sizes of the files of a flattened scan. *)
Definition sizes_of (all_files : list (string * FileInfo)) : Z :=
  fold_right (fun item total => fi_size (snd item) + total) 0 all_files.

(** The pairs of a folder with each of its files, in order, for all the
    folders in order. *)
Definition flattened (scan_results : ScanResults) : list (string * FileInfo) :=
  flat_map (fun '(type_folder, files) => map (pair type_folder) files)
    scan_results.

Lemma get_all_files_flattened (scan_results : ScanResults) :
  ScanReport.get_all_files scan_results = flattened scan_results.
Proof.
  unfold ScanReport.get_all_files, flattened.
  assert (Hinner : forall (type_folder : string) (files : list FileInfo) acc,
            fold_left (fun all_files file_info =>
                         all_files ++ [(type_folder, file_info)]) files acc
            = acc ++ map (pair type_folder) files).
  { intros type_folder files.
    induction files as [|f files IH]; intros acc; cbn [fold_left map].
    - now rewrite app_nil_r.
    - rewrite IH, <- app_assoc. reflexivity. }
  assert (Houter : forall acc,
            fold_left
              (fun all_files '(type_folder, files) =>
                 fold_left (fun all_files file_info =>
                              all_files ++ [(type_folder, file_info)])
                   files all_files) scan_results acc
            = acc ++ flat_map (fun '(type_folder, files) =>
                                 map (pair type_folder) files) scan_results).
  { induction scan_results as [|[type_folder files] sr IH]; intros acc;
      cbn [fold_left flat_map].
    - now rewrite app_nil_r.
    - rewrite IH, Hinner, <- app_assoc. reflexivity. }
  exact (Houter []).
Qed.

Lemma most_files_spec (scan_results : ScanResults) (folder0 : option string)
    (count0 : Z) :
  let '(folder, count) :=
    fold_left
      (fun '(max_files_folder, max_files_count) '(folder, files) =>
         if max_files_count <? Z.of_nat (length files)
         then (Some folder, Z.of_nat (length files))
         else (max_files_folder, max_files_count))
      scan_results (folder0, count0) in
  count0 <= count
  /\ Forall (fun '(_, files) => Z.of_nat (length files) <= count) scan_results
  /\ ((folder = folder0 /\ count = count0)
      \/ exists before files after,
           scan_results = before ++ (default "" folder, files) :: after
           /\ folder = Some (default "" folder)
           /\ count = Z.of_nat (length files)
           /\ count0 < count
           /\ Forall (fun '(_, files') => Z.of_nat (length files') < count)
                before).
Proof.
  revert folder0 count0.
  induction scan_results as [|[folder1 files1] sr IH]; intros folder0 count0;
    cbn [fold_left].
  - split; [lia |]. split; [constructor |]. now left.
  - destruct (Z.ltb_spec count0 (Z.of_nat (length files1))) as [Hlt | Hge].
    + specialize (IH (Some folder1) (Z.of_nat (length files1))).
      destruct (fold_left _ sr _) as [folder count].
      destruct IH as (Hle & Hall & Hwhich).
      split; [lia |]. split; [constructor; [exact Hle | exact Hall] |].
      right. destruct Hwhich as [[-> ->] | (before & files & after & -> & Hf & Hc & Hlt' & Hbefore)].
      * exists [], files1, sr. cbn [default app].
        repeat split; [exact Hlt | constructor].
      * exists ((folder1, files1) :: before), files, after.
        cbn [app]. repeat split; try assumption; [lia |].
        constructor; [lia | exact Hbefore].
    + specialize (IH folder0 count0).
      destruct (fold_left _ sr _) as [folder count].
      destruct IH as (Hle & Hall & Hwhich).
      split; [exact Hle |]. split; [constructor; [lia | exact Hall] |].
      destruct Hwhich as [[-> ->] | (before & files & after & -> & Hf & Hc & Hlt' & Hbefore)];
        [now left | right].
      exists ((folder1, files1) :: before), files, after.
      cbn [app]. repeat split; try assumption.
      constructor; [lia | exact Hbefore].
Qed.

(** X10: the statistics of [get_scan_statistics] agree with the flat
    list of [get_all_files]: the number of files is the length of that
    list and the number of bytes the sum of its sizes; the folders with
    files and the empty folders are all the folders; no folder has more
    files than the reported maximum; and the folder with the most files
    is absent exactly when no file was found, and otherwise is the first
    folder of the scan that has the maximum, which is positive. *)
Theorem get_scan_statistics_consistent (scan_results : ScanResults) :
  let stats := ScanReport.get_scan_statistics scan_results in
  let all_files := ScanReport.get_all_files scan_results in
  ScanReport.total_files_found stats = Z.of_nat (length all_files)
  /\ ScanReport.total_size_bytes stats = sizes_of all_files
  /\ ScanReport.total_folders_scanned stats = Z.of_nat (length scan_results)
  /\ ScanReport.folders_with_files stats + ScanReport.empty_folders stats
     = ScanReport.total_folders_scanned stats
  /\ 0 <= ScanReport.empty_folders stats
  /\ Forall (fun '(_, files) =>
               Z.of_nat (length files) <= ScanReport.max_files_in_folder stats)
       scan_results
  /\ ScanReport.files_per_folder stats
     = map (fun '(folder, files) => (folder, Z.of_nat (length files)))
         scan_results
  /\ match ScanReport.folder_with_most_files stats with
     | None =>
         ScanReport.total_files_found stats = 0
         /\ ScanReport.max_files_in_folder stats = 0
     | Some folder =>
         exists before files after,
           scan_results = before ++ (folder, files) :: after
           /\ ScanReport.max_files_in_folder stats = Z.of_nat (length files)
           /\ 0 < ScanReport.max_files_in_folder stats
           /\ Forall (fun '(_, files') =>
                        Z.of_nat (length files')
                        < ScanReport.max_files_in_folder stats) before
     end.
Proof.
  intros stats all_files. subst stats all_files.
  rewrite get_all_files_flattened.
  unfold ScanReport.get_scan_statistics.
  pose proof (most_files_spec scan_results None 0) as Hmost.
  fold (ScanReport.most_files scan_results) in Hmost.
  destruct (ScanReport.most_files scan_results) as [folder count].
  cbn [ScanReport.total_files_found ScanReport.total_size_bytes
         ScanReport.total_folders_scanned ScanReport.folders_with_files
         ScanReport.empty_folders ScanReport.max_files_in_folder
         ScanReport.files_per_folder ScanReport.folder_with_most_files].
  destruct Hmost as (Hle & Hall & Hwhich).
  assert (Htotal :
            fold_right (fun '(_, files) n => Z.of_nat (length files) + n) 0
              scan_results
            = Z.of_nat (length (flattened scan_results))).
  { clear. unfold flattened.
    induction scan_results as [|[folder1 files1] sr IH];
      cbn [fold_right flat_map]; [reflexivity |].
    rewrite length_app, length_map, IH. lia. }
  split; [exact Htotal |]. split.
  { clear. unfold flattened, sizes_of.
    assert (Hinner : forall (type_folder : string) (files : list FileInfo) acc,
              fold_left (fun total_size file_info =>
                           total_size + fi_size file_info) files acc
              = acc + fold_right (fun item total => fi_size (snd item) + total)
                        0 (map (pair type_folder) files)).
    { intros type_folder files.
      induction files as [|f files IH]; intros acc;
        cbn [fold_left map fold_right snd]; [lia | rewrite IH; lia]. }
    assert (Houter : forall acc,
              fold_left
                (fun total_size '(_, files) =>
                   fold_left (fun total_size file_info =>
                                total_size + fi_size file_info)
                     files total_size) scan_results acc
              = acc + fold_right (fun item total => fi_size (snd item) + total) 0
                        (flat_map (fun '(type_folder, files) =>
                                     map (pair type_folder) files)
                           scan_results)).
    { induction scan_results as [|[type_folder files] sr IH]; intros acc;
        cbn [fold_left flat_map]; [cbn; lia |].
      rewrite IH, (Hinner type_folder), fold_right_app.
      generalize (flat_map (fun '(type_folder0, files0) =>
                              map (pair type_folder0) files0) sr).
      intros rest.
      induction (map (pair type_folder) files) as [|x l IHl];
        cbn [fold_right]; lia. }
    rewrite Houter. lia. }
  split; [reflexivity |]. split; [lia |]. split.
  { pose proof (List.filter_length_le
                  (fun '(_, files) => (0 <? length files)%nat) scan_results).
    lia. }
  split; [exact Hall |]. split; [reflexivity |].
  destruct Hwhich as [[-> ->] | (before & files & after & Hsr & -> & Hc & Hlt & Hbefore)].
  - split; [| reflexivity]. rewrite Htotal. f_equal.
    unfold flattened. clear Htotal Hle.
    induction Hall as [|[folder1 files1] sr Hf _ IH]; [reflexivity |].
    cbn [flat_map]. destruct files1; [exact IH | cbn [length] in Hf; lia].
  - cbn [default] in Hsr. exists before, files, after.
    repeat split; try assumption; lia.
Qed.

(** The members of a group, in the order of the flat list. *)
Definition group_of (ext : string) (all_files : list (string * FileInfo))
  : list (string * FileInfo) :=
  List.filter
    (fun item =>
       String.eqb ext (ScanReport.extension_group (fi_filename (snd item))))
    all_files.

(** [d.get(ext, [])] *)
Fixpoint group_get (ext : string) (d : list (string * list (string * FileInfo)))
  : list (string * FileInfo) :=
  match d with
  | [] => []
  | (k, members) :: d' => if String.eqb ext k then members else group_get ext d'
  end.

Lemma group_get_append (ext ext0 : string) (item : string * FileInfo)
    (d : list (string * list (string * FileInfo))) :
  group_get ext (ScanReport.group_append ext0 item d)
  = group_get ext d ++ (if String.eqb ext ext0 then [item] else []).
Proof.
  induction d as [|[k members] d IH]; cbn [ScanReport.group_append group_get].
  - destruct (String.eqb ext ext0); reflexivity.
  - destruct (String.eqb_spec ext0 k) as [-> | Hne]; cbn [group_get].
    + destruct (String.eqb ext k); [reflexivity | now rewrite app_nil_r].
    + destruct (String.eqb_spec ext k) as [-> | Hne'].
      * destruct (String.eqb_spec k ext0); [congruence | now rewrite app_nil_r].
      * exact IH.
Qed.

Lemma group_append_keys (ext0 : string) (item : string * FileInfo)
    (d : list (string * list (string * FileInfo))) (x : string) :
  x ∈ map fst (ScanReport.group_append ext0 item d)
  <-> x = ext0 \/ x ∈ map fst d.
Proof.
  induction d as [|[k members] d IH]; cbn [ScanReport.group_append map fst].
  - rewrite elem_of_cons, elem_of_nil. tauto.
  - destruct (String.eqb_spec ext0 k) as [-> | Hne]; cbn [map fst];
      rewrite !elem_of_cons; [| rewrite IH]; tauto.
Qed.

(** The keys of the dictionary are distinct and none of its lists is
    empty. *)
Definition well_grouped (d : list (string * list (string * FileInfo))) : Prop :=
  NoDup (map fst d) /\ Forall (fun km => snd km <> []) d.

Lemma group_append_well (ext0 : string) (item : string * FileInfo)
    (d : list (string * list (string * FileInfo))) :
  well_grouped d -> well_grouped (ScanReport.group_append ext0 item d).
Proof.
  intros [Hnd Hne]. induction d as [|[k members] d IH];
    cbn [ScanReport.group_append].
  - split; [apply NoDup_singleton | repeat constructor]. discriminate.
  - cbn [map fst] in Hnd. apply NoDup_cons in Hnd as [Hnin Hnd'].
    inversion Hne as [| ? ? Hm Hne']; subst. cbn [snd] in Hm.
    destruct (String.eqb_spec ext0 k) as [-> | Hk].
    + split; [cbn [map fst]; now apply NoDup_cons |].
      constructor; [| exact Hne']. cbn [snd].
      destruct members; discriminate.
    + destruct (IH Hnd' Hne') as [Hnd1 Hne1]. split.
      * cbn [map fst]. apply NoDup_cons. split; [| exact Hnd1].
        rewrite group_append_keys. intros [-> | Hin]; [congruence | contradiction].
      * constructor; [exact Hm | exact Hne1].
Qed.

Lemma extension_group_cases (filename : string) :
  In (ScanReport.extension_group filename) [".doc"; ".docx"; "other"].
Proof.
  unfold ScanReport.extension_group.
  destruct (Str.ends_with ".doc" _); [now left |].
  destruct (Str.ends_with ".docx" _); [right; now left | right; right; now left].
Qed.

(** X11: [get_files_by_type] sorts the flat list of [get_all_files] into
    groups: under each key it has the items of that group, in the order
    of the flat list; its keys are distinct and among ".doc", ".docx" and
    "other", and none of its lists is empty.  So every file of the scan is
    in exactly one group. *)
Theorem get_files_by_type_groups (scan_results : ScanResults) :
  let files_by_type := ScanReport.get_files_by_type scan_results in
  let all_files := ScanReport.get_all_files scan_results in
  (forall ext, group_get ext files_by_type = group_of ext all_files)
  /\ NoDup (map fst files_by_type)
  /\ (forall ext members, In (ext, members) files_by_type ->
        In ext [".doc"; ".docx"; "other"]
        /\ members <> []
        /\ members = group_of ext all_files).
Proof.
  intros files_by_type all_files.
  assert (Hinner : forall (type_folder : string) (files : list FileInfo) d,
            let d' := fold_left
                        (fun files_by_type file_info =>
                           ScanReport.group_append
                             (ScanReport.extension_group (fi_filename file_info))
                             (type_folder, file_info) files_by_type) files d in
            (well_grouped d -> well_grouped d')
            /\ (forall ext, group_get ext d'
                  = group_get ext d ++ group_of ext (map (pair type_folder) files))
            /\ (forall x, x ∈ map fst d' ->
                   x ∈ map fst d \/ In x [".doc"; ".docx"; "other"])).
  { intros type_folder files.
    induction files as [|f files IH]; intros d; cbn [fold_left map].
    - split; [tauto |]. split; [intros ext; now rewrite app_nil_r | tauto].
    - destruct (IH (ScanReport.group_append
                      (ScanReport.extension_group (fi_filename f))
                      (type_folder, f) d)) as (Hw & Hg & Hk).
      split; [intros Hd; apply Hw, group_append_well, Hd |]. split.
      + intros ext. rewrite Hg, group_get_append, <- app_assoc. f_equal.
        unfold group_of. cbn [List.filter snd].
        destruct (String.eqb ext _); reflexivity.
      + intros x Hx. apply Hk in Hx as [Hx | Hx]; [| now right].
        apply group_append_keys in Hx as [-> | Hx]; [right | now left].
        apply extension_group_cases. }
  assert (Houter : forall d,
            let d' := fold_left
                        (fun files_by_type '(type_folder, files) =>
                           fold_left
                             (fun files_by_type file_info =>
                                ScanReport.group_append
                                  (ScanReport.extension_group
                                     (fi_filename file_info))
                                  (type_folder, file_info) files_by_type)
                             files files_by_type) scan_results d in
            (well_grouped d -> well_grouped d')
            /\ (forall ext, group_get ext d'
                  = group_get ext d ++ group_of ext (flattened scan_results))
            /\ (forall x, x ∈ map fst d' ->
                   x ∈ map fst d \/ In x [".doc"; ".docx"; "other"])).
  { induction scan_results as [|[type_folder files] sr IH]; intros d;
      cbn [fold_left].
    - split; [tauto |]. split; [intros ext; now rewrite app_nil_r | tauto].
    - destruct (Hinner type_folder files d) as (Hw1 & Hg1 & Hk1).
      destruct (IH (fold_left
                      (fun files_by_type file_info =>
                         ScanReport.group_append
                           (ScanReport.extension_group (fi_filename file_info))
                           (type_folder, file_info) files_by_type) files d))
        as (Hw2 & Hg2 & Hk2).
      split; [intros Hd; apply Hw2, Hw1, Hd |]. split.
      + intros ext. rewrite Hg2, Hg1, <- app_assoc. f_equal.
        unfold flattened, group_of. cbn [flat_map].
        now rewrite List.filter_app.
      + intros x Hx. apply Hk2 in Hx as [Hx | Hx]; [| now right].
        now apply Hk1. }
  destruct (Houter []) as (Hw & Hg & Hk). cbn [group_get app] in Hg.
  fold (ScanReport.get_files_by_type scan_results) in Hw, Hg, Hk.
  fold files_by_type in Hw, Hg, Hk.
  destruct Hw as [Hnd Hne]; [split; constructor |].
  subst all_files. rewrite get_all_files_flattened.
  split; [exact Hg |]. split; [exact Hnd |].
  intros ext members Hin.
  split.
  { destruct (Hk ext) as [Hx | Hx]; [| | exact Hx].
    - apply list_elem_of_In. change ext with (fst (ext, members)).
      now apply in_map.
    - cbn [map] in Hx. now apply elem_of_nil in Hx. }
  split.
  { rewrite List.Forall_forall in Hne. exact (Hne _ Hin). }
  rewrite <- Hg.
  clear -Hnd Hin. induction files_by_type as [|[k m] d IH]; [destruct Hin |].
  cbn [map fst] in Hnd. apply NoDup_cons in Hnd as [Hnin Hnd].
  cbn [group_get]. destruct Hin as [[= -> ->] | Hin].
  - now rewrite String.eqb_refl.
  - destruct (String.eqb_spec ext k) as [-> | Hne]; [| now apply IH].
    exfalso. apply Hnin. apply list_elem_of_In.
    change k with (fst (k, members)). now apply in_map.
Qed.

End Reports.

(** A folder that is configured twice. *)
Example scan_of_a_folder_configured_twice :
  value (TypeFolderScanner.scan_folders ["type3"; "type3"] "/in" []
           (Demo.demo_world 0))
  = inl [("type3", [])]
  /\ ScanReport.validate_scan_results ["type3"; "type3"] [("type3", [])]
     = false
  /\ ScanReport.validate_scan_results ["type3"; "type6"]
       [("type6", []); ("type3", [])] = true.
Proof. repeat split; reflexivity. Qed.

(** A scan of three folders, one of them empty. *)
Definition demo_file (name : string) (size : Z) : FileInfo :=
  mkFileInfo name ("/in/" +:+ name) size 0.

Definition demo_scan : ScanResults :=
  [("type3", [demo_file "a.doc" 1048576; demo_file "B.DOCX" 524288;
              demo_file "notes.txt" 0]);
   ("type6", []);
   ("type7", [demo_file "c.docx" 0; demo_file "d.doc" 0; demo_file "e.doc" 0])].

Example statistics_of_the_demo_scan :
  ScanReport.get_scan_statistics demo_scan
  = ScanReport.mkScanStatistics 3 6 2 1 1572864 (150 # 100) (Some "type3") 3
      [("type3", 3); ("type6", 0); ("type7", 3)].
Proof. reflexivity. Qed.

Example groups_of_the_demo_scan :
  ScanReport.get_files_by_type demo_scan
  = [(".doc", [("type3", demo_file "a.doc" 1048576); ("type7", demo_file "d.doc" 0);
               ("type7", demo_file "e.doc" 0)]);
     (".docx", [("type3", demo_file "B.DOCX" 524288);
                ("type7", demo_file "c.docx" 0)]);
     ("other", [("type3", demo_file "notes.txt" 0)])].
Proof. reflexivity. Qed.

(** * Further properties of the parallel executor *)

Section Summary.

(** [d.get(k)] *)
Fixpoint dict_get {V} (k : string) (d : list (string * V)) : option V :=
  match d with
  | [] => None
  | (k', v) :: d' => if String.eqb k k' then Some v else dict_get k d'
  end.

Lemma dict_get_set {V} (k k' : string) (v : V) (d : list (string * V)) :
  dict_get k (dict_set k' v d)
  = if String.eqb k k' then Some v else dict_get k d.
Proof.
  induction d as [|[k0 v0] d IH]; cbn [dict_set dict_get]; [reflexivity |].
  destruct (String.eqb_spec k' k0) as [-> | Hne]; cbn [dict_get].
  - destruct (String.eqb k k0); reflexivity.
  - destruct (String.eqb_spec k k0) as [-> | Hne'].
    + destruct (String.eqb_spec k0 k'); [congruence | reflexivity].
    + exact IH.
Qed.

Lemma dict_set_length {V} (k : string) (v : V) (d : list (string * V)) :
  length (dict_set k v d)
  = (length d + match dict_get k d with Some _ => 0 | None => 1 end)%nat.
Proof.
  induction d as [|[k0 v0] d IH]; cbn [dict_set dict_get length];
    [reflexivity |].
  destruct (String.eqb k k0); cbn [length]; [lia | rewrite IH; lia].
Qed.

(** The results that carry the name [name]. *)
Definition named (name : string) (results : list ActionResult)
  : list ActionResult :=
  List.filter (fun r => String.eqb name (action_name r)) results.

Lemma actions_dict (results : list ActionResult) (d : list (string * bool)) :
  let d' := fold_left (fun d r => dict_set (action_name r) (success r) d)
              results d in
  NoDup (map fst d) ->
  NoDup (map fst d')
  /\ (length d' <= length d + length results)%nat
  /\ (NoDup (map action_name results)
      /\ (forall r, In r results -> dict_get (action_name r) d = None)
      -> length d' = (length d + length results)%nat)
  /\ forall name,
       dict_get name d'
       = match last (named name results) with
         | Some r => Some (success r)
         | None => dict_get name d
         end.
Proof.
  revert d. induction results as [|r results IH]; intros d d' Hnd.
  - subst d'. cbn [fold_left length named List.filter last].
    split; [exact Hnd |]. split; [lia |]. split; [lia | reflexivity].
  - subst d'. cbn [fold_left].
    destruct (IH (dict_set (action_name r) (success r) d)
                (dict_set_NoDup _ _ _ Hnd)) as (Hnd' & Hlen & Hdistinct & Hget).
    split; [exact Hnd' |].
    pose proof (dict_set_length (action_name r) (success r) d) as Hset.
    split; [cbn [length]; destruct (dict_get (action_name r) d); lia |].
    split.
    + intros [Hnames Hfresh]. cbn [map] in Hnames.
      apply NoDup_cons in Hnames as [Hnin Hnames].
      rewrite Hdistinct.
      * rewrite Hset, (Hfresh r) by now left. cbn [length]. lia.
      * split; [exact Hnames |]. intros r' Hr'. rewrite dict_get_set.
        destruct (String.eqb_spec (action_name r') (action_name r)) as [Heq | _].
        -- exfalso. apply Hnin. rewrite <- Heq. apply list_elem_of_In.
           now apply in_map.
        -- apply Hfresh. now right.
    + intros name. rewrite Hget, dict_get_set. unfold named.
      cbn [List.filter].
      destruct (String.eqb name (action_name r)).
      * destruct (List.filter _ results) as [|r' l] eqn:Hf; [reflexivity |].
        change (r :: r' :: l) with ([r] ++ r' :: l).
        rewrite last_app. destruct (last (r' :: l)) eqn:Hl; [reflexivity |].
        apply last_None in Hl. discriminate.
      * reflexivity.
Qed.

(** X12: the summary of [get_execution_summary] counts every result
    once: the total is the number of results, the successes and the
    failures are those of [get_successful_actions] and of
    [get_failed_actions], which together are the results, and
    [all_actions_successful] holds exactly when no failure is counted.
    The dictionary ['actions'] is absent exactly for no results; it has
    one entry for each name: when several results carry a name, as those
    of actions without a name do, the last of them decides the entry, so
    the dictionary can be shorter than the total, and is as long when the
    names are distinct. *)
Theorem execution_summary_consistent (results : list ActionResult) :
  let summary := ExecutionSummary.get_execution_summary results in
  let succeeded := ExecutionSummary.get_successful_actions results in
  let failed := ExecutionSummary.get_failed_actions results in
  ExecutionSummary.total_actions summary = Z.of_nat (length results)
  /\ ExecutionSummary.successful summary = Z.of_nat (length succeeded)
  /\ ExecutionSummary.failed summary = Z.of_nat (length failed)
  /\ Permutation results (succeeded ++ failed)
  /\ (ExecutionSummary.all_actions_successful results = true
      <-> ExecutionSummary.failed summary = 0)
  /\ (ExecutionSummary.actions summary = None <-> results = [])
  /\ forall d, ExecutionSummary.actions summary = Some d ->
       NoDup (map fst d)
       /\ (length d <= length results)%nat
       /\ (NoDup (map action_name results) -> length d = length results)
       /\ forall name,
            dict_get name d = option_map success (last (named name results)).
Proof.
  intros summary succeeded failed. subst summary succeeded failed.
  unfold ExecutionSummary.get_successful_actions,
    ExecutionSummary.get_failed_actions,
    ExecutionSummary.all_actions_successful.
  pose proof (List.filter_length success results) as Hsplit.
  assert (Hperm : Permutation results
                    (List.filter success results
                     ++ List.filter (fun r => negb (success r)) results)).
  { clear. induction results as [|r results IH]; [reflexivity |].
    cbn [List.filter]. destruct (success r); cbn [negb app].
    - now constructor.
    - now apply Permutation_cons_app. }
  assert (Hall : forallb success results = true
                 <-> length (List.filter (fun r => negb (success r)) results)
                     = 0%nat).
  { clear. induction results as [|r results IH]; [cbn; tauto |].
    cbn [forallb List.filter]. destruct (success r); cbn [negb andb length];
      [exact IH | split; [discriminate | lia]]. }
  destruct results as [|r results].
  - cbn. repeat split; try reflexivity; try discriminate.
  - remember (r :: results) as rs eqn:Hrs.
    assert (Hsummary :
              ExecutionSummary.get_execution_summary rs
              = let successful := Z.of_nat (length (List.filter success rs)) in
                let total_duration := ExecutionSummary.sum_durations rs in
                ExecutionSummary.mkSummary (Z.of_nat (length rs)) successful
                  (Z.of_nat (length rs) - successful)
                  (inject_Z successful / inject_Z (Z.of_nat (length rs)) * 100)%Q
                  total_duration
                  (total_duration / inject_Z (Z.of_nat (length rs)))%Q
                  (Some (fold_left
                           (fun d r => dict_set (action_name r) (success r) d)
                           rs []))) by (subst rs; reflexivity).
    rewrite Hsummary. cbv zeta.
    cbn [ExecutionSummary.total_actions ExecutionSummary.successful
           ExecutionSummary.failed ExecutionSummary.actions].
    split; [reflexivity |]. split; [reflexivity |]. split; [lia |].
    split; [exact Hperm |]. split; [rewrite Hall; lia |].
    split; [split; [discriminate | subst rs; discriminate] |].
    intros d [= <-].
    destruct (actions_dict rs [] (NoDup_nil_2)) as (Hnd & Hlen & Hdistinct & Hget).
    split; [exact Hnd |]. split; [exact Hlen |]. split.
    + intros Hnames. apply Hdistinct. split; [exact Hnames | reflexivity].
    + intros name. rewrite Hget. cbn [dict_get].
      destruct (last (named name rs)); reflexivity.
Qed.

End Summary.

(** Two actions without a name, the first of which fails. *)
Example summary_of_two_unnamed_actions :
  let results := [mkActionResult "unknown" false 0 (Some "failed");
                  mkActionResult "unknown" true 0 None] in
  ExecutionSummary.total_actions (ExecutionSummary.get_execution_summary results)
  = 2
  /\ ExecutionSummary.failed (ExecutionSummary.get_execution_summary results) = 1
  /\ ExecutionSummary.actions (ExecutionSummary.get_execution_summary results)
     = Some [("unknown", true)].
Proof. repeat split; reflexivity. Qed.

(** * Properties of the configuration *)

Section Configuration.

(** The variable is set to a string that is not empty. *)
Definition provided (v : option string) : Prop :=
  exists c s, v = Some (String c s).

Lemma truthy_provided (v : option string) :
  Scheduler.truthy v = true <-> provided v.
Proof.
  unfold provided. destruct v as [[|c s] |]; cbn.
  - split; [discriminate | intros (c & s & [=])].
  - split; [intros _; now exists c, s | reflexivity].
  - split; [discriminate | intros (c & s & [=])].
Qed.

(** The names of the required variables that are missing. *)
Definition missing_fields (c : ConfigManager.Config) : list string :=
  map fst
    (List.filter (fun field => negb (Scheduler.truthy (snd field c)))
       ConfigManager.required_fields).

(** X13: [_validate_required_config] accepts a configuration exactly
    when the ten required variables are set to strings that are not
    empty, the three ports are between 1 and 65535, and the poll interval
    is at least 1; what it raises otherwise is a [ConfigurationError],
    and the missing variables are reported before any number is looked
    at, all of them in one message, in the order of the list. *)
Theorem validate_required_config_accepts (c : ConfigManager.Config) :
  (ConfigManager._validate_required_config c = inl tt
   <-> Forall (fun field => provided (snd field c)) ConfigManager.required_fields
       /\ 1 <= ConfigManager.SOURCE_FTPS_PORT c <= 65535
       /\ 1 <= ConfigManager.DEST_SFTP_PORT c <= 65535
       /\ 1 <= ConfigManager.SMTP_PORT c <= 65535
       /\ 1 <= ConfigManager.POLL_INTERVAL_SECONDS c)
  /\ (forall e, ConfigManager._validate_required_config c = inr e ->
        exn_type e = "ConfigurationError")
  /\ (missing_fields c <> [] ->
      ConfigManager._validate_required_config c
      = inr (ConfigManager.ConfigurationError
               ("Missing required environment variables: "
                +:+ String.concat ", " (missing_fields c)))).
Proof.
  assert (Hmissing : missing_fields c = []
                     <-> Forall (fun field => provided (snd field c))
                           ConfigManager.required_fields).
  { unfold missing_fields.
    induction ConfigManager.required_fields as [|field fields IH];
      cbn [List.filter map].
    - split; [constructor | reflexivity].
    - destruct (Scheduler.truthy (snd field c)) eqn:Ht; cbn [negb map].
      + rewrite IH. split.
        * intros Hall. constructor; [now apply truthy_provided | exact Hall].
        * intros Hall. now inversion Hall.
      + split; [discriminate |]. intros Hall. inversion Hall as [| ? ? Hp _].
        apply truthy_provided in Hp. congruence. }
  unfold ConfigManager._validate_required_config. fold (missing_fields c).
  destruct (missing_fields c) as [|name names] eqn:Hm.
  - assert (Hall : Forall (fun field => provided (snd field c))
                     ConfigManager.required_fields) by now apply Hmissing.
    unfold ConfigManager.port_in_range.
    split; [| split; [| congruence]].
    + destruct (Z.leb_spec 1 (ConfigManager.SOURCE_FTPS_PORT c)),
        (Z.leb_spec (ConfigManager.SOURCE_FTPS_PORT c) 65535),
        (Z.leb_spec 1 (ConfigManager.DEST_SFTP_PORT c)),
        (Z.leb_spec (ConfigManager.DEST_SFTP_PORT c) 65535),
        (Z.leb_spec 1 (ConfigManager.SMTP_PORT c)),
        (Z.leb_spec (ConfigManager.SMTP_PORT c) 65535),
        (Z.ltb_spec (ConfigManager.POLL_INTERVAL_SECONDS c) 1);
        cbn [andb negb];
        (split; [try discriminate; intros _; repeat split; (assumption || lia)
                | try reflexivity; intros (_ & ? & ? & ? & ?); lia]).
    + intros e.
      destruct (negb _); [now intros [= <-] |].
      destruct (negb _); [now intros [= <-] |].
      destruct (negb _); [now intros [= <-] |].
      destruct (_ <? _); [now intros [= <-] | discriminate].
  - split; [| split; [now intros e [= <-] | reflexivity]].
    split; [discriminate |]. intros [Hall _].
    apply Hmissing in Hall. discriminate.
Qed.

Variable croniter_check : string -> CronCheck.
Variable timezone_check : string -> ZoneCheck.

(** X14: the [Scheduler] accepts a schedule exactly when, with a cron
    expression, [croniter] takes the expression and [pytz] knows the time
    zone, and, without one, the interval is positive.  The time zone is
    not looked at without a cron expression, and the interval is not
    looked at with one. *)
Theorem scheduler_validate_config_accepts (config : ScheduleConfig) :
  SchedulerInit._validate_config croniter_check timezone_check config = inl tt
  <-> if Scheduler.truthy (poll_cron config)
      then croniter_check (default "" (poll_cron config)) = CronValid
           /\ timezone_check (timezone config) = ZoneKnown
      else 0 < poll_interval_seconds config.
Proof.
  unfold SchedulerInit._validate_config.
  destruct (Scheduler.truthy (poll_cron config)).
  - destruct (croniter_check _); [| split; [discriminate | intros [[=] _]] ..].
    destruct (timezone_check _);
      [tauto | split; [discriminate | intros [_ [=]]] ..].
  - destruct (Z.leb_spec (poll_interval_seconds config) 0);
      [split; [discriminate | lia] | tauto].
Qed.

(** X15: a configuration that [ConfigManager] accepted and that has no
    cron expression is accepted by the [Scheduler], whatever its time
    zone is: the check of the interval in the scheduler cannot fail for
    it. *)
Theorem validated_interval_is_scheduled (c : ConfigManager.Config) :
  ConfigManager._validate_required_config c = inl tt ->
  Scheduler.truthy (ConfigManager.POLL_CRON c) = false ->
  SchedulerInit._validate_config croniter_check timezone_check
    (ConfigManager.get_schedule_config c) = inl tt.
Proof.
  intros Hvalid Hcron.
  unfold SchedulerInit._validate_config.
  cbn [ConfigManager.get_schedule_config poll_cron poll_interval_seconds].
  rewrite Hcron.
  unfold ConfigManager._validate_required_config in Hvalid.
  destruct (map fst _) in Hvalid; [| discriminate].
  destruct (negb _) in Hvalid; [discriminate |].
  destruct (negb _) in Hvalid; [discriminate |].
  destruct (negb _) in Hvalid; [discriminate |].
  destruct (Z.ltb_spec (ConfigManager.POLL_INTERVAL_SECONDS c) 1);
    [discriminate |].
  destruct (Z.leb_spec (ConfigManager.POLL_INTERVAL_SECONDS c) 0);
    [lia | reflexivity].
Qed.

End Configuration.

(** The configuration of a process in whose environment the ten required
    variables are set and no other. *)
Definition demo_env_config : ConfigManager.Config :=
  ConfigManager.mkConfig
    (Some "ftps.example.org") 21 (Some "reader") (Some "secret") "/" true true
    (Some "sftp.example.org") 22 (Some "writer") (Some "secret") "/"
    (Some "smtp.example.org") 587 (Some "mailer") (Some "secret") None
    (Some "admin@example.org, ops@example.org")
    60 None "UTC" "./data" "./temp" "./data/AutogenJobID/zipfile-backups"
    0 0 0 0 0
    "type3,type6,type7,type16,type18,type19,type20,type21,type22,type23,type24"
    true "./data/processing".

(** The same with no password for the source and no address of the
    administrator, and a port that is out of range. *)
Definition demo_env_incomplete : ConfigManager.Config :=
  ConfigManager.mkConfig
    (Some "ftps.example.org") 0 (Some "reader") None "/" true true
    (Some "sftp.example.org") 22 (Some "writer") (Some "secret") "/"
    (Some "smtp.example.org") 587 (Some "mailer") (Some "secret") None
    (Some "")
    60 None "UTC" "./data" "./temp" "./data/AutogenJobID/zipfile-backups"
    0 0 0 0 0 "type3" true "./data/processing".

Example demo_env_config_accepted :
  ConfigManager._validate_required_config demo_env_config = inl tt.
Proof. reflexivity. Qed.

Lemma validate_required_config_accepts_witness :
  missing_fields demo_env_incomplete <> []
  /\ ConfigManager._validate_required_config demo_env_incomplete
     = inr (ConfigManager.ConfigurationError
              "Missing required environment variables: SOURCE_FTPS_PASSWORD, ADMIN_EMAIL").
Proof.
  assert (Hm : missing_fields demo_env_incomplete <> []) by discriminate.
  split; [exact Hm |].
  exact (proj2 (proj2 (validate_required_config_accepts demo_env_incomplete))
           Hm).
Defined.

Lemma validated_interval_is_scheduled_witness :
  ConfigManager._validate_required_config demo_env_config = inl tt
  /\ Scheduler.truthy (ConfigManager.POLL_CRON demo_env_config) = false
  /\ SchedulerInit._validate_config
       (fun _ => CronInvalid (mkExn "ValueError" "bad expression"))
       (fun _ => ZoneUnknown (mkExn "UnknownTimeZoneError" "UTC"))
       (ConfigManager.get_schedule_config demo_env_config) = inl tt.
Proof.
  split; [reflexivity |]. split; [reflexivity |].
  exact (validated_interval_is_scheduled
           (fun _ => CronInvalid (mkExn "ValueError" "bad expression"))
           (fun _ => ZoneUnknown (mkExn "UnknownTimeZoneError" "UTC"))
           demo_env_config eq_refl eq_refl).
Defined.

Section TypeFolders.

(** The character occurs in the string. *)
Definition has_char (c : ascii) (s : string) : Prop :=
  In c (list_ascii_of_string s).

Lemma has_char_append (c : ascii) (s t : string) :
  has_char c (s +:+ t) <-> has_char c s \/ has_char c t.
Proof.
  unfold has_char. induction s as [|a s IH]; simpl.
  - tauto.
  - rewrite IH. tauto.
Qed.

Lemma split_from_pieces (sep : ascii) (s piece : string) :
  ~ has_char sep piece ->
  Forall (fun f => ~ has_char sep f) (Text.split_from sep s piece).
Proof.
  revert piece. induction s as [|c s IH]; intros piece Hpiece;
    cbn [Text.split_from].
  - now constructor.
  - destruct (Ascii.eqb_spec c sep) as [-> | Hne].
    + constructor; [exact Hpiece |]. apply IH. intros [].
    + apply IH. rewrite has_char_append. intros [Hin | [Heq | []]];
        [contradiction | congruence].
Qed.

Lemma lstrip_chars (c : ascii) (s : string) :
  has_char c (Text.lstrip s) -> has_char c s.
Proof.
  unfold has_char. induction s as [|a s IH]; cbn [Text.lstrip]; [tauto |].
  destruct (Text.is_space a); [| tauto].
  intros Hin. right. now apply IH.
Qed.

Lemma rstrip_chars (c : ascii) (s : string) :
  has_char c (Text.rstrip s) -> has_char c s.
Proof.
  unfold has_char. induction s as [|a s IH]; cbn [Text.rstrip]; [tauto |].
  destruct (Text.rstrip s) as [|b r].
  - destruct (Text.is_space a); cbn [list_ascii_of_string In]; tauto.
  - cbn [list_ascii_of_string In] in *. tauto.
Qed.

Lemma rstrip_cons (a : ascii) (s : string) :
  Text.is_space a = false ->
  Text.rstrip (String a s) = String a (Text.rstrip s).
Proof.
  intros Ha. cbn [Text.rstrip]. destruct (Text.rstrip s); [now rewrite Ha |].
  reflexivity.
Qed.

Lemma rstrip_rstrip (s : string) : Text.rstrip (Text.rstrip s) = Text.rstrip s.
Proof.
  induction s as [|a s IH]; [reflexivity |].
  cbn [Text.rstrip]. destruct (Text.rstrip s) as [|b r] eqn:Hr.
  - destruct (Text.is_space a) eqn:Ha; [reflexivity |].
    cbn [Text.rstrip]. now rewrite Ha.
  - change (Text.rstrip (String a (String b r)))
      with (match Text.rstrip (String b r) with
            | EmptyString =>
                if Text.is_space a then EmptyString else String a EmptyString
            | rest => String a rest
            end).
    now rewrite IH.
Qed.

Lemma lstrip_head (s : string) :
  match Text.lstrip s with
  | EmptyString => True
  | String a _ => Text.is_space a = false
  end.
Proof.
  induction s as [|a s IH]; cbn [Text.lstrip]; [exact I |].
  destruct (Text.is_space a) eqn:Ha; [exact IH | exact Ha].
Qed.

(** Stripping a stripped string changes nothing. *)
Lemma strip_strip (s : string) : Text.strip (Text.strip s) = Text.strip s.
Proof.
  unfold Text.strip. pose proof (lstrip_head s) as Hhead.
  destruct (Text.lstrip s) as [|a t]; [reflexivity |].
  rewrite (rstrip_cons a t Hhead). cbn [Text.lstrip]. rewrite Hhead.
  rewrite (rstrip_cons a _ Hhead). now rewrite rstrip_rstrip.
Qed.

Lemma stripped_pieces_spec (s : string) :
  Forall (fun f => f <> EmptyString
                   /\ Text.strip f = f
                   /\ ~ has_char "," f)
    (ConfigManager.stripped_pieces s).
Proof.
  unfold ConfigManager.stripped_pieces, Text.split.
  pose proof (split_from_pieces "," s EmptyString (fun H => H)) as Hpieces.
  induction Hpieces as [|f fs Hf _ IH]; cbn [List.filter map]; [constructor |].
  destruct (Text.nonempty (Text.strip f)) eqn:Hne; [| exact IH].
  cbn [map]. constructor; [| exact IH].
  split; [intros Heq; rewrite Heq in Hne; discriminate |].
  split; [apply strip_strip |].
  intros Hin. apply Hf. unfold Text.strip in Hin.
  now apply lstrip_chars, rstrip_chars.
Qed.

(** X16: the folders of [get_type_folder_config] are the pieces of
    [TYPE_FOLDERS] between the commas, stripped; none of them is empty,
    none has white space at an end (stripping it again changes nothing)
    and none has a comma.  The base path is [SOURCE_FTPS_PATH]. *)
Theorem get_type_folder_config_folders (c : ConfigManager.Config) :
  let type_folder_config := ConfigManager.get_type_folder_config c in
  ConfigManager.base_path type_folder_config = ConfigManager.SOURCE_FTPS_PATH c
  /\ Forall (fun folder => folder <> EmptyString
                           /\ Text.strip folder = folder
                           /\ ~ has_char "," folder)
       (ConfigManager.folders type_folder_config).
Proof.
  split; [reflexivity |]. apply stripped_pieces_spec.
Qed.

(** X17: the primary address of [get_email_config] is never blank when
    [ADMIN_EMAIL] passed [_validate_required_config] and has a comma with
    an address beside it: it is the first of the addresses, which are the
    stripped pieces between the commas.  When [ADMIN_EMAIL] has commas
    and white space only, the list is empty and the primary address
    stays the text as it is; with no comma there is no list. *)
Theorem get_email_config_addresses (c : ConfigManager.Config)
    (admin : string) :
  ConfigManager.ADMIN_EMAIL c = Some admin ->
  exists email_config,
    ConfigManager.get_email_config c = inl email_config
    /\ ConfigManager.smtp_from email_config = ConfigManager.SMTP_FROM c
    /\ if Str.str_in "," admin
       then ConfigManager.admin_emails email_config
            = Some (ConfigManager.stripped_pieces admin)
            /\ ConfigManager.admin_email email_config
               = hd admin (ConfigManager.stripped_pieces admin)
            /\ (ConfigManager.stripped_pieces admin <> [] ->
                ConfigManager.admin_email email_config <> EmptyString
                /\ Text.strip (ConfigManager.admin_email email_config)
                   = ConfigManager.admin_email email_config)
       else ConfigManager.admin_emails email_config = None
            /\ ConfigManager.admin_email email_config = admin.
Proof.
  intros Hadmin. unfold ConfigManager.get_email_config. rewrite Hadmin.
  destruct (Str.str_in "," admin).
  - eexists. split; [reflexivity |].
    cbn [ConfigManager.smtp_from ConfigManager.admin_emails
           ConfigManager.admin_email].
    split; [reflexivity |]. split; [reflexivity |].
    pose proof (stripped_pieces_spec admin) as Hall.
    destruct (ConfigManager.stripped_pieces admin) as [|first rest];
      [split; [reflexivity | congruence] |].
    split; [reflexivity |]. intros _.
    inversion Hall as [| ? ? (Hne & Hstrip & _) _]. now split.
  - eexists. split; [reflexivity |]. repeat split.
Qed.

End TypeFolders.

Example default_type_folders :
  ConfigManager.folders (ConfigManager.get_type_folder_config demo_env_config)
  = ["type3"; "type6"; "type7"; "type16"; "type18"; "type19"; "type20";
     "type21"; "type22"; "type23"; "type24"].
Proof. reflexivity. Qed.

Example type_folders_with_blanks :
  ConfigManager.stripped_pieces " type3 , ,type 6,,	type7 "
  = ["type3"; "type 6"; "type7"].
Proof. reflexivity. Qed.

Example email_config_of_two_addresses :
  ConfigManager.get_email_config demo_env_config
  = inl (ConfigManager.mkEmailConfig (Some "smtp.example.org") 587
           (Some "mailer") (Some "secret") "admin@example.org"
           (Some ["admin@example.org"; "ops@example.org"]) None).
Proof. reflexivity. Qed.

Lemma get_email_config_addresses_witness :
  ConfigManager.ADMIN_EMAIL demo_env_config
  = Some "admin@example.org, ops@example.org"
  /\ exists email_config,
       ConfigManager.get_email_config demo_env_config = inl email_config
       /\ ConfigManager.smtp_from email_config = None.
Proof.
  split; [reflexivity |].
  destruct (get_email_config_addresses demo_env_config
              "admin@example.org, ops@example.org" eq_refl)
    as (email_config & Hv & Hfrom & _).
  exists email_config. split; [exact Hv | exact Hfrom].
Defined.
